(** * The analyze endpoint of the channel stylist: a shallow embedding

    This development models [src/app/api/analyze/route.ts]: the route
    handler [POST] together with its helpers [parseJsonObject],
    [extractChannelIdentifier], [resolveChannelDetails],
    [identifyChannelId] and [fetchTranscripts].

    The file has three parts: the embedding of the source, the
    definitions that follow the words of the specification together
    with concrete worlds for the examples, and the theorems.

    Conventions.
    - A JavaScript string is a [string]; every [ascii] stands for one
      UTF-16 code unit below 256, so the development covers the Latin-1
      fragment of JavaScript strings.
    - The bodies of the YouTube Data API answers are records with the
      shapes the source casts them to; the output of the model is parsed
      into a [json] value, since the source checks its shape at run
      time.
    - The platform built-ins whose algorithms are not part of the
      repository ([new URL], [JSON.parse], [encodeURIComponent], the
      [ToString] conversion) are fields of a [Runtime] record.
    - The network ([fetch], the transcript library, the OpenAI client)
      is a [World] record of answers; every function that awaits the
      network lives in the monad [M], which logs the calls it issues and
      carries JavaScript exceptions. *)

From stdpp Require Import base option list strings gmap.
From Stdlib Require Import ZArith QArith Ascii String Lia.
From Stdlib Require Import DecimalString.

#[local] Open Scope string_scope.
#[local] Open Scope list_scope.
#[local] Open Scope Z_scope.

(** ** JavaScript strings *)

Module JsString.

(** The code units below 256 matched by [\s] and stripped by
    [String.prototype.trim]: TAB, LF, VT, FF, CR, SPACE and NBSP. *)
Definition is_ws (c : ascii) : bool :=
  let n := nat_of_ascii c in
  ((9 <=? n)%nat && (n <=? 13)%nat) || (n =? 32)%nat || (n =? 160)%nat.

(** [Boolean(s)]: a string is truthy when it is not empty. *)
Definition Boolean (s : string) : bool :=
  match s with
  | EmptyString => false
  | String _ _ => true
  end.

Fixpoint trimStart (s : string) : string :=
  match s with
  | EmptyString => EmptyString
  | String c s' => if is_ws c then trimStart s' else s
  end.

Fixpoint trimEnd (s : string) : string :=
  match s with
  | EmptyString => EmptyString
  | String c s' =>
      match trimEnd s' with
      | EmptyString => if is_ws c then EmptyString else String c EmptyString
      | t => String c t
      end
  end.

(** [s.trim()] *)
Definition trim (s : string) : string := trimEnd (trimStart s).

(** [s.startsWith(p)] *)
Definition startsWith (s p : string) : bool := String.prefix p s.

(** [s.includes(p)] *)
Fixpoint includes (s p : string) : bool :=
  String.prefix p s ||
  match s with
  | EmptyString => false
  | String _ s' => includes s' p
  end.

(** [s.indexOf(p)], counting from [i]. *)
Fixpoint indexOf_from (s p : string) (i : Z) : Z :=
  if String.prefix p s then i
  else match s with
       | EmptyString => -1
       | String _ s' => indexOf_from s' p (i + 1)
       end.

Definition indexOf (s p : string) : Z := indexOf_from s p 0.

(** [s.lastIndexOf(p)], counting from [i]. *)
Fixpoint lastIndexOf_from (s p : string) (i : Z) : Z :=
  match s with
  | EmptyString => if String.prefix p s then i else -1
  | String _ s' =>
      let r := lastIndexOf_from s' p (i + 1) in
      if r =? -1 then (if String.prefix p s then i else -1) else r
  end.

Definition lastIndexOf (s p : string) : Z := lastIndexOf_from s p 0.

(** [s.slice(start, end)] with the relative-index rules of the
    language: a negative index counts from the end, and both are
    clamped to the string. *)
Definition slice (s : string) (start end_ : Z) : string :=
  let len := Z.of_nat (String.length s) in
  let from := if start <? 0 then Z.max (len + start) 0 else Z.min start len in
  let to := if end_ <? 0 then Z.max (len + end_) 0 else Z.min end_ len in
  substring (Z.to_nat from) (Z.to_nat (to - from)) s.

(** [s.slice(start)] *)
Definition slice_from (s : string) (start : Z) : string :=
  slice s start (Z.of_nat (String.length s)).

(** [s.split(sep)] for a separator of one code unit. *)
Fixpoint split (sep : ascii) (s : string) : list string :=
  match s with
  | EmptyString => [EmptyString]
  | String c s' =>
      if Ascii.eqb c sep then EmptyString :: split sep s'
      else match split sep s' with
           | h :: t => String c h :: t
           | [] => [String c EmptyString]
           end
  end.

(** [s.replace(/\s+/g, " ")]: every maximal run of white space becomes
    one space; [in_run] tells that the previous code unit was white
    space too. *)
Fixpoint replace_ws_runs (in_run : bool) (s : string) : string :=
  match s with
  | EmptyString => EmptyString
  | String c s' =>
      if is_ws c
      then (if in_run then replace_ws_runs true s'
            else String " " (replace_ws_runs true s'))
      else String c (replace_ws_runs false s')
  end.

(** [parts.join(sep)] on an array of strings. *)
Definition join (sep : string) (parts : list string) : string :=
  String.concat sep parts.

End JsString.

(** ** Values, exceptions and the outside world *)

(** A thrown value: an instance of [Error] with its [message], or any
    other value. *)
Inductive exn : Type :=
| Error (message : string)
| Thrown.

(** How an evaluation completes. *)
Inductive result (A : Type) : Type :=
| Return (value : A)
| Throw (error : exn).
Arguments Return {A} value.
Arguments Throw {A} error.

(** A value produced by [JSON.parse] or [request.json()].  [undefined]
    is the [None] of [option json]; a number is the rational it
    denotes. *)
#[warnings="-register-all"]
Inductive json : Type :=
| JNull
| JBool (b : bool)
| JNum (q : Q)
| JStr (s : string)
| JArr (elements : list json)
| JObj (properties : gmap string json).

(** [type ChannelIdentifier]: the tag is the constructor, [null] is the
    [None] of [option ChannelIdentifier]. *)
Inductive ChannelIdentifier : Type :=
| Id (value : string)
| Handle (value : string)
| Custom (value : string).

(** The part of a [URL] object the handler reads. *)
Record URL : Type := { pathname : string }.

(** Built-ins of the platform. *)
Record Runtime : Type := {
  (** [new URL(url)]; [None] when the constructor throws. *)
  new_URL : string -> option URL;
  (** [JSON.parse(text)]; [None] when it throws. *)
  JSON_parse : string -> option json;
  encodeURIComponent : string -> string;
  (** The string a template literal or [Array.prototype.join] makes of a
      value. *)
  ToString : option json -> string;
}.

(** The bodies of the YouTube Data API answers, with the shapes the
    source casts them to; every optional or defensively read property is
    an [option]. *)
Record ChannelIdRef : Type := { channelId : option string }.
Record ChannelSearchItem : Type := { csi_id : option ChannelIdRef }.
Record ChannelSearchJson : Type := { cs_items : option (list ChannelSearchItem) }.

Record UsernameItem : Type := { ui_id : option string }.
Record UsernameJson : Type := { un_items : option (list UsernameItem) }.

Record ChannelSnippet : Type := { cs_title : option string }.
Record ChannelItem : Type := { ci_snippet : option ChannelSnippet }.
Record ChannelJson : Type := { ch_items : option (list ChannelItem) }.

Record VideoIdRef : Type := { vi_videoId : option string }.
Record VideoSnippet : Type := {
  vs_title : option string;
  vs_publishedAt : option string;
}.
Record VideoItem : Type := {
  vi_id : option VideoIdRef;
  vi_snippet : option VideoSnippet;
}.
Record ApiError : Type := { ae_message : option string }.
Record VideoJson : Type := {
  vj_items : option (list VideoItem);
  vj_error : option ApiError;
}.

(** What [fetch] resolves to: [res.ok] and the outcome of
    [await res.json()]. *)
Record Response (T : Type) : Type := {
  ok : bool;
  json_body : result T;
}.
Arguments ok {T} _.
Arguments json_body {T} _.

(** One segment of a transcript; only [text] is read. *)
Record TranscriptSegment : Type := { text : string }.

(** The part of an OpenAI response the handler reads. *)
Record OpenAIResponse : Type := { output_text : option string }.

(** The answers of the network.  [fetch] is split by the type its body
    is cast to; each takes the request URL. *)
Record World : Type := {
  fetch_channel_search : string -> result (Response ChannelSearchJson);
  fetch_username : string -> result (Response UsernameJson);
  fetch_channel : string -> result (Response ChannelJson);
  fetch_videos : string -> result (Response VideoJson);
  (** [YoutubeTranscript.fetchTranscript(videoId, { lang })] *)
  fetchTranscript : string -> string -> result (option (list TranscriptSegment));
  (** [new OpenAI({ apiKey }).responses.create({ model, input })] with
      the system and the user message of [input]. *)
  responses_create : string -> string -> string -> string -> result OpenAIResponse;
}.

(** ** The monad of the handler: a log of network calls and a completion *)

Inductive Call : Type :=
| Fetch (url : string)
| FetchTranscript (videoId lang : string)
| ResponsesCreate (apiKey model system user : string).

Definition M (A : Type) : Type := (list Call * result A)%type.

Definition ret {A : Type} (a : A) : M A := ([], Return a).

Definition throw {A : Type} (e : exn) : M A := ([], Throw e).

Definition bind {A B : Type} (m : M A) (k : A -> M B) : M B :=
  match m with
  | (log, Return a) => let '(log', r) := k a in (log ++ log', r)
  | (log, Throw e) => (log, Throw e)
  end.

(** [try { m } catch (e) { handler e }] *)
Definition try_catch {A : Type} (m : M A) (handler : exn -> M A) : M A :=
  match m with
  | (log, Return a) => (log, Return a)
  | (log, Throw e) => let '(log', r) := handler e in (log ++ log', r)
  end.

(** Issue the call [c], which completes as [r]. *)
Definition call {A : Type} (c : Call) (r : result A) : M A := ([c], r).

(** A completion that involves no call. *)
Definition lift {A : Type} (r : result A) : M A := ([], r).

Notation "'let*' x ':=' m 'in' k" := (bind m (fun x => k))
  (at level 10, x name, m at level 100, k at level 200).

(** [Promise.all(promises)] over promises started in list order: every
    call is issued; the result is the list of values, or the rejection
    of the first promise of the list that rejects. *)
Fixpoint Promise_all {A : Type} (promises : list (M A)) : M (list A) :=
  match promises with
  | [] => ret []
  | p :: ps =>
      let '(log, r) := p in
      let '(log', rs) := Promise_all ps in
      (log ++ log',
       match r, rs with
       | Return a, Return l => Return (a :: l)
       | Throw e, _ => Throw e
       | Return _, Throw e => Throw e
       end)
  end.

Definition log_of {A : Type} (m : M A) : list Call := fst m.
Definition outcome {A : Type} (m : M A) : result A := snd m.

(** ** Data of the handler *)

Record Video : Type := {
  videoId : string;
  title : string;
  publishedAt : string;
}.

Record ChannelDetails : Type := {
  cd_channelId : string;
  channelTitle : string;
  videos : list Video;
}.

Record TranscriptSample : Type := {
  ts_videoId : string;
  ts_title : string;
  transcriptForModel : string;
  snippetExcerpt : string;
}.

(** [parsed.data] of a successful [requestSchema.safeParse]. *)
Record RequestData : Type := {
  channelUrl : string;
  topic : string;
  youtubeApiKey : string;
  openAiKey : string;
  videoCount : Z;
}.

(** The inbound request: the outcome of [await request.json()]. *)
Record Request : Type := { request_json : result json }.

Record StyleSummary : Type := {
  voiceTone : option json;
  narrativeStructure : option json;
  recurringDevices : option json;
  pacing : option json;
  audienceEngagement : option json;
}.

Record SampledTranscript : Type := {
  st_videoId : string;
  st_title : string;
  excerpt : string;
}.

Record AnalysisResult : Type := {
  ar_channelTitle : string;
  styleSummary : StyleSummary;
  writingGuidelines : list json;
  generatedScript : string;
  sampledTranscripts : list SampledTranscript;
}.

Inductive ResponseBody : Type :=
| ErrorBody (error : string)
| ResultBody (payload : AnalysisResult).

Record NextResponse : Type := {
  body : ResponseBody;
  status : Z;
}.

(** [NextResponse.json(body, { status })]; the status defaults to 200. *)
Definition NextResponse_json (b : ResponseBody) (init : option Z) : NextResponse :=
  {| body := b; status := default 200 init |}.

Definition YOUTUBE_API_BASE : string := "https://www.googleapis.com/youtube/v3".

Definition LF : string := String (ascii_of_nat 10) EmptyString.
Definition DQUOTE : string := String (ascii_of_nat 34) EmptyString.

(** The decimal numeral of an integer, as a template literal prints it. *)
Definition Number_toString (n : Z) : string :=
  NilZero.string_of_int (Z.to_int n).

(** Optional chaining: [x ?> f] is [x?.f], [undefined] when [x] is
    [null] or [undefined]. *)
Definition opt_chain {A B : Type} (x : option A) (f : A -> option B) : option B :=
  match x with
  | Some a => f a
  | None => None
  end.

Notation "x ?> f" := (opt_chain x f) (at level 50, left associativity).

(** [array.filter(Boolean)] under a type guard, after a [map] that may
    answer [null]: the values that are there, in order. *)
Fixpoint filter_map {A B : Type} (f : A -> option B) (l : list A) : list B :=
  match l with
  | [] => []
  | x :: l' =>
      match f x with
      | Some y => y :: filter_map f l'
      | None => filter_map f l'
      end
  end.

(** ** The request schema *)

(** [z.string().min(n)] on the property read from the body. *)
Definition z_string_min (n : nat) (v : option json) : option string :=
  match v with
  | Some (JStr s) => if (n <=? String.length s)%nat then Some s else None
  | _ => None
  end.

(** [z.number().int().min(lo).max(hi)] *)
Definition z_number_int_min_max (lo hi : Z) (v : option json) : option Z :=
  match v with
  | Some (JNum q) =>
      let n := Qnum q / Z.pos (Qden q) in
      if (Qnum q mod Z.pos (Qden q) =? 0) && (lo <=? n) && (n <=? hi)
      then Some n else None
  | _ => None
  end.

(** [requestSchema.safeParse(body)]: [Some data] when [success] holds. *)
Definition requestSchema_safeParse (body : json) : option RequestData :=
  match body with
  | JObj o =>
      match z_string_min 1 (o !! "channelUrl"),
            z_string_min 4 (o !! "topic"),
            z_string_min 10 (o !! "youtubeApiKey"),
            z_string_min 10 (o !! "openAiKey"),
            z_number_int_min_max 1 8 (o !! "videoCount") with
      | Some u, Some t, Some yk, Some ok_, Some n =>
          Some {| channelUrl := u; topic := t; youtubeApiKey := yk;
                  openAiKey := ok_; videoCount := n |}
      | _, _, _, _, _ => None
      end
  | _ => None
  end.

(** ** The handler and its helpers *)

Section Pipeline.

Variable rt : Runtime.
Variable w : World.

(** [parsed.pathname.split("/").map(s => s.trim()).filter(Boolean)] *)
Definition path_segments (parsed : URL) : list string :=
  List.filter JsString.Boolean
    (List.map JsString.trim (JsString.split "/" (pathname parsed))).

(** [cond && value]: the string [value] when [cond] holds and [value]
    is a non-empty string, as in [segments[0] === "channel" &&
    segments[1]]. *)
Definition and_truthy (cond : bool) (value : option string) : option string :=
  if cond
  then match value with
       | Some v => if JsString.Boolean v then Some v else None
       | None => None
       end
  else None.

Definition extractChannelIdentifier (url : string) : option ChannelIdentifier :=
  match new_URL rt url with
  | None => None
  | Some parsed =>
      let segments := path_segments parsed in
      match segments with
      | [] => None
      | seg0 :: _ =>
          if String.eqb seg0 "@" then Some (Handle seg0)
          else if JsString.startsWith seg0 "@" then Some (Handle seg0)
          else
            match and_truthy (String.eqb seg0 "channel") (segments !! 1%nat) with
            | Some seg1 => Some (Id seg1)
            | None =>
                match and_truthy (String.eqb seg0 "c" || String.eqb seg0 "user")
                                 (segments !! 1%nat) with
                | Some seg1 => Some (Custom seg1)
                | None =>
                    if JsString.startsWith (pathname parsed) "/@"
                    then Some (Handle (JsString.slice_from (pathname parsed) 1))
                    else None
                end
            end
      end
  end.

(** The URL of the channel search by text. *)
Definition search_url (query apiKey : string) : string :=
  YOUTUBE_API_BASE ++ "/search?part=snippet&type=channel&maxResults=1&q="
    ++ encodeURIComponent rt query ++ "&key=" ++ apiKey.

(** The URL of the legacy lookup by username. *)
Definition username_url (value apiKey : string) : string :=
  YOUTUBE_API_BASE ++ "/channels?part=id&forUsername="
    ++ encodeURIComponent rt value ++ "&key=" ++ apiKey.

(** [searchJson.items?.[0]?.id?.channelId ?? null] *)
Definition first_channelId (searchJson : ChannelSearchJson) : option string :=
  cs_items searchJson ?> head ?> csi_id ?> channelId.

Definition identifyChannelId (identifier : option ChannelIdentifier)
    (apiKey : string) : M (option string) :=
  match identifier with
  | None => ret None
  | Some (Id value) => ret (Some value)
  | Some (Handle value) =>
      let query :=
        if JsString.startsWith value "@"
        then JsString.slice_from value 1 else value in
      let* searchRes :=
        call (Fetch (search_url query apiKey))
             (fetch_channel_search w (search_url query apiKey)) in
      if negb (ok searchRes)
      then throw (Error "Unable to resolve channel handle.")
      else
        let* searchJson := lift (json_body searchRes) in
        ret (first_channelId searchJson)
  | Some (Custom value) =>
      let* usernameRes :=
        call (Fetch (username_url value apiKey))
             (fetch_username w (username_url value apiKey)) in
      if negb (ok usernameRes)
      then throw (Error "Unable to resolve custom channel URL.")
      else
        let* usernameJson := lift (json_body usernameRes) in
        match un_items usernameJson with
        | Some (item :: _) => ret (ui_id item)
        | _ =>
            let* searchRes :=
              call (Fetch (search_url value apiKey))
                   (fetch_channel_search w (search_url value apiKey)) in
            if negb (ok searchRes)
            then throw (Error "Unable to resolve custom channel URL.")
            else
              let* searchJson := lift (json_body searchRes) in
              ret (first_channelId searchJson)
        end
  end.

Definition channel_url (channelId apiKey : string) : string :=
  YOUTUBE_API_BASE ++ "/channels?part=snippet&id=" ++ channelId
    ++ "&key=" ++ apiKey.

Definition videos_url (channelId apiKey : string) (videoCount : Z) : string :=
  YOUTUBE_API_BASE ++ "/search?part=snippet&channelId=" ++ channelId
    ++ "&order=date&type=video&maxResults="
    ++ Number_toString (Z.min videoCount 8) ++ "&key=" ++ apiKey.

(** The object built by the [map] of [resolveChannelDetails] followed
    by its [filter]: dropped when [videoId] is missing or empty. *)
Definition video_of_item (item : VideoItem) : option Video :=
  match vi_id item ?> vi_videoId with
  | Some v =>
      if JsString.Boolean v
      then Some {| videoId := v;
                   title := default "Untitled video" (vi_snippet item ?> vs_title);
                   publishedAt := default EmptyString
                                    (vi_snippet item ?> vs_publishedAt) |}
      else None
  | None => None
  end.

Definition resolveChannelDetails (identifier : option ChannelIdentifier)
    (apiKey : string) (videoCount : Z) : M (option ChannelDetails) :=
  let* channelId := identifyChannelId identifier apiKey in
  match channelId with
  | None => ret None
  | Some channelId =>
      if negb (JsString.Boolean channelId) then ret None
      else
        let* channelRes :=
          call (Fetch (channel_url channelId apiKey))
               (fetch_channel w (channel_url channelId apiKey)) in
        if negb (ok channelRes)
        then throw (Error "Failed to fetch channel metadata.")
        else
          let* channelJson := lift (json_body channelRes) in
          let channelTitle :=
            default "Channel"
              (ch_items channelJson ?> head ?> ci_snippet ?> cs_title) in
          let* videoRes :=
            call (Fetch (videos_url channelId apiKey videoCount))
                 (fetch_videos w (videos_url channelId apiKey videoCount)) in
          if negb (ok videoRes)
          then throw (Error "Failed to fetch recent videos. Check your API key quota.")
          else
            let* videoJson := lift (json_body videoRes) in
            match and_truthy true (vj_error videoJson ?> ae_message) with
            | Some message => throw (Error message)
            | None =>
                let videos :=
                  match vj_items videoJson with
                  | Some items => filter_map video_of_item items
                  | None => []
                  end in
                ret (Some {| cd_channelId := channelId;
                             channelTitle := channelTitle;
                             videos := videos |})
            end
  end.

(** [transcript.map(s => s.text).join(" ").replace(/\s+/g, " ").trim()] *)
Definition combine_segments (transcript : list TranscriptSegment) : string :=
  JsString.trim
    (JsString.replace_ws_runs false
       (JsString.join " " (List.map text transcript))).

(** The callback mapped over the videos by [fetchTranscripts]. *)
Definition transcript_chunk (video : Video) : M (option TranscriptSample) :=
  try_catch
    (let* transcript :=
       call (FetchTranscript (videoId video) "en")
            (fetchTranscript w (videoId video) "en") in
     match transcript with
     | None | Some [] => ret None
     | Some segments =>
         let combined := combine_segments segments in
         if negb (JsString.Boolean combined) then ret None
         else
           let limitedForModel := JsString.slice combined 0 3000 in
           let excerpt := JsString.slice combined 0 320 in
           ret (Some {| ts_videoId := videoId video;
                        ts_title := title video;
                        transcriptForModel := limitedForModel;
                        snippetExcerpt := excerpt |})
     end)
    (fun _ => ret None).

Definition fetchTranscripts (videos : list Video) : M (list TranscriptSample) :=
  let* chunks := Promise_all (List.map transcript_chunk videos) in
  ret (filter_map id chunks).

Definition parseJsonObject (text : string) : result json :=
  let start := JsString.indexOf text "{" in
  let end_ := JsString.lastIndexOf text "}" in
  if (start =? -1) || (end_ =? -1) || (end_ <=? start)
  then Throw (Error "Model response missing JSON object.")
  else
    let slice := JsString.slice text start (end_ + 1) in
    match JSON_parse rt slice with
    | Some value => Return value
    | None => Throw (Error "Model response was not valid JSON.")
    end.

(** [value[key]] for one of the keys the handler reads, none of which
    is a property of a primitive or of an array. *)
Definition property (value : json) (key : string) : option json :=
  match value with
  | JObj o => o !! key
  | _ => None
  end.

(** The first property read of a value: reading a property of [null]
    throws a [TypeError]. *)
Definition get_property (value : json) (key : string) : result (option json) :=
  match value with
  | JNull =>
      Throw (Error ("Cannot read properties of null (reading '" ++ key ++ "')")%string)
  | _ => Return (property value key)
  end.

(** [list.join(sep)]: [null] prints as the empty string. *)
Definition Array_join (sep : string) (elements : list json) : string :=
  JsString.join sep
    (List.map (fun v => match v with
                        | JNull => EmptyString
                        | _ => ToString rt (Some v)
                        end) elements).

Definition style_system_prompt : string :=
  "You are a narrative analyst who reverse-engineers the writing style of YouTube storytellers. You only speak JSON when instructed.".

Definition style_user_prompt (channelTitle transcriptDigest : string) : string :=
  "Study these transcript excerpts from the YouTube channel " ++ DQUOTE
    ++ channelTitle ++ DQUOTE
    ++ ". Summarize the writing style as JSON using the keys: voiceTone (string), narrativeStructure (string), recurringDevices (string), pacing (string), audienceEngagement (string), writingGuidelines (array of 6 concise bullet strings). Keep each string under 80 words. Transcripts:"
    ++ LF ++ LF ++ transcriptDigest.

Definition script_system_prompt : string :=
  "You are a senior scriptwriter hired to mimic the target channel's storytelling voice exactly.".

Definition script_user_prompt (channelTitle topic : string) (parsedStyle : json)
    (guidelineList : list json) : string :=
  "Channel: " ++ channelTitle ++ LF
    ++ "Topic: " ++ topic ++ LF
    ++ "Voice Tone: " ++ ToString rt (property parsedStyle "voiceTone") ++ LF
    ++ "Narrative Structure: "
    ++ ToString rt (property parsedStyle "narrativeStructure") ++ LF
    ++ "Recurring Devices: "
    ++ ToString rt (property parsedStyle "recurringDevices") ++ LF
    ++ "Pacing: " ++ ToString rt (property parsedStyle "pacing") ++ LF
    ++ "Audience Engagement: "
    ++ ToString rt (property parsedStyle "audienceEngagement") ++ LF
    ++ "Guidelines: " ++ Array_join "; " guidelineList ++ LF ++ LF
    ++ "Write a 5-7 paragraph YouTube script that follows this structure:" ++ LF
    ++ "1. Hook (1 short paragraph)" ++ LF
    ++ "2. Narrative build with vivid storytelling and data callouts (3-4 paragraphs)" ++ LF
    ++ "3. Engaging takeaway and CTA (1-2 paragraphs)." ++ LF
    ++ "Keep total word count under 600." ++ LF
    ++ "Return plain text with blank lines between paragraphs.".

(** The [transcriptDigest] of the handler. *)
Definition transcript_digest (transcripts : list TranscriptSample) : string :=
  JsString.join (LF ++ LF)%string
    (List.map (fun entry =>
                 ("### " ++ ts_title entry ++ " (" ++ ts_videoId entry ++ ")"
                    ++ LF ++ transcriptForModel entry)%string)
              transcripts).

(** [error instanceof Error ? error.message : "Unexpected server error."] *)
Definition error_message (error : exn) : string :=
  match error with
  | Error message => message
  | Thrown => "Unexpected server error."
  end.

(** The [catch] block of the handler. *)
Definition error_response (error : exn) : NextResponse :=
  let message := error_message error in
  let status :=
    if JsString.includes message "quota" then 429
    else if JsString.includes message "API key" then 401
    else 500 in
  NextResponse_json
    (ErrorBody (if status =? 500 then "Failed to build script style." else message))
    (Some status).

(** The body of the [try] block once the channel and a non-empty list
    of transcripts are known: the two model calls and the payload. *)
Definition synthesize (data : RequestData) (channelTitle : string)
    (transcripts : list TranscriptSample) : M NextResponse :=
  let transcriptDigest := transcript_digest transcripts in
  let* styleAnalysis :=
    call (ResponsesCreate (openAiKey data) "gpt-4o-mini" style_system_prompt
            (style_user_prompt channelTitle transcriptDigest))
         (responses_create w (openAiKey data) "gpt-4o-mini" style_system_prompt
            (style_user_prompt channelTitle transcriptDigest)) in
  match and_truthy true (output_text styleAnalysis) with
  | None => throw (Error "Failed to read analysis output.")
  | Some stylePayloadText =>
      let* parsedStyle := lift (parseJsonObject stylePayloadText) in
      let* guidelines := lift (get_property parsedStyle "writingGuidelines") in
      match guidelines with
      | Some (JArr guidelines) =>
          let guidelineList := take 6 guidelines in
          let* scriptResponse :=
            call (ResponsesCreate (openAiKey data) "gpt-4o-mini" script_system_prompt
                    (script_user_prompt channelTitle (topic data) parsedStyle
                       guidelineList))
                 (responses_create w (openAiKey data) "gpt-4o-mini"
                    script_system_prompt
                    (script_user_prompt channelTitle (topic data) parsedStyle
                       guidelineList)) in
          match and_truthy true
                  (option_map JsString.trim (output_text scriptResponse)) with
          | None => throw (Error "Script generation failed.")
          | Some scriptText =>
              ret (NextResponse_json
                     (ResultBody
                        {| ar_channelTitle := channelTitle;
                           styleSummary :=
                             {| voiceTone := property parsedStyle "voiceTone";
                                narrativeStructure :=
                                  property parsedStyle "narrativeStructure";
                                recurringDevices :=
                                  property parsedStyle "recurringDevices";
                                pacing := property parsedStyle "pacing";
                                audienceEngagement :=
                                  property parsedStyle "audienceEngagement" |};
                           writingGuidelines := guidelineList;
                           generatedScript := scriptText;
                           sampledTranscripts :=
                             List.map (fun entry =>
                                         {| st_videoId := ts_videoId entry;
                                            st_title := ts_title entry;
                                            excerpt := snippetExcerpt entry |})
                                      transcripts |})
                     None)
          end
      | _ => throw (Error "Style payload missing writing guidelines.")
      end
  end.

(** The [try] block of the handler. *)
Definition pipeline (data : RequestData) (identifier : ChannelIdentifier)
    : M NextResponse :=
  let* channelMeta :=
    resolveChannelDetails (Some identifier) (youtubeApiKey data)
      (videoCount data) in
  match channelMeta with
  | None =>
      ret (NextResponse_json
             (ErrorBody "Unable to find the provided channel.") (Some 404))
  | Some meta =>
      let* transcripts := fetchTranscripts (videos meta) in
      match transcripts with
      | [] =>
          ret (NextResponse_json
                 (ErrorBody "Transcripts are unavailable for the recent uploads. Try a different channel.")
                 (Some 422))
      | _ :: _ => synthesize data (channelTitle meta) transcripts
      end
  end.

Definition POST (request : Request) : M NextResponse :=
  match request_json request with
  | Throw _ =>
      ret (NextResponse_json (ErrorBody "Invalid JSON payload.") (Some 400))
  | Return body =>
      match requestSchema_safeParse body with
      | None =>
          ret (NextResponse_json
                 (ErrorBody "Please fill in every field with valid values.")
                 (Some 400))
      | Some data =>
          match extractChannelIdentifier (channelUrl data) with
          | None =>
              ret (NextResponse_json
                     (ErrorBody "Unsupported YouTube channel link. Try a different URL.")
                     (Some 400))
          | Some identifier =>
              try_catch (pipeline data identifier)
                        (fun error => ret (error_response error))
          end
      end
  end.

End Pipeline.

(** ** Specification-side definitions

    The definitions of this part follow the words of the specification;
    the theorems below compare them with the handler. *)

(** The classification rules of the Identifier Extractor, in the order
    of the specification: every rule carries the failure of the rules
    before it.  The first argument is the outcome of parsing the URL. *)
Inductive classifies : option URL -> option ChannelIdentifier -> Prop :=
| classifies_unparseable :
    classifies None None
| classifies_no_segment parsed :
    path_segments parsed = [] ->
    classifies (Some parsed) None
| classifies_handle parsed seg0 rest :
    path_segments parsed = seg0 :: rest ->
    seg0 = "@" \/ JsString.startsWith seg0 "@" = true ->
    classifies (Some parsed) (Some (Handle seg0))
| classifies_id parsed seg1 rest :
    path_segments parsed = "channel" :: seg1 :: rest ->
    classifies (Some parsed) (Some (Id seg1))
| classifies_custom parsed seg0 seg1 rest :
    path_segments parsed = seg0 :: seg1 :: rest ->
    seg0 = "c" \/ seg0 = "user" ->
    classifies (Some parsed) (Some (Custom seg1))
| classifies_slash_at parsed seg0 rest :
    path_segments parsed = seg0 :: rest ->
    JsString.startsWith seg0 "@" = false ->
    ~ (seg0 = "channel" /\ rest <> []) ->
    ~ ((seg0 = "c" \/ seg0 = "user") /\ rest <> []) ->
    JsString.startsWith (pathname parsed) "/@" = true ->
    classifies (Some parsed)
      (Some (Handle (JsString.slice_from (pathname parsed) 1)))
| classifies_nothing parsed seg0 rest :
    path_segments parsed = seg0 :: rest ->
    JsString.startsWith seg0 "@" = false ->
    ~ (seg0 = "channel" /\ rest <> []) ->
    ~ ((seg0 = "c" \/ seg0 = "user") /\ rest <> []) ->
    JsString.startsWith (pathname parsed) "/@" = false ->
    classifies (Some parsed) None.

(** The words of a text: its maximal runs of code units that are not
    white space. *)
Fixpoint words (s : string) : list string :=
  match s with
  | EmptyString => []
  | String c s' =>
      if JsString.is_ws c then words s'
      else
        match s' with
        | EmptyString => [String c EmptyString]
        | String c' _ =>
            if JsString.is_ws c' then String c EmptyString :: words s'
            else
              match words s' with
              | word :: more => String c word :: more
              | [] => [String c EmptyString]
              end
        end
  end.

(** A text without white space. *)
Fixpoint no_ws (s : string) : Prop :=
  match s with
  | EmptyString => True
  | String c s' => JsString.is_ws c = false /\ no_ws s'
  end.

(** No white space at either end, and inside only single spaces. *)
Fixpoint single_spaced_from (previous_ws : bool) (s : string) : Prop :=
  match s with
  | EmptyString => previous_ws = false
  | String c s' =>
      (JsString.is_ws c = true -> c = " "%char /\ previous_ws = false)
      /\ single_spaced_from (JsString.is_ws c) s'
  end.

Definition single_spaced (s : string) : Prop :=
  match s with
  | EmptyString => True
  | String c _ => JsString.is_ws c = false /\ single_spaced_from false s
  end.

(** A video that yields no sample, in the words of the specification:
    its transcript fetch fails, returns no segments, or normalizes to
    the empty string. *)
Definition contributes_nothing (w : World) (video : Video) : bool :=
  match fetchTranscript w (videoId video) "en" with
  | Throw _ => true
  | Return None => true
  | Return (Some []) => true
  | Return (Some segments) =>
      String.eqb (JsString.join " " (words (JsString.join " " (List.map text segments))))
                 EmptyString
  end.

(** The calls to the search endpoint of the YouTube Data API. *)
Definition is_search_call (c : Call) : bool :=
  match c with
  | Fetch url => JsString.startsWith url (YOUTUBE_API_BASE ++ "/search?")
  | _ => false
  end.

Definition is_transcript_call (c : Call) : bool :=
  match c with
  | FetchTranscript _ _ => true
  | _ => false
  end.

(** The code unit at index [i]. *)
Definition charAt (s : string) (i : Z) : option ascii :=
  if i <? 0 then None else String.get (Z.to_nat i) s.

(** [i] is the index of the first (last) code unit [a] of [s]; [a] does
    not occur in [s]. *)
Definition first_index_of (a : ascii) (s : string) (i : Z) : Prop :=
  charAt s i = Some a /\ forall j, j < i -> charAt s j <> Some a.

Definition last_index_of (a : ascii) (s : string) (i : Z) : Prop :=
  charAt s i = Some a /\ forall j, i < j -> charAt s j <> Some a.

Definition absent (a : ascii) (s : string) : Prop :=
  forall j, charAt s j <> Some a.

(** A path segment as a URL writes it: not empty, without white space
    and without slash. *)
Definition plain_segment (s : string) : Prop :=
  s <> EmptyString /\ no_ws s /\ absent "/" s.


(** The responses of the handler. *)
Definition response (status : Z) (error : string) : NextResponse :=
  {| body := ErrorBody error; status := status |}.

(** The normalized text of a video: the words of its transcript
    segments, one space between two of them. *)
Definition normalized_transcript (w : World) (video : Video) : string :=
  match fetchTranscript w (videoId video) "en" with
  | Return (Some segments) =>
      JsString.join " " (words (JsString.join " " (List.map text segments)))
  | _ => EmptyString
  end.

(** The request reaches the [try] block of the handler, which throws
    [error]. *)
Definition pipeline_fails (rt : Runtime) (w : World) (request : Request)
    (error : exn) : Prop :=
  exists body data identifier,
    request_json request = Return body
    /\ requestSchema_safeParse body = Some data
    /\ extractChannelIdentifier rt (channelUrl data) = Some identifier
    /\ outcome (pipeline rt w data identifier) = Throw error.

(** Every step of the handler before the script call succeeded: the
    request was accepted, the channel resolved to [meta], the samples
    [transcripts] are not empty, the style call answered a text whose
    object [parsedStyle] has the array [guidelines], and the script call
    answered [scriptResponse]. *)
Definition upstream_succeeded (rt : Runtime) (w : World) (request : Request)
    (data : RequestData) (meta : ChannelDetails)
    (transcripts : list TranscriptSample) (parsedStyle : json)
    (guidelines : list json) (scriptResponse : OpenAIResponse) : Prop :=
  exists body identifier styleText,
    request_json request = Return body
    /\ requestSchema_safeParse body = Some data
    /\ extractChannelIdentifier rt (channelUrl data) = Some identifier
    /\ outcome (resolveChannelDetails rt w (Some identifier) (youtubeApiKey data)
                  (videoCount data)) = Return (Some meta)
    /\ outcome (fetchTranscripts w (videos meta)) = Return transcripts
    /\ transcripts <> []
    /\ responses_create w (openAiKey data) "gpt-4o-mini" style_system_prompt
         (style_user_prompt (channelTitle meta) (transcript_digest transcripts))
         = Return {| output_text := Some styleText |}
    /\ styleText <> EmptyString
    /\ parseJsonObject rt styleText = Return parsedStyle
    /\ property parsedStyle "writingGuidelines" = Some (JArr guidelines)
    /\ responses_create w (openAiKey data) "gpt-4o-mini" script_system_prompt
         (script_user_prompt rt (channelTitle meta) (topic data) parsedStyle
            (take 6 guidelines))
         = Return scriptResponse.

(** The payload of a successful answer. *)
Definition payload_of (meta : ChannelDetails) (transcripts : list TranscriptSample)
    (parsedStyle : json) (guidelines : list json) (scriptText : string)
    : AnalysisResult :=
  {| ar_channelTitle := channelTitle meta;
     styleSummary :=
       {| voiceTone := property parsedStyle "voiceTone";
          narrativeStructure := property parsedStyle "narrativeStructure";
          recurringDevices := property parsedStyle "recurringDevices";
          pacing := property parsedStyle "pacing";
          audienceEngagement := property parsedStyle "audienceEngagement" |};
     writingGuidelines := take 6 guidelines;
     generatedScript := JsString.trim scriptText;
     sampledTranscripts :=
       List.map (fun entry =>
                   {| st_videoId := ts_videoId entry;
                      st_title := ts_title entry;
                      excerpt := snippetExcerpt entry |})
                transcripts |}.

(** ** The page that calls the endpoint

    The client component of the repository: its submit handler and the
    way it lays the script out. *)

(** The fields of the form, as the state of the page holds them. *)
Record Form : Type := {
  form_channelUrl : string;
  form_topic : string;
  form_youtubeApiKey : string;
  form_openAiKey : string;
  form_videoCount : Q;
}.

(** The [error], [result] and [loading] states of the page.  [result]
    holds the payload as it arrived, [None] for [null]: the page stores
    the body of an ok answer without looking at it. *)
Record PageState : Type := {
  page_error : option string;
  page_result : option ResponseBody;
  page_loading : bool;
}.

Definition setError (error : option string) (state : PageState) : PageState :=
  {| page_error := error;
     page_result := page_result state;
     page_loading := page_loading state |}.

Definition setResult (payload : option ResponseBody) (state : PageState) : PageState :=
  {| page_error := page_error state;
     page_result := payload;
     page_loading := page_loading state |}.

Definition setLoading (loading : bool) (state : PageState) : PageState :=
  {| page_error := page_error state;
     page_result := page_result state;
     page_loading := loading |}.

(** What [fetch("/api/analyze", ...)] resolves to: [response.ok] and the
    outcome of [await response.json()], which is [None] when the body
    is the JSON value [null]. *)
Record FetchResponse : Type := {
  fr_ok : bool;
  fr_json : result (option ResponseBody);
}.

(** The value whose [JSON.stringify] is the body of the request. *)
Definition submitted_body (form : Form) : json :=
  JObj (<["channelUrl" := JStr (form_channelUrl form)]>
        (<["topic" := JStr (form_topic form)]>
         (<["youtubeApiKey" := JStr (form_youtubeApiKey form)]>
          (<["openAiKey" := JStr (form_openAiKey form)]>
           (<["videoCount" := JNum (form_videoCount form)]> ∅))))).

(** [payload?.error] *)
Definition error_of (payload : option ResponseBody) : option string :=
  match payload with
  | Some (ErrorBody error) => Some error
  | _ => None
  end.

(** The [try] block of [handleSubmit]: the state it leaves, or what it
    throws. *)
Definition submit_attempt (fetch : json -> result FetchResponse) (form : Form)
    (state : PageState) : result PageState :=
  match fetch (submitted_body form) with
  | Throw err => Throw err
  | Return response =>
      if negb (fr_ok response)
      then
        let payload :=
          match fr_json response with
          | Return payload => payload
          | Throw _ => None
          end in
        Throw (Error (default "Unable to analyze channel." (error_of payload)))
      else
        match fr_json response with
        | Return payload => Return (setResult payload state)
        | Throw err => Throw err
        end
  end.

Definition handleSubmit (fetch : json -> result FetchResponse) (form : Form)
    (state : PageState) : PageState :=
  let state := setError None state in
  let state := setResult None state in
  let state := setLoading true state in
  let state :=
    match submit_attempt fetch form state with
    | Return state' => state'
    | Throw err =>
        setError
          (Some match err with
                | Error message => message
                | Thrown => "Something went wrong. Try again."
                end)
          state
    end in
  setLoading false state.

(** [result.generatedScript.split("\n").filter(Boolean)]: the paragraphs
    the page renders. *)
Definition script_paragraphs (generatedScript : string) : list string :=
  List.filter JsString.Boolean
    (JsString.split (ascii_of_nat 10) generatedScript).

(** ** Further specification-side definitions *)

(** [identifier.value] *)
Definition value (identifier : ChannelIdentifier) : string :=
  match identifier with
  | Id value => value
  | Handle value => value
  | Custom value => value
  end.

Definition is_fetch_call (c : Call) : bool :=
  match c with
  | Fetch _ => true
  | _ => false
  end.

Definition is_model_call (c : Call) : bool :=
  match c with
  | ResponsesCreate _ _ _ _ => true
  | _ => false
  end.

(** The call that asks the model for the script. *)
Definition is_script_call (c : Call) : bool :=
  match c with
  | ResponsesCreate _ _ system _ => String.eqb system script_system_prompt
  | _ => false
  end.

(** [data] with another topic. *)
Definition with_topic (data : RequestData) (topic' : string) : RequestData :=
  {| channelUrl := channelUrl data;
     topic := topic';
     youtubeApiKey := youtubeApiKey data;
     openAiKey := openAiKey data;
     videoCount := videoCount data |}.

(** A URL of the YouTube Data API that carries [apiKey] as its last
    parameter. *)
Definition youtube_url (apiKey url : string) : Prop :=
  exists middle, url = (YOUTUBE_API_BASE ++ middle ++ "&key=" ++ apiKey)%string.

(** A call made on behalf of the request [data]: a YouTube URL with the
    YouTube key, an English transcript, or the model [gpt-4o-mini] with
    the OpenAI key. *)
Definition call_of_request (data : RequestData) (c : Call) : Prop :=
  match c with
  | Fetch url => youtube_url (youtubeApiKey data) url
  | FetchTranscript _ lang => lang = "en"
  | ResponsesCreate apiKey model _ _ =>
      apiKey = openAiKey data /\ model = "gpt-4o-mini"
  end.

(** A log of at most [n] fetches of YouTube URLs that carry [apiKey]. *)
Definition youtube_log (apiKey : string) (n : nat) (log : list Call) : Prop :=
  Forall (fun c => exists url, c = Fetch url /\ youtube_url apiKey url) log
  /\ (List.length log <= n)%nat.

(** A log of at most two calls of [gpt-4o-mini] with the OpenAI key of
    [data]. *)
Definition model_log (data : RequestData) (log : list Call) : Prop :=
  Forall (fun c => exists system user,
            c = ResponsesCreate (openAiKey data) "gpt-4o-mini" system user) log
  /\ (List.length log <= 2)%nat.

(** The request passes the schema as [data] and its URL gives
    [identifier]: the handler enters its [try] block. *)
Definition accepted (rt : Runtime) (request : Request) (data : RequestData)
    (identifier : ChannelIdentifier) : Prop :=
  exists body,
    request_json request = Return body
    /\ requestSchema_safeParse body = Some data
    /\ extractChannelIdentifier rt (channelUrl data) = Some identifier.

(** The channel of [identifier] resolves to [channelId] and its metadata
    call answers [channelJson]. *)
Definition channel_known (rt : Runtime) (w : World)
    (identifier : ChannelIdentifier) (apiKey channelId : string)
    (channelJson : ChannelJson) : Prop :=
  outcome (identifyChannelId rt w (Some identifier) apiKey) = Return (Some channelId)
  /\ channelId <> EmptyString
  /\ exists channelRes,
       fetch_channel w (channel_url channelId apiKey) = Return channelRes
       /\ ok channelRes = true
       /\ json_body channelRes = Return channelJson.

(** [s] without its code units [a]. *)
Fixpoint without (a : ascii) (s : string) : string :=
  match s with
  | EmptyString => EmptyString
  | String c s' => if Ascii.eqb c a then without a s' else String c (without a s')
  end.

(** The page talks to the handler: the body it sends is what
    [request.json()] returns, and what it receives is the answer of
    [POST], [ok] for a status from 200 to 299. *)
Definition reaches_endpoint (rt : Runtime) (w : World)
    (fetch : json -> result FetchResponse) : Prop :=
  forall sent answer,
    outcome (POST rt w {| request_json := Return sent |}) = Return answer ->
    fetch sent
    = Return {| fr_ok := (200 <=? status answer) && (status answer <=? 299);
                fr_json := Return (Some (body answer)) |}.

(** ** Concrete runtimes and worlds for the examples *)

Module Demo.

(** The answer stored for [key] in a table of answers. *)
Definition answer {A : Type} (table : list (string * A)) (key : string) : option A :=
  option_map snd (List.find (fun entry => String.eqb (fst entry) key) table).

(** What [new URL] answers on the URLs of the examples. *)
Definition urls : list (string * URL) :=
  [ ("https://www.youtube.com/@acme", {| pathname := "/@acme" |});
    ("https://www.youtube.com/@acme/videos", {| pathname := "/@acme/videos" |});
    ("https://www.youtube.com/channel/UC123", {| pathname := "/channel/UC123" |});
    ("https://www.youtube.com/c/acme", {| pathname := "/c/acme" |});
    ("https://www.youtube.com/user/acme", {| pathname := "/user/acme" |});
    ("https://www.youtube.com/watch", {| pathname := "/watch" |});
    ("https://www.youtube.com", {| pathname := "/" |}) ].

(** A JSON string literal. *)
Definition quoted (s : string) : string := DQUOTE ++ s ++ DQUOTE.

(** A model answer with one descriptor and seven guidelines. *)
Definition style_text : string :=
  "{" ++ quoted "voiceTone" ++ ": " ++ quoted "warm" ++ ", "
    ++ quoted "writingGuidelines" ++ ": ["
    ++ quoted "a" ++ ", " ++ quoted "b" ++ ", " ++ quoted "c" ++ ", "
    ++ quoted "d" ++ ", " ++ quoted "e" ++ ", " ++ quoted "f" ++ ", "
    ++ quoted "g" ++ "]}".

Definition style_value : json :=
  JObj (list_to_map
          [ ("voiceTone", JStr "warm");
            ("writingGuidelines",
              JArr [JStr "a"; JStr "b"; JStr "c"; JStr "d"; JStr "e"; JStr "f";
                    JStr "g"]) ]).

(** A model answer that wraps an object without descriptors in
    prose. *)
Definition bare_object : string := "{" ++ quoted "writingGuidelines" ++ ": []}".

Definition bare_text : string := "Here you go: " ++ bare_object ++ " Enjoy!".

Definition bare_value : json :=
  JObj (list_to_map [ ("writingGuidelines", JArr []) ]).

(** A model answer whose guidelines are not an array. *)
Definition scalar_text : string := "{" ++ quoted "writingGuidelines" ++ ": 6}".

Definition scalar_value : json :=
  JObj (list_to_map [ ("writingGuidelines", JNum (6 # 1)) ]).

(** What [JSON.parse] answers on the texts of the examples; it throws
    on every other text. *)
Definition texts : list (string * json) :=
  [ (style_text, style_value);
    (bare_object, bare_value);
    (scalar_text, scalar_value) ].

Definition rt : Runtime :=
  {| new_URL := answer urls;
     JSON_parse := answer texts;
     encodeURIComponent := fun s => s;
     ToString := fun v =>
                   match v with
                   | Some (JStr s) => s
                   | Some JNull => "null"
                   | None => "undefined"
                   | Some _ => "[object Object]"
                   end |}.

Definition fetch_failed {A : Type} : result A := Throw (Error "fetch failed").

Definition answers {T : Type} (value : T) : result (Response T) :=
  Return {| ok := true; json_body := Return value |}.

Definition refuses {T : Type} : result (Response T) :=
  Return {| ok := false; json_body := Throw (Error "Unexpected end of JSON input") |}.

Definition found_channel : ChannelSearchJson :=
  {| cs_items := Some [ {| csi_id := Some {| channelId := Some "UC123" |} |} ] |}.

Definition channel_body : ChannelJson :=
  {| ch_items := Some [ {| ci_snippet := Some {| cs_title := Some "Acme" |} |} ] |}.

Definition video_item (id : option string) (name : option string) : VideoItem :=
  {| vi_id := Some {| vi_videoId := id |};
     vi_snippet := Some {| vs_title := name; vs_publishedAt := Some "2024-01-01" |} |}.

(** Four items, one of them without video id. *)
Definition video_body : VideoJson :=
  {| vj_items := Some [ video_item (Some "v1") (Some "One");
                        video_item None (Some "Lost");
                        video_item (Some "v2") None;
                        video_item (Some "v3") (Some "Three") ];
     vj_error := None |}.

(** [v1] has a transcript, [v2] fails, [v3] is white space only. *)
Definition transcripts (videoId lang : string) : result (option (list TranscriptSegment)) :=
  if String.eqb videoId "v1"
  then Return (Some [ {| text := "  Hello " |}; {| text := "world" ++ LF ++ " again" |} ])
  else if String.eqb videoId "v2"
  then Throw (Error "Transcript is disabled on this video")
  else if String.eqb videoId "v3"
  then Return (Some [ {| text := "   " |}; {| text := LF |} ])
  else Return None.

(** A model that answers the style request with [style_answer] and the
    script request with [script_answer]. *)
Definition model (style_answer script_answer : string)
    (apiKey model system user : string) : result OpenAIResponse :=
  if String.eqb system style_system_prompt
  then Return {| output_text := Some style_answer |}
  else Return {| output_text := Some script_answer |}.

Definition world_of (search : result (Response ChannelSearchJson))
    (legacy : result (Response UsernameJson))
    (channel : result (Response ChannelJson))
    (recent : result (Response VideoJson))
    (create : string -> string -> string -> string -> result OpenAIResponse)
    : World :=
  {| fetch_channel_search := fun _ => search;
     fetch_username := fun _ => legacy;
     fetch_channel := fun _ => channel;
     fetch_videos := fun _ => recent;
     fetchTranscript := transcripts;
     responses_create := create |}.

(** Everything answers; the legacy lookup knows no such username. *)
Definition w : World :=
  world_of (answers found_channel) (answers {| un_items := Some [] |})
    (answers channel_body) (answers video_body)
    (model style_text "  Once upon a time.  ").

(** The model leaves the style descriptors out. *)
Definition w_bare : World :=
  world_of (answers found_channel) (answers {| un_items := Some [] |})
    (answers channel_body) (answers video_body)
    (model bare_text "Once upon a time.").

(** The model answers the script request with white space. *)
Definition w_blank_script : World :=
  world_of (answers found_channel) (answers {| un_items := Some [] |})
    (answers channel_body) (answers video_body)
    (model style_text "   ").

(** The model answers guidelines that are not an array. *)
Definition w_scalar : World :=
  world_of (answers found_channel) (answers {| un_items := Some [] |})
    (answers channel_body) (answers video_body)
    (model scalar_text "Once upon a time.").

(** The recent uploads have no usable transcript. *)
Definition w_silent : World :=
  world_of (answers found_channel) (answers {| un_items := Some [] |})
    (answers channel_body)
    (answers {| vj_items := Some [ video_item (Some "v2") None;
                                   video_item (Some "v3") (Some "Three") ];
                vj_error := None |})
    (model style_text "Once upon a time.").

(** The search finds no channel. *)
Definition w_unknown : World :=
  world_of (answers {| cs_items := Some [] |}) (answers {| un_items := Some [] |})
    (answers channel_body) (answers video_body)
    (model style_text "Once upon a time.").

(** The legacy lookup answers one item that has no id. *)
Definition w_item_without_id : World :=
  world_of (answers found_channel)
    (answers {| un_items := Some [ {| ui_id := None |} ] |})
    (answers channel_body) (answers video_body)
    (model style_text "Once upon a time.").

(** The legacy lookup answers one item with its id. *)
Definition w_legacy : World :=
  world_of fetch_failed
    (answers {| un_items := Some [ {| ui_id := Some "UC999" |} ] |})
    (answers channel_body) (answers video_body)
    (model style_text "Once upon a time.").

(** The legacy lookup is refused. *)
Definition w_legacy_refused : World :=
  world_of (answers found_channel) refuses
    (answers channel_body) (answers video_body)
    (model style_text "Once upon a time.").

(** The video search is refused. *)
Definition w_videos_refused : World :=
  world_of (answers found_channel) (answers {| un_items := Some [] |})
    (answers channel_body) refuses
    (model style_text "Once upon a time.").

(** The channel lookup is refused. *)
Definition w_channel_refused : World :=
  world_of (answers found_channel) (answers {| un_items := Some [] |})
    refuses (answers video_body)
    (model style_text "Once upon a time.").

(** The channel search is refused. *)
Definition w_search_refused : World :=
  world_of refuses (answers {| un_items := Some [] |})
    (answers channel_body) (answers video_body)
    (model style_text "Once upon a time.").

Definition body_of (url : string) (count : Z) : json :=
  JObj (list_to_map
          [ ("channelUrl", JStr url);
            ("topic", JStr "vintage sneakers economics");
            ("youtubeApiKey", JStr "AIza-0123456789");
            ("openAiKey", JStr "sk-0123456789");
            ("videoCount", JNum (inject_Z count)) ]).

Definition request_of (url : string) (count : Z) : Request :=
  {| request_json := Return (body_of url count) |}.

Definition data_of (url : string) (count : Z) : RequestData :=
  {| channelUrl := url;
     topic := "vintage sneakers economics";
     youtubeApiKey := "AIza-0123456789";
     openAiKey := "sk-0123456789";
     videoCount := count |}.

Definition video (id name : string) : Video :=
  {| videoId := id; title := name; publishedAt := "2024-01-01" |}.

(** The videos of [video_body] that have an id. *)
Definition videos : list Video :=
  [ video "v1" "One"; video "v2" "Untitled video"; video "v3" "Three" ].

Definition sample : TranscriptSample :=
  {| ts_videoId := "v1"; ts_title := "One";
     transcriptForModel := "Hello world again";
     snippetExcerpt := "Hello world again" |}.

Definition handle_url : string := "https://www.youtube.com/@acme".
Definition custom_url : string := "https://www.youtube.com/c/acme".
Definition apiKey : string := "AIza-0123456789".

End Demo.

(** ** More concrete worlds, for the further properties *)

Module DemoMore.

(** A runtime that knows two more URLs. *)
Definition urls : list (string * URL) :=
  [ ("https://www.youtube.com/c/acme/videos", {| pathname := "/c/acme/videos" |});
    ("https://youtu.be/c/acme/", {| pathname := "/c/acme/" |}) ].

Definition rt : Runtime :=
  {| new_URL := fun url =>
                  match Demo.answer urls url with
                  | Some parsed => Some parsed
                  | None => new_URL Demo.rt url
                  end;
     JSON_parse := JSON_parse Demo.rt;
     encodeURIComponent := encodeURIComponent Demo.rt;
     ToString := ToString Demo.rt |}.

(** The transcripts of [Demo.w] cut into other segments, and its silent
    videos silent in other ways: [v2] has no transcript, [v3] has no
    segment. *)
Definition transcripts (videoId lang : string) : result (option (list TranscriptSegment)) :=
  if String.eqb videoId "v1"
  then Return (Some [ {| text := "Hello" |}; {| text := EmptyString |};
                      {| text := "world again  " |} ])
  else if String.eqb videoId "v3"
  then Return (Some [])
  else Return None.

Definition w_resegmented : World :=
  {| fetch_channel_search := fetch_channel_search Demo.w;
     fetch_username := fetch_username Demo.w;
     fetch_channel := fetch_channel Demo.w;
     fetch_videos := fetch_videos Demo.w;
     fetchTranscript := transcripts;
     responses_create := responses_create Demo.w |}.

(** A [fetch] that is served by the handler in the world [Demo.w]. *)
Definition fetch (sent : json) : result FetchResponse :=
  match outcome (POST Demo.rt Demo.w {| request_json := Return sent |}) with
  | Return answer =>
      Return {| fr_ok := (200 <=? status answer) && (status answer <=? 299);
                fr_json := Return (Some (body answer)) |}
  | Throw e => Throw e
  end.

Definition form : Form :=
  {| form_channelUrl := Demo.handle_url;
     form_topic := "vintage sneakers economics";
     form_youtubeApiKey := "AIza-0123456789";
     form_openAiKey := "sk-0123456789";
     form_videoCount := inject_Z 3 |}.

(** A [fetch] that resolves to an ok answer whose body is [null]. *)
Definition fetch_null (sent : json) : result FetchResponse :=
  Return {| fr_ok := true; fr_json := Return None |}.

Definition idle : PageState :=
  {| page_error := None; page_result := None; page_loading := false |}.

(** What the handler answers in [Demo.w] to the request for the handle
    URL. *)
Definition answer : NextResponse :=
  Eval vm_compute in
    match outcome (POST Demo.rt Demo.w (Demo.request_of Demo.handle_url 3)) with
    | Return r => r
    | Throw _ => response 500 "Failed to build script style."
    end.

End DemoMore.

(** ** Facts about the string operations *)

Section StringFacts.

Import JsString.

Lemma substring_0_length (m : nat) (s : string) :
  String.length (substring 0 m s) = Nat.min m (String.length s).
Proof.
  revert m; induction s as [|c s IH]; intros [|m]; simpl; auto.
Qed.

Lemma substring_0_min (m : nat) (s : string) :
  substring 0 (Nat.min m (String.length s)) s = substring 0 m s.
Proof.
  revert m; induction s as [|c s IH]; intros [|m]; simpl; auto.
  by rewrite IH.
Qed.

Lemma substring_0_prefix (m n : nat) (s : string) :
  (m <= n)%nat -> String.prefix (substring 0 m s) (substring 0 n s) = true.
Proof.
  revert m n; induction s as [|c s IH]; intros [|m] [|n] Hle; simpl; auto; try lia.
  destruct (ascii_dec c c); [|done]. apply IH. lia.
Qed.

Lemma slice_0 (s : string) (n : Z) :
  0 <= n -> slice s 0 n = substring 0 (Z.to_nat n) s.
Proof.
  intros Hn. unfold slice.
  replace (0 <? 0) with false by done.
  destruct (n <? 0) eqn:Hlt; [lia|].
  rewrite Z.min_l by lia. rewrite Z.sub_0_r.
  rewrite <- (substring_0_min (Z.to_nat n)). f_equal. lia.
Qed.

Lemma slice_0_length (s : string) (n : Z) :
  0 <= n -> Z.of_nat (String.length (slice s 0 n)) <= n.
Proof.
  intros Hn. rewrite slice_0, substring_0_length by done. lia.
Qed.

Lemma slice_0_prefix (s : string) (m n : Z) :
  0 <= m <= n -> String.prefix (slice s 0 m) (slice s 0 n) = true.
Proof.
  intros Hmn. rewrite !slice_0 by lia. apply substring_0_prefix. lia.
Qed.

Lemma slice_0_all (s : string) (n : Z) :
  Z.of_nat (String.length s) <= n -> slice s 0 n = s.
Proof.
  intros Hn. rewrite slice_0 by lia.
  assert (H : forall m t, (String.length t <= m)%nat -> substring 0 m t = t).
  { intros m t; revert m; induction t as [|c t IH]; intros [|m] Hm;
      simpl in *; auto; try lia. f_equal. apply IH. lia. }
  apply H. lia.
Qed.

(** *** White space normalization *)

Lemma replace_ws_runs_true_no_leading_ws (s : string) :
  match replace_ws_runs true s with
  | EmptyString => True
  | String c _ => is_ws c = false
  end.
Proof.
  induction s as [|c s IH]; simpl; [done|].
  destruct (is_ws c) eqn:Hc; simpl; done.
Qed.

Lemma trimStart_replace_ws_runs (s : string) :
  trimStart (replace_ws_runs false s) = replace_ws_runs true s.
Proof.
  destruct s as [|c s]; simpl; [done|].
  destruct (is_ws c) eqn:Hc; simpl.
  - replace (is_ws " ") with true by done.
    pose proof (replace_ws_runs_true_no_leading_ws s) as H.
    destruct (replace_ws_runs true s) as [|d t]; simpl; [done|].
    by rewrite H.
  - by rewrite Hc.
Qed.

Lemma words_nonempty_head (c : ascii) (s : string) :
  is_ws c = false -> words (String c s) <> [].
Proof.
  intros Hc. simpl. rewrite Hc.
  destruct s as [|c' s']; [done|].
  destruct (is_ws c'); [done|].
  destruct (words (String c' s')); done.
Qed.

Lemma words_all_nonempty (s : string) :
  Forall (fun word => word <> EmptyString) (words s).
Proof.
  induction s as [|c s IH]; simpl; [constructor|].
  destruct (is_ws c); [done|].
  destruct s as [|c' s']; [by repeat constructor|].
  destruct (is_ws c'); [by constructor|].
  destruct (words (String c' s')) as [|w0 ws]; [by repeat constructor|].
  inversion IH; subst. by constructor.
Qed.

Lemma join_nonempty (word : string) (more : list string) :
  word <> EmptyString -> join " " (word :: more) <> EmptyString.
Proof.
  intros Hw. unfold join; simpl. destruct more; [done|].
  destruct word; done.
Qed.

Lemma join_cons_word (c : ascii) (word : string) (more : list string) :
  join " " (String c word :: more) = String c (join " " (word :: more)).
Proof. unfold join; simpl. destruct more; done. Qed.

Lemma join_words_nonempty (c : ascii) (s : string) :
  is_ws c = false -> join " " (words (String c s)) <> EmptyString.
Proof.
  intros Hc.
  pose proof (words_nonempty_head c s Hc) as Hne.
  pose proof (words_all_nonempty (String c s)) as Hall.
  destruct (words (String c s)) as [|w0 ws]; [done|].
  inversion Hall; subst. by apply join_nonempty.
Qed.

(** The two invariants of the normalization, by one induction:
    outside a run ([false]) a leading white space survives as one
    space unless nothing follows; inside a run ([true]) it is
    dropped. *)
Lemma trimEnd_replace_ws_runs (s : string) :
  trimEnd (replace_ws_runs true s) = join " " (words s)
  /\ trimEnd (replace_ws_runs false s) =
       match s with
       | EmptyString => EmptyString
       | String c _ =>
           if is_ws c
           then match words s with
                | [] => EmptyString
                | ws => String " " (join " " ws)
                end
           else join " " (words s)
       end.
Proof.
  induction s as [|c s [IHt IHf]]; [done|].
  assert (Hnonws : is_ws c = false ->
            trimEnd (String c (replace_ws_runs false s))
            = join " " (words (String c s))).
  { intros Hc. cbn [trimEnd words]. rewrite Hc, IHf.
    destruct s as [|c' s']; [done|].
    destruct (is_ws c') eqn:Hc'.
    - destruct (words (String c' s')) as [|w0 ws] eqn:Hw.
      + done.
      + unfold join; cbn [String.concat String.append]. done.
    - pose proof (join_words_nonempty c' s' Hc') as Hne.
      pose proof (words_nonempty_head c' s' Hc') as Hne'.
      destruct (words (String c' s')) as [|w0 ws] eqn:Hw; [done|].
      rewrite join_cons_word.
      destruct (join " " (w0 :: ws)) eqn:Hj; [done|]. done. }
  split.
  - cbn [replace_ws_runs]. destruct (is_ws c) eqn:Hc.
    + rewrite IHt. simpl. by rewrite Hc.
    + by apply Hnonws.
  - cbn [replace_ws_runs]. destruct (is_ws c) eqn:Hc.
    + cbn [trimEnd]. rewrite IHt.
      replace (is_ws " ") with true by done.
      cbn [words]. rewrite Hc.
      destruct (words s) as [|w0 ws] eqn:Hw; [done|].
      destruct (join " " (w0 :: ws)) eqn:Hj; [|done].
      exfalso. pose proof (words_all_nonempty s) as Hall.
      rewrite Hw in Hall. inversion Hall; subst.
      by eapply join_nonempty.
    + by apply Hnonws.
Qed.

(** [replace(/\s+/g, " ").trim()] leaves the words of the text, one
    space between two of them. *)
Lemma trim_replace_ws_runs (s : string) :
  trim (replace_ws_runs false s) = join " " (words s).
Proof.
  unfold trim. rewrite trimStart_replace_ws_runs.
  apply trimEnd_replace_ws_runs.
Qed.

Lemma words_no_ws (s : string) : Forall no_ws (words s).
Proof.
  induction s as [|c s IH]; simpl; [constructor|].
  destruct (is_ws c) eqn:Hc; [done|].
  destruct s as [|c' s']; [by repeat constructor|].
  destruct (is_ws c') eqn:Hc'; [by constructor|].
  destruct (words (String c' s')) as [|w0 ws]; [by repeat constructor|].
  inversion IH; subst. by constructor.
Qed.

Lemma words_nil_iff (s : string) :
  words s = [] <-> (forall i c, String.get i s = Some c -> is_ws c = true).
Proof.
  induction s as [|c s IH].
  - split; [intros _ i c Hget; by destruct i | done].
  - split.
    + intros Hw i d Hget.
      destruct (is_ws c) eqn:Hc.
      * simpl in Hw. rewrite Hc in Hw.
        destruct i as [|i]; simpl in Hget; [by simplify_eq|].
        by eapply IH.
      * by apply words_nonempty_head with (s := s) in Hc.
    + intros Hall. simpl.
      rewrite (Hall 0%nat c eq_refl).
      apply IH. intros i d Hget. by apply (Hall (S i)).
Qed.

Lemma join_words_empty_iff (s : string) :
  join " " (words s) = EmptyString <-> words s = [].
Proof.
  split; [|by intros ->].
  pose proof (words_all_nonempty s) as Hall.
  destruct (words s) as [|w0 ws]; [done|].
  inversion Hall; subst. intros Hj. by apply join_nonempty in Hj.
Qed.

Lemma append_empty_r (s : string) : (s ++ EmptyString)%string = s.
Proof.
  induction s as [|c s IH]; [done|].
  change (String c (s ++ EmptyString)%string = String c s). by rewrite IH.
Qed.

Lemma append_assoc (a b c : string) :
  ((a ++ b) ++ c)%string = (a ++ (b ++ c))%string.
Proof.
  induction a as [|x a IH]; [done|].
  change (String x ((a ++ b) ++ c)%string = String x (a ++ (b ++ c))%string).
  by rewrite IH.
Qed.

Lemma single_spaced_from_word (word : string) :
  no_ws word ->
  forall (b : bool) (tail : string),
    (word = EmptyString -> b = false) ->
    single_spaced_from false tail ->
    single_spaced_from b (word ++ tail).
Proof.
  induction word as [|c word IH]; intros Hno b tail Hb Htail.
  - change (single_spaced_from b tail). by rewrite Hb.
  - destruct Hno as [Hc Hno].
    change (single_spaced_from b (String c (word ++ tail)%string)).
    simpl. rewrite Hc. split; [done|].
    by apply IH.
Qed.

Lemma single_spaced_from_join (ws : list string) :
  Forall no_ws ws -> Forall (fun word => word <> EmptyString) ws ->
  ws <> [] -> forall b, single_spaced_from b (join " " ws).
Proof.
  induction ws as [|w0 ws IH]; [done|].
  intros Hno Hne _ b.
  inversion Hno; inversion Hne; subst.
  destruct ws as [|w1 ws].
  - unfold join; simpl. rewrite <- (append_empty_r w0).
    by apply single_spaced_from_word.
  - change (join " " (w0 :: w1 :: ws))
      with (w0 ++ String " " (join " " (w1 :: ws)))%string.
    apply single_spaced_from_word; [done..|].
    simpl. replace (is_ws " ") with true by done.
    split; [done|]. by apply IH.
Qed.

Lemma join_words_single_spaced (s : string) :
  single_spaced (join " " (words s)).
Proof.
  pose proof (words_no_ws s) as Hno.
  pose proof (words_all_nonempty s) as Hne.
  destruct (words s) as [|w0 ws] eqn:Hw; [done|].
  pose proof (single_spaced_from_join (w0 :: ws) Hno Hne) as Hss.
  inversion Hno as [|? ? Hw0 _]; inversion Hne; subst.
  destruct w0 as [|c w0]; [done|].
  rewrite join_cons_word in *. destruct Hw0 as [Hc _].
  split; [done|]. by apply Hss.
Qed.

(** *** Searching a code unit *)

Lemma prefix_char (a : ascii) (s : string) :
  String.prefix (String a EmptyString) s = true <-> String.get 0 s = Some a.
Proof.
  destruct s as [|c s]; simpl; [done|].
  destruct (ascii_dec a c) as [->|Hne]; [by destruct s|].
  split; [done|]. intros [= ->]. done.
Qed.

Lemma charAt_cons (c : ascii) (s : string) (j : Z) :
  0 <= j -> charAt (String c s) (j + 1) = charAt s j.
Proof.
  intros Hj. unfold charAt.
  destruct (j + 1 <? 0) eqn:H1; [lia|]. destruct (j <? 0) eqn:H2; [lia|].
  replace (Z.to_nat (j + 1)) with (S (Z.to_nat j)) by lia. done.
Qed.

Lemma charAt_0 (s : string) : charAt s 0 = String.get 0 s.
Proof. done. Qed.

Lemma charAt_range (s : string) (j : Z) (a : ascii) :
  charAt s j = Some a -> 0 <= j < Z.of_nat (String.length s).
Proof.
  unfold charAt. destruct (j <? 0) eqn:Hj; [done|].
  intros Hget. split; [lia|].
  assert (H : forall n t, String.get n t = Some a -> (n < String.length t)%nat).
  { intros n t; revert n; induction t as [|c t IH]; intros [|n] Hn;
      simpl in *; try done; try lia. apply IH in Hn. lia. }
  apply H in Hget. lia.
Qed.

Lemma indexOf_from_char (a : ascii) (s : string) (k : Z) :
  (indexOf_from s (String a EmptyString) k = -1 /\ absent a s)
  \/ (exists i, indexOf_from s (String a EmptyString) k = k + i
                /\ first_index_of a s i).
Proof.
  revert k; induction s as [|c s IH]; intros k.
  - left. split; [done|]. intros j. unfold charAt.
    destruct (j <? 0); [done|]. by destruct (Z.to_nat j).
  - cbn [indexOf_from].
    destruct (String.prefix (String a EmptyString) (String c s)) eqn:Hp.
    + right. exists 0. split; [lia|]. split.
      * rewrite charAt_0. by apply prefix_char.
      * intros j Hj. unfold charAt. by destruct (j <? 0) eqn:E; [|lia].
    + assert (Hc : String.get 0 (String c s) <> Some a).
      { intros Hget. apply prefix_char in Hget. congruence. }
      destruct (IH (k + 1)) as [[Hr Habs]|(i & Hr & Hget & Hmin)].
      * left. split; [done|]. intros j.
        destruct (Z.eq_dec j 0) as [->|Hj0]; [done|].
        destruct (Z.lt_ge_cases j 0) as [Hneg|Hpos].
        -- unfold charAt. by destruct (j <? 0) eqn:E; [|lia].
        -- replace j with ((j - 1) + 1) by lia.
           rewrite charAt_cons by lia. apply Habs.
      * pose proof (charAt_range _ _ _ Hget) as Hi.
        right. exists (i + 1). split; [lia|]. split.
        -- by rewrite charAt_cons by lia.
        -- intros j Hj.
           destruct (Z.eq_dec j 0) as [->|Hj0]; [done|].
           destruct (Z.lt_ge_cases j 0) as [Hneg|Hpos].
           ++ unfold charAt. by destruct (j <? 0) eqn:E; [|lia].
           ++ replace j with ((j - 1) + 1) by lia.
              rewrite charAt_cons by lia. apply Hmin. lia.
Qed.

Lemma lastIndexOf_from_char (a : ascii) (s : string) (k : Z) :
  0 <= k ->
  (lastIndexOf_from s (String a EmptyString) k = -1 /\ absent a s)
  \/ (exists i, lastIndexOf_from s (String a EmptyString) k = k + i
                /\ last_index_of a s i).
Proof.
  revert k; induction s as [|c s IH]; intros k Hk.
  - left. split; [done|]. intros j. unfold charAt.
    destruct (j <? 0); [done|]. by destruct (Z.to_nat j).
  - cbn [lastIndexOf_from].
    destruct (IH (k + 1) ltac:(lia)) as [[Hr Habs]|(i & Hr & Hget & Hmax)].
    + rewrite Hr. replace (-1 =? -1) with true by done.
      destruct (String.prefix (String a EmptyString) (String c s)) eqn:Hp.
      * right. exists 0. split; [lia|]. split.
        -- rewrite charAt_0. by apply prefix_char.
        -- intros j Hj. replace j with ((j - 1) + 1) by lia.
           rewrite charAt_cons by lia. apply Habs.
      * left. split; [done|]. intros j.
        destruct (Z.eq_dec j 0) as [->|Hj0].
        -- rewrite charAt_0. intros Hget. apply prefix_char in Hget. congruence.
        -- destruct (Z.lt_ge_cases j 0) as [Hneg|Hpos].
           ++ unfold charAt. by destruct (j <? 0) eqn:E; [|lia].
           ++ replace j with ((j - 1) + 1) by lia.
              rewrite charAt_cons by lia. apply Habs.
    + pose proof (charAt_range _ _ _ Hget) as Hi.
      rewrite Hr. destruct (k + 1 + i =? -1) eqn:E; [lia|].
      right. exists (i + 1). split; [lia|]. split.
      * by rewrite charAt_cons by lia.
      * intros j Hj. replace j with ((j - 1) + 1) by lia.
        rewrite charAt_cons by lia. apply Hmax. lia.
Qed.

(** [indexOf] finds the first occurrence, or answers -1 when there is
    none. *)
Lemma indexOf_char (a : ascii) (s : string) :
  (indexOf s (String a EmptyString) = -1 /\ absent a s)
  \/ first_index_of a s (indexOf s (String a EmptyString)).
Proof.
  unfold indexOf.
  destruct (indexOf_from_char a s 0) as [?|(i & -> & ?)]; [by left|by right].
Qed.

(** [lastIndexOf] finds the last occurrence, or answers -1 when there
    is none. *)
Lemma lastIndexOf_char (a : ascii) (s : string) :
  (lastIndexOf s (String a EmptyString) = -1 /\ absent a s)
  \/ last_index_of a s (lastIndexOf s (String a EmptyString)).
Proof.
  unfold lastIndexOf.
  destruct (lastIndexOf_from_char a s 0 ltac:(lia)) as [?|(i & -> & ?)];
    [by left|by right].
Qed.

Lemma slice_between (s : string) (i j : Z) :
  0 <= i <= j -> j <= Z.of_nat (String.length s) ->
  slice s i j = substring (Z.to_nat i) (Z.to_nat (j - i)) s.
Proof.
  intros Hij Hj. unfold slice.
  destruct (i <? 0) eqn:E1; [lia|]. destruct (j <? 0) eqn:E2; [lia|].
  by rewrite !Z.min_l by lia.
Qed.

(** *** Splitting and trimming *)

Lemma split_not_nil (sep : ascii) (s : string) : split sep s <> [].
Proof.
  induction s as [|c s IH]; simpl; [done|].
  destruct (Ascii.eqb c sep); [done|]. by destruct (split sep s).
Qed.

(** Joining the pieces with the separator gives the text back. *)
Lemma join_split (sep : ascii) (s : string) :
  join (String sep EmptyString) (split sep s) = s.
Proof.
  induction s as [|c s IH]; [done|]. simpl.
  pose proof (split_not_nil sep s) as Hne.
  destruct (Ascii.eqb c sep) eqn:Hc.
  - apply Ascii.eqb_eq in Hc as ->.
    unfold join in *. cbn [String.concat].
    destruct (split sep s) as [|h t]; [done|].
    rewrite IH. done.
  - destruct (split sep s) as [|h t]; [done|].
    unfold join in *. cbn [String.concat] in *.
    destruct t; by rewrite <- IH.
Qed.

Lemma absent_cons (a c : ascii) (s : string) :
  absent a (String c s) <-> c <> a /\ absent a s.
Proof.
  split.
  - intros Habs. split.
    + intros ->. by apply (Habs 0).
    + intros j Hget. destruct (Z.lt_ge_cases j 0) as [Hneg|Hpos].
      * unfold charAt in Hget. by destruct (j <? 0) eqn:E; [|lia].
      * apply (Habs (j + 1)). by rewrite charAt_cons.
  - intros [Hc Habs] j. destruct (Z.eq_dec j 0) as [->|Hj].
    + rewrite charAt_0. simpl. congruence.
    + destruct (Z.lt_ge_cases j 0) as [Hneg|Hpos].
      * unfold charAt. by destruct (j <? 0) eqn:E; [|lia].
      * replace j with ((j - 1) + 1) by lia.
        rewrite charAt_cons by lia. apply Habs.
Qed.

(** No piece holds the separator. *)
Lemma split_absent (sep : ascii) (s : string) :
  Forall (absent sep) (split sep s).
Proof.
  assert (Hnil : absent sep EmptyString).
  { intros j. unfold charAt. destruct (j <? 0); [done|]. by destruct (Z.to_nat j). }
  induction s as [|c s IH]; simpl; [by constructor|].
  destruct (Ascii.eqb c sep) eqn:Hc; [by constructor|].
  destruct (split sep s) as [|h t] eqn:E; [by elim (split_not_nil sep s)|].
  inversion IH as [|? ? Hh Ht]; subst. constructor; [|done].
  apply absent_cons. split; [|done].
  intros ->. by rewrite Ascii.eqb_refl in Hc.
Qed.

Lemma absent_nil (a : ascii) : absent a EmptyString.
Proof.
  intros j. unfold charAt. destruct (j <? 0); [done|]. by destruct (Z.to_nat j).
Qed.

(** A text without separator is its only piece. *)
Lemma split_absent_id (sep : ascii) (s : string) :
  absent sep s -> split sep s = [s].
Proof.
  induction s as [|c s IH]; [done|].
  intros [Hc Habs]%absent_cons. simpl.
  destruct (Ascii.eqb c sep) eqn:E; [by apply Ascii.eqb_eq in E|].
  by rewrite IH.
Qed.

(** Before the first separator comes the first piece. *)
Lemma split_app_sep (sep : ascii) (a b : string) :
  absent sep a ->
  split sep (a ++ String sep b) = a :: split sep b.
Proof.
  induction a as [|c a IH].
  - intros _. change (split sep (String sep b) = EmptyString :: split sep b).
    cbn [split]. by rewrite Ascii.eqb_refl.
  - intros [Hc Habs]%absent_cons.
    change (split sep (String c (a ++ String sep b)) = String c a :: split sep b).
    cbn [split]. rewrite IH by done.
    destruct (Ascii.eqb c sep) eqn:E; [by apply Ascii.eqb_eq in E|done].
Qed.

Lemma trimStart_no_ws (s : string) : no_ws s -> trimStart s = s.
Proof. destruct s as [|c s]; [done|]. intros [Hc _]. simpl. by rewrite Hc. Qed.

Lemma trimEnd_no_ws (s : string) : no_ws s -> trimEnd s = s.
Proof.
  induction s as [|c s IH]; [done|]. intros [Hc Hno]. simpl.
  rewrite IH by done. rewrite Hc. by destruct s.
Qed.

Lemma trim_no_ws (s : string) : no_ws s -> trim s = s.
Proof. intros Hno. unfold trim. by rewrite trimStart_no_ws, trimEnd_no_ws. Qed.

(** A trimmed text neither starts nor ends with white space. *)
Lemma trimEnd_cons_non_ws (c : ascii) (s : string) :
  is_ws c = false -> exists t, trimEnd (String c s) = String c t.
Proof.
  intros Hc. simpl. destruct (trimEnd s) as [|d t]; rewrite ?Hc; eauto.
Qed.

Lemma Boolean_true_iff (s : string) : Boolean s = true <-> s <> EmptyString.
Proof. by destruct s. Qed.

Lemma startsWith_char (s : string) (a : ascii) :
  startsWith s (String a EmptyString) = true <-> exists t, s = String a t.
Proof.
  unfold startsWith. rewrite prefix_char. destruct s as [|c s]; simpl.
  - split; [done|]. by intros [t ?].
  - split; [intros [= ->]; eauto|]. by intros [t [= -> _]].
Qed.

End StringFacts.

(** ** Facts about the monad *)

Section MonadFacts.

Context {A B : Type}.

Lemma outcome_bind (m : M A) (k : A -> M B) :
  outcome (bind m k) =
    match outcome m with
    | Return a => outcome (k a)
    | Throw e => Throw e
    end.
Proof. destruct m as [log [a|e]]; simpl; [|done]. by destruct (k a). Qed.

Lemma log_of_bind (m : M A) (k : A -> M B) :
  log_of (bind m k) =
    log_of m ++ match outcome m with
                | Return a => log_of (k a)
                | Throw _ => []
                end.
Proof.
  destruct m as [log [a|e]]; simpl; [by destruct (k a)|].
  by rewrite app_nil_r.
Qed.

Lemma outcome_try_catch (m : M A) (handler : exn -> M A) :
  outcome (try_catch m handler) =
    match outcome m with
    | Return a => Return a
    | Throw e => outcome (handler e)
    end.
Proof. destruct m as [log [a|e]]; simpl; [done|]. by destruct (handler e). Qed.

Lemma log_of_try_catch (m : M A) (handler : exn -> M A) :
  log_of (try_catch m handler) =
    log_of m ++ match outcome m with
                | Return _ => []
                | Throw e => log_of (handler e)
                end.
Proof.
  destruct m as [log [a|e]]; simpl; [by rewrite app_nil_r|].
  by destruct (handler e).
Qed.

Lemma M_eta (m : M A) : m = (log_of m, outcome m).
Proof. by destruct m. Qed.

Lemma log_of_call (c : Call) (r : result A) : log_of (call c r) = [c].
Proof. done. Qed.

Lemma outcome_call (c : Call) (r : result A) : outcome (call c r) = r.
Proof. done. Qed.

Lemma log_of_lift (r : result A) : log_of (lift r) = [].
Proof. done. Qed.

Lemma outcome_lift (r : result A) : outcome (lift r) = r.
Proof. done. Qed.

Lemma log_of_ret (a : A) : log_of (ret a) = [].
Proof. done. Qed.

Lemma outcome_ret (a : A) : outcome (ret a) = Return a.
Proof. done. Qed.

Lemma log_of_throw (e : exn) : log_of (throw (A := A) e) = [].
Proof. done. Qed.

Lemma outcome_throw (e : exn) : outcome (throw (A := A) e) = Throw e.
Proof. done. Qed.

End MonadFacts.

(** Split an equation on a run into its log and its outcome. *)
Ltac by_log_and_outcome :=
  match goal with
  | |- ?m = (?l, ?r) =>
      rewrite (M_eta m); f_equal
  end.

(** Normalize the projections of a run. *)
Ltac run :=
  repeat progress
    (repeat first
       [ rewrite outcome_bind | rewrite log_of_bind
       | rewrite outcome_try_catch | rewrite log_of_try_catch
       | rewrite log_of_call | rewrite outcome_call
       | rewrite log_of_lift | rewrite outcome_lift
       | rewrite log_of_ret | rewrite outcome_ret
       | rewrite log_of_throw | rewrite outcome_throw ];
     cbn [app negb]).

(** Normalize, using the equations of the context on the answers of the
    world wherever one applies. *)
Ltac run_world :=
  run;
  repeat (match goal with
          | H : ?call = Return _ |- context [?call] => rewrite H
          | H : ?call = Throw _ |- context [?call] => rewrite H
          | H : ?test = true |- context [?test] => rewrite H
          | H : ?test = false |- context [?test] => rewrite H
          | H : ?read = Some _ |- context [?read] => rewrite H
          | H : ?read = None |- context [?read] => rewrite H
          end; run).

(** ** The Identifier Extractor *)

Section IdentifierExtractor.

Import JsString.

Lemma path_segments_truthy (parsed : URL) :
  Forall (fun seg => seg <> EmptyString) (path_segments parsed).
Proof.
  unfold path_segments. apply List.Forall_forall. intros seg Hin.
  apply filter_In in Hin as [_ Hb]. by apply Boolean_true_iff.
Qed.

Lemma and_truthy_second (cond : bool) (seg0 : string) (rest : list string) :
  Forall (fun seg => seg <> EmptyString) (seg0 :: rest) ->
  and_truthy cond ((seg0 :: rest) !! 1%nat) =
    match rest with
    | seg1 :: _ => if cond then Some seg1 else None
    | [] => None
    end.
Proof.
  intros Hall. unfold and_truthy.
  destruct rest as [|seg1 rest]; simpl; [by destruct cond|].
  inversion Hall as [|? ? _ Hrest]; subst.
  inversion Hrest as [|? ? Hseg1 _]; subst.
  apply Boolean_true_iff in Hseg1. rewrite Hseg1. done.
Qed.

Lemma extractChannelIdentifier_follows_rules (rt : Runtime) (url : string) :
  classifies (new_URL rt url) (extractChannelIdentifier rt url).
Proof.
  unfold extractChannelIdentifier.
  destruct (new_URL rt url) as [parsed|]; [|constructor].
  destruct (path_segments parsed) as [|seg0 rest] eqn:Hsegs; [by constructor|].
  cbv zeta.
  pose proof (path_segments_truthy parsed) as Hall. rewrite Hsegs in Hall.
  rewrite !(and_truthy_second _ _ _ Hall).
  destruct (String.eqb seg0 "@") eqn:Hat.
  { apply String.eqb_eq in Hat. eapply classifies_handle; eauto. }
  destruct (startsWith seg0 "@") eqn:Hstart.
  { eapply classifies_handle; eauto. }
  destruct rest as [|seg1 rest].
  - destruct (startsWith (pathname parsed) "/@") eqn:Hslash.
    + eapply classifies_slash_at; eauto; by intros [_ ?].
    + eapply classifies_nothing; eauto; by intros [_ ?].
  - destruct (String.eqb seg0 "channel") eqn:Hch.
    { apply String.eqb_eq in Hch as ->. eapply classifies_id; eauto. }
    apply String.eqb_neq in Hch.
    destruct (String.eqb seg0 "c") eqn:Hc.
    { apply String.eqb_eq in Hc. eapply classifies_custom; eauto. }
    destruct (String.eqb seg0 "user") eqn:Hu.
    { apply String.eqb_eq in Hu. eapply classifies_custom; eauto. }
    apply String.eqb_neq in Hc, Hu. simpl.
    destruct (startsWith (pathname parsed) "/@") eqn:Hslash.
    + eapply classifies_slash_at; eauto; [by intros [? _]|by intros [[?|?] _]].
    + eapply classifies_nothing; eauto; [by intros [? _]|by intros [[?|?] _]].
Qed.

Lemma eqb_at_startsWith (seg0 : string) :
  startsWith seg0 "@" = false -> String.eqb seg0 "@" = false.
Proof.
  intros Hstart. apply String.eqb_neq. intros ->. done.
Qed.

Lemma classifies_is_extractChannelIdentifier (rt : Runtime) (url : string)
    (r : option ChannelIdentifier) :
  classifies (new_URL rt url) r -> r = extractChannelIdentifier rt url.
Proof.
  unfold extractChannelIdentifier.
  destruct (new_URL rt url) as [parsed|]; [|by inversion 1].
  cbv zeta.
  inversion 1 as [|? Hsegs|? seg0 rest Hsegs Hat|? seg1 rest Hsegs
                  |? seg0 seg1 rest Hsegs Hc
                  |? seg0 rest Hsegs Hstart Hnid Hncustom Hslash
                  |? seg0 rest Hsegs Hstart Hnid Hncustom Hslash]; subst;
    pose proof (path_segments_truthy parsed) as Hall; rewrite Hsegs in *;
    rewrite ?(and_truthy_second _ _ _ Hall).
  - done.
  - destruct (String.eqb seg0 "@") eqn:E; [done|].
    destruct Hat as [-> | ->]; done.
  - done.
  - by destruct Hc as [-> | ->].
  - rewrite (eqb_at_startsWith _ Hstart), Hstart, Hslash.
    destruct rest as [|seg1 rest]; [done|].
    destruct (String.eqb seg0 "channel") eqn:E1.
    { apply String.eqb_eq in E1. by elim Hnid. }
    destruct (String.eqb seg0 "c") eqn:E2.
    { apply String.eqb_eq in E2. elim Hncustom. by split; [left|]. }
    destruct (String.eqb seg0 "user") eqn:E3.
    { apply String.eqb_eq in E3. elim Hncustom. by split; [right|]. }
    done.
  - rewrite (eqb_at_startsWith _ Hstart), Hstart, Hslash.
    destruct rest as [|seg1 rest]; [done|].
    destruct (String.eqb seg0 "channel") eqn:E1.
    { apply String.eqb_eq in E1. by elim Hnid. }
    destruct (String.eqb seg0 "c") eqn:E2.
    { apply String.eqb_eq in E2. elim Hncustom. by split; [left|]. }
    destruct (String.eqb seg0 "user") eqn:E3.
    { apply String.eqb_eq in E3. elim Hncustom. by split; [right|]. }
    done.
Qed.

Lemma prefix_cons_iff (a c : ascii) (p s : string) :
  String.prefix (String a p) (String c s) = true
  <-> a = c /\ String.prefix p s = true.
Proof.
  cbn [String.prefix]. destruct (ascii_dec a c) as [->|Hne]; [tauto|].
  split; [done|]. by intros [? _].
Qed.

Lemma startsWith_slash_at (s : string) :
  startsWith s "/@" = true -> exists p, s = String "/" (String "@" p).
Proof.
  unfold startsWith. destruct s as [|c0 [|c1 p]]; [done| |].
  - intros [_ H]%prefix_cons_iff. done.
  - intros [<- [<- _]%prefix_cons_iff]%prefix_cons_iff. eauto.
Qed.

(** The rule on paths that start with [/@] never fires: such a path
    has a first segment that starts with [@], which the handle rule
    takes. *)
Lemma slash_at_first_segment (parsed : URL) :
  startsWith (pathname parsed) "/@" = true ->
  exists seg0 rest,
    path_segments parsed = seg0 :: rest /\ startsWith seg0 "@" = true.
Proof.
  intros [p Hp]%startsWith_slash_at. unfold path_segments. rewrite Hp.
  cbn [split]. change (Ascii.eqb "/" "/") with true.
  change (Ascii.eqb "@" "/") with false. cbv iota.
  pose proof (split_not_nil "/" p) as Hne.
  destruct (split "/" p) as [|h t]; [done|].
  cbn [List.map]. change (trim EmptyString) with EmptyString.
  destruct (trimEnd_cons_non_ws "@" h eq_refl) as [t' Ht'].
  assert (Htrim : trim (String "@" h) = String "@" t') by done.
  rewrite Htrim. cbn [List.filter Boolean].
  eexists _, _. split; [done|]. apply startsWith_char. eauto.
Qed.

(** The segments of the paths [/a] and [/a/b]. *)
Lemma path_segments_one (parsed : URL) (a : string) :
  plain_segment a ->
  pathname parsed = String "/" a ->
  path_segments parsed = [a].
Proof.
  intros (Hne & Hno & Habs) Hpath. unfold path_segments. rewrite Hpath.
  cbn [split]. change (Ascii.eqb "/" "/") with true. cbv iota.
  rewrite split_absent_id by done.
  cbn [List.map]. rewrite (trim_no_ws a) by done.
  change (trim EmptyString) with EmptyString. cbn [List.filter Boolean].
  apply Boolean_true_iff in Hne. by rewrite Hne.
Qed.

Lemma path_segments_two (parsed : URL) (a b : string) :
  plain_segment a -> plain_segment b ->
  pathname parsed = String "/" (a ++ String "/" b) ->
  path_segments parsed = [a; b].
Proof.
  intros (Hane & Hano & Haabs) (Hbne & Hbno & Hbabs) Hpath.
  unfold path_segments. rewrite Hpath.
  cbn [split]. change (Ascii.eqb "/" "/") with true. cbv iota.
  rewrite split_app_sep, split_absent_id by done.
  cbn [List.map]. rewrite (trim_no_ws a), (trim_no_ws b) by done.
  change (trim EmptyString) with EmptyString. cbn [List.filter Boolean].
  apply Boolean_true_iff in Hane, Hbne. by rewrite Hane, Hbne.
Qed.

(** A literal segment is plain. *)
Ltac plain_literal :=
  split; [done|]; split; [by repeat split|];
  repeat (apply absent_cons; split; [done|]); apply absent_nil.

(** The four URL shapes of the specification. *)
Lemma extractChannelIdentifier_handle_path (rt : Runtime) (url : string)
    (parsed : URL) (name : string) :
  new_URL rt url = Some parsed ->
  no_ws name -> absent "/" name ->
  pathname parsed = String "/" (String "@" name) ->
  extractChannelIdentifier rt url = Some (Handle (String "@" name)).
Proof.
  intros Hurl Hno Habs Hpath. unfold extractChannelIdentifier. rewrite Hurl.
  rewrite (path_segments_one parsed (String "@" name)); [|repeat split; try done|done].
  - cbv zeta. destruct (String.eqb (String "@" name) "@"); [done|].
    assert (Hstart : startsWith (String "@" name) "@" = true)
      by (apply startsWith_char; eauto).
    by rewrite Hstart.
  - apply absent_cons. by split.
Qed.

Lemma extractChannelIdentifier_channel_path (rt : Runtime) (url : string)
    (parsed : URL) (id : string) :
  new_URL rt url = Some parsed ->
  plain_segment id ->
  pathname parsed = ("/channel/" ++ id)%string ->
  extractChannelIdentifier rt url = Some (Id id).
Proof.
  intros Hurl Hid Hpath. unfold extractChannelIdentifier. rewrite Hurl.
  rewrite (path_segments_two parsed "channel" id); [|plain_literal|done|done].
  cbv zeta. cbn [lookup list_lookup].
  destruct Hid as (Hne%Boolean_true_iff & _). unfold and_truthy.
  change (String.eqb "channel" "@") with false.
  change (startsWith "channel" "@") with false.
  change (String.eqb "channel" "channel") with true. cbv iota.
  by rewrite Hne.
Qed.

Lemma extractChannelIdentifier_custom_path (rt : Runtime) (url : string)
    (parsed : URL) (name : string) :
  new_URL rt url = Some parsed ->
  plain_segment name ->
  pathname parsed = ("/c/" ++ name)%string
  \/ pathname parsed = ("/user/" ++ name)%string ->
  extractChannelIdentifier rt url = Some (Custom name).
Proof.
  intros Hurl Hname Hpath. unfold extractChannelIdentifier. rewrite Hurl.
  destruct Hname as (Hne & Hno & Habs).
  apply Boolean_true_iff in Hne as Htrue.
  destruct Hpath as [Hpath|Hpath].
  - rewrite (path_segments_two parsed "c" name); [|plain_literal|done|done].
    cbv zeta. cbn [lookup list_lookup]. unfold and_truthy.
    change (String.eqb "c" "@") with false.
    change (startsWith "c" "@") with false.
    change (String.eqb "c" "channel") with false.
    change (String.eqb "c" "c") with true. cbv iota. cbn [orb].
    by rewrite Htrue.
  - rewrite (path_segments_two parsed "user" name); [|plain_literal|done|done].
    cbv zeta. cbn [lookup list_lookup]. unfold and_truthy.
    change (String.eqb "user" "@") with false.
    change (startsWith "user" "@") with false.
    change (String.eqb "user" "channel") with false.
    change (String.eqb "user" "c") with false.
    change (String.eqb "user" "user") with true. cbv iota. cbn [orb].
    by rewrite Htrue.
Qed.

End IdentifierExtractor.

(** ** The Transcript Aggregator *)

Section TranscriptAggregator.

Import JsString.

Variable w : World.

Lemma filter_map_id_map {X Y : Type} (f : X -> option Y) (l : list X) :
  filter_map id (List.map f l) = filter_map f l.
Proof.
  induction l as [|x l IH]; [done|].
  cbn [List.map filter_map]. unfold id at 1. destruct (f x); by rewrite IH.
Qed.

(** What the callback of [fetchTranscripts] answers for one video. *)
Lemma transcript_chunk_spec (video : Video) :
  transcript_chunk w video =
    ([FetchTranscript (videoId video) "en"],
     Return (if contributes_nothing w video then None
             else Some {| ts_videoId := videoId video;
                          ts_title := title video;
                          transcriptForModel :=
                            substring 0 3000 (normalized_transcript w video);
                          snippetExcerpt :=
                            substring 0 320 (normalized_transcript w video) |})).
Proof.
  unfold transcript_chunk, contributes_nothing, normalized_transcript,
    combine_segments.
  destruct (fetchTranscript w (videoId video) "en") as [[[|segment segments]|]|e];
    try done.
  unfold try_catch, bind, call. cbv beta iota.
  rewrite trim_replace_ws_runs.
  set (normalized := join " " (words (join " " (List.map text (segment :: segments))))).
  destruct normalized eqn:Hn; [done|].
  change (String.eqb (String a s) EmptyString) with false.
  cbn [Boolean negb ret app]. rewrite !slice_0 by lia. done.
Qed.

Lemma fetchTranscripts_spec (videos : list Video) :
  fetchTranscripts w videos =
    (List.map (fun video => FetchTranscript (videoId video) "en") videos,
     Return (filter_map (fun video =>
                     if contributes_nothing w video then None
                     else Some {| ts_videoId := videoId video;
                                  ts_title := title video;
                                  transcriptForModel :=
                                    substring 0 3000 (normalized_transcript w video);
                                  snippetExcerpt :=
                                    substring 0 320 (normalized_transcript w video) |})
                  videos)).
Proof.
  unfold fetchTranscripts.
  assert (H : Promise_all (List.map (transcript_chunk w) videos) =
              (List.map (fun video => FetchTranscript (videoId video) "en") videos,
               Return (List.map (fun video =>
                          if contributes_nothing w video then None
                          else Some {| ts_videoId := videoId video;
                                       ts_title := title video;
                                       transcriptForModel :=
                                         substring 0 3000 (normalized_transcript w video);
                                       snippetExcerpt :=
                                         substring 0 320 (normalized_transcript w video) |})
                       videos))).
  { induction videos as [|video videos IH]; [done|].
    cbn [List.map Promise_all]. rewrite IH, transcript_chunk_spec. done. }
  rewrite H. unfold bind, ret. by rewrite app_nil_r, filter_map_id_map.
Qed.

Lemma filter_map_length_filter {X Y : Type} (f : X -> option Y)
    (dropped : X -> bool) (l : list X) :
  (forall x, f x = None <-> dropped x = true) ->
  List.length (filter_map f l) = (List.length l - List.length (List.filter dropped l))%nat.
Proof.
  intros Hf. induction l as [|x l IH]; [done|].
  pose proof (List.filter_length_le dropped l) as Hle.
  cbn [filter_map List.filter List.length].
  destruct (f x) as [y|] eqn:Hfx.
  - destruct (dropped x) eqn:Hd; [apply Hf in Hd; congruence|].
    cbn [List.length]. rewrite IH. lia.
  - apply Hf in Hfx. rewrite Hfx. cbn [List.length]. rewrite IH. lia.
Qed.

Lemma filter_all_length {X : Type} (p : X -> bool) (l : list X) :
  List.length (List.filter p l) = List.length l -> List.filter (fun x => negb (p x)) l = [].
Proof.
  induction l as [|x l IH]; [done|].
  pose proof (List.filter_length_le p l) as Hle.
  cbn [List.filter List.length]. destruct (p x); cbn [List.length negb]; [|lia].
  intros [= Hlen]. by apply IH.
Qed.

End TranscriptAggregator.

(** C2.  Of [N] videos of which [M] contribute nothing (the transcript
    fetch fails, returns no segments, or normalizes to the empty
    string), [fetchTranscripts] returns exactly [N - M] samples, those of
    the other videos in their order; it returns, and never throws, also
    when every video fails, and then the list is empty. *)
Theorem fetchTranscripts_survivors (w : World) (videos : list Video) :
  exists samples,
    outcome (fetchTranscripts w videos) = Return samples
    /\ List.length samples =
         (List.length videos - List.length (List.filter (contributes_nothing w) videos))%nat
    /\ List.map (fun sample => (ts_videoId sample, ts_title sample)) samples =
         List.map (fun video => (videoId video, title video))
           (List.filter (fun video => negb (contributes_nothing w video)) videos)
    /\ (List.length (List.filter (contributes_nothing w) videos) = List.length videos ->
         samples = []).
Proof.
  rewrite fetchTranscripts_spec. eexists. split; [done|].
  split; [|split].
  - apply filter_map_length_filter. intros video.
    by destruct (contributes_nothing w video).
  - induction videos as [|video videos IH]; [done|].
    cbn [filter_map List.filter].
    destruct (contributes_nothing w video); cbn [negb List.map]; by rewrite ?IH.
  - intros Hall%filter_all_length.
    induction videos as [|video videos IH]; [done|].
    cbn [filter_map List.filter] in *.
    destruct (contributes_nothing w video); cbn [negb] in *; [by apply IH|done].
Qed.

Lemma fetchTranscripts_survivors_witness :
  List.length (List.filter (contributes_nothing Demo.w) Demo.videos) = 2%nat
  /\ exists samples,
       outcome (fetchTranscripts Demo.w Demo.videos) = Return samples
       /\ List.length samples = 1%nat.
Proof.
  split; [reflexivity|].
  destruct (fetchTranscripts_survivors Demo.w Demo.videos)
    as (samples & Hreturn & Hlength & _).
  exists samples. split; [exact Hreturn|exact Hlength].
Defined.

(** C7.  Every sample that [fetchTranscripts] returns comes from a video
    of the input whose transcript was fetched: its text is the segment
    texts joined with single spaces, every run of white space collapsed
    to one space, trimmed (which leaves the words of the text, one space
    apart); [transcriptForModel] is the first 3000 code units of that
    text and [snippetExcerpt] the first 320, so they are no longer than
    3000 and 320 and the excerpt is a prefix of the model text. *)
Theorem transcript_sample_shape (w : World) (videos : list Video)
    (samples : list TranscriptSample) (sample : TranscriptSample) :
  outcome (fetchTranscripts w videos) = Return samples ->
  In sample samples ->
  exists video segments,
    In video videos
    /\ ts_videoId sample = videoId video
    /\ ts_title sample = title video
    /\ fetchTranscript w (videoId video) "en" = Return (Some segments)
    /\ (let joined := JsString.join " " (List.map text segments) in
        let normalized := JsString.trim (JsString.replace_ws_runs false joined) in
        normalized = JsString.join " " (words joined)
        /\ single_spaced normalized
        /\ transcriptForModel sample = substring 0 3000 normalized
        /\ snippetExcerpt sample = substring 0 320 normalized)
    /\ (String.length (transcriptForModel sample) <= 3000)%nat
    /\ (String.length (snippetExcerpt sample) <= 320)%nat
    /\ String.prefix (snippetExcerpt sample) (transcriptForModel sample) = true.
Proof.
  rewrite fetchTranscripts_spec. intros [= <-].
  induction videos as [|video videos IH]; [done|].
  cbn [filter_map].
  destruct (contributes_nothing w video) eqn:Hdrop.
  { intros (v & segs & Hin & H)%IH. exists v, segs. split; [by right|done]. }
  intros [<-|Hin]; cycle 1.
  { apply IH in Hin as (v & segs & Hin & H). exists v, segs.
    split; [by right|done]. }
  clear IH. unfold contributes_nothing, normalized_transcript in *.
  destruct (fetchTranscript w (videoId video) "en")
    as [[segments|]|e] eqn:Hfetch; try done.
  exists video, segments. cbn [ts_videoId ts_title transcriptForModel snippetExcerpt].
  rewrite trim_replace_ws_runs.
  split; [by left|]. do 3 (split; [done|]).
  split; [by auto using join_words_single_spaced|].
  rewrite !substring_0_length.
  split; [lia|]. split; [lia|]. apply substring_0_prefix. lia.
Qed.

Lemma transcript_sample_shape_witness :
  outcome (fetchTranscripts Demo.w Demo.videos) = Return [Demo.sample]
  /\ In Demo.sample [Demo.sample]
  /\ exists video segments,
       In video Demo.videos
       /\ fetchTranscript Demo.w (videoId video) "en" = Return (Some segments)
       /\ String.prefix (snippetExcerpt Demo.sample)
                        (transcriptForModel Demo.sample) = true.
Proof.
  assert (Hrun : outcome (fetchTranscripts Demo.w Demo.videos) = Return [Demo.sample])
    by (vm_compute; reflexivity).
  assert (Hin : In Demo.sample [Demo.sample]) by (left; reflexivity).
  split; [exact Hrun|]. split; [exact Hin|].
  destruct (transcript_sample_shape Demo.w Demo.videos [Demo.sample] Demo.sample
              Hrun Hin)
    as (video & segments & Hvideo & _ & _ & Hfetch & _ & _ & _ & Hprefix).
  exists video, segments. split; [exact Hvideo|]. split; [exact Hfetch|exact Hprefix].
Defined.

(** ** The Channel Resolver *)

Section ChannelResolver.

Variable rt : Runtime.
Variable w : World.

Lemma username_url_is_not_search (value apiKey : string) :
  is_search_call (Fetch (username_url rt value apiKey)) = false.
Proof. done. Qed.

Lemma search_url_is_search (query apiKey : string) :
  is_search_call (Fetch (search_url rt query apiKey)) = true.
Proof. done. Qed.

(** The legacy lookup answers at least one item: its id is the
    result, and the lookup is the only call. *)
Lemma identifyChannelId_legacy_hit (value apiKey : string)
    (res : Response UsernameJson) (usernameJson : UsernameJson)
    (item : UsernameItem) (items : list UsernameItem) :
  fetch_username w (username_url rt value apiKey) = Return res ->
  ok res = true ->
  json_body res = Return usernameJson ->
  un_items usernameJson = Some (item :: items) ->
  identifyChannelId rt w (Some (Custom value)) apiKey
    = ([Fetch (username_url rt value apiKey)], Return (ui_id item)).
Proof.
  intros Hres Hok Hjson Hitems. cbn [identifyChannelId].
  by_log_and_outcome; by run_world.
Qed.

(** Every call of the resolver is a [fetch]. *)
Lemma identifyChannelId_log_fetch (identifier : option ChannelIdentifier)
    (apiKey : string) :
  Forall (fun c => is_transcript_call c = false)
         (log_of (identifyChannelId rt w identifier apiKey)).
Proof.
  destruct identifier as [[value|value|value]|]; cbn [identifyChannelId];
    run; repeat (case_match; run); repeat constructor.
Qed.

Lemma resolveChannelDetails_log_fetch (identifier : option ChannelIdentifier)
    (apiKey : string) (videoCount : Z) :
  Forall (fun c => is_transcript_call c = false)
         (log_of (resolveChannelDetails rt w identifier apiKey videoCount)).
Proof.
  unfold resolveChannelDetails. run. apply Forall_app. split.
  - apply identifyChannelId_log_fetch.
  - repeat (case_match; run); repeat constructor.
Qed.

(** What a resolved channel is made of. *)
Lemma resolveChannelDetails_resolved (identifier : option ChannelIdentifier)
    (apiKey : string) (videoCount : Z) (meta : ChannelDetails) :
  outcome (resolveChannelDetails rt w identifier apiKey videoCount)
    = Return (Some meta) ->
  exists channelRes channelJson videoRes videoJson,
    outcome (identifyChannelId rt w identifier apiKey)
      = Return (Some (cd_channelId meta))
    /\ cd_channelId meta <> EmptyString
    /\ fetch_channel w (channel_url (cd_channelId meta) apiKey) = Return channelRes
    /\ ok channelRes = true
    /\ json_body channelRes = Return channelJson
    /\ channelTitle meta =
         default "Channel" (ch_items channelJson ?> head ?> ci_snippet ?> cs_title)
    /\ fetch_videos w (videos_url (cd_channelId meta) apiKey videoCount)
         = Return videoRes
    /\ ok videoRes = true
    /\ json_body videoRes = Return videoJson
    /\ videos meta = filter_map video_of_item (default [] (vj_items videoJson)).
Proof.
  unfold resolveChannelDetails. run.
  destruct (outcome (identifyChannelId rt w identifier apiKey))
    as [[channelId|]|e]; run; [|done..].
  destruct (JsString.Boolean channelId) eqn:Hid; run; [|done].
  destruct (fetch_channel w (channel_url channelId apiKey))
    as [channelRes|e] eqn:Hchannel; run; [|done].
  destruct (ok channelRes) eqn:Hcok; run; [|done].
  destruct (json_body channelRes) as [channelJson|e] eqn:Hcjson; run; [|done].
  destruct (fetch_videos w (videos_url channelId apiKey videoCount))
    as [videoRes|e] eqn:Hvideos; run; [|done].
  destruct (ok videoRes) eqn:Hvok; run; [|done].
  destruct (json_body videoRes) as [videoJson|e] eqn:Hvjson; run; [|done].
  destruct (and_truthy true (vj_error videoJson ?> ae_message)); run; [done|].
  intros [= <-]. cbn [cd_channelId channelTitle videos].
  exists channelRes, channelJson, videoRes, videoJson.
  rewrite Hchannel, Hvideos.
  repeat split; try done.
  - by apply Boolean_true_iff.
  - by destruct (vj_items videoJson).
Qed.

End ChannelResolver.

(** C3.  For a Custom identifier [identifyChannelId] first issues the
    legacy lookup by username.  When that call succeeds with at least
    one item, the result is the id of the first item and the lookup is
    the only call.  When it succeeds with no item, the search by text is
    issued next, and the result is the channel id of the first search
    result, [null] when the search has no result either.  When the
    legacy call answers a non-success status, [identifyChannelId] throws
    after that one call. *)
Theorem identifyChannelId_custom (rt : Runtime) (w : World) (value apiKey : string) :
  let legacy := username_url rt value apiKey in
  let search := search_url rt value apiKey in
  let run := identifyChannelId rt w (Some (Custom value)) apiKey in
  is_search_call (Fetch legacy) = false
  /\ is_search_call (Fetch search) = true
  /\ (exists calls, log_of run = Fetch legacy :: calls)
  /\ (forall res usernameJson item items,
        fetch_username w legacy = Return res ->
        ok res = true ->
        json_body res = Return usernameJson ->
        un_items usernameJson = Some (item :: items) ->
        run = ([Fetch legacy], Return (ui_id item)))
  /\ (forall res usernameJson,
        fetch_username w legacy = Return res ->
        ok res = true ->
        json_body res = Return usernameJson ->
        un_items usernameJson = None \/ un_items usernameJson = Some [] ->
        log_of run = [Fetch legacy; Fetch search]
        /\ forall sres searchJson,
             fetch_channel_search w search = Return sres ->
             ok sres = true ->
             json_body sres = Return searchJson ->
             outcome run = Return (first_channelId searchJson)
             /\ (forall first others,
                   cs_items searchJson = Some (first :: others) ->
                   outcome run = Return (csi_id first ?> channelId))
             /\ (cs_items searchJson = None \/ cs_items searchJson = Some [] ->
                 outcome run = Return None))
  /\ (forall res,
        fetch_username w legacy = Return res ->
        ok res = false ->
        run = ([Fetch legacy], Throw (Error "Unable to resolve custom channel URL."))).
Proof.
  intros legacy search run. subst run. cbn [identifyChannelId].
  fold legacy. fold search.
  split; [done|]. split; [done|]. split; [|split; [|split]].
  - run. eauto.
  - intros res usernameJson item items Hres Hok Hjson Hitems.
    by_log_and_outcome; by run_world.
  - intros res usernameJson Hres Hok Hjson Hitems. split.
    + run_world.
      assert (Hlog :
        log_of (bind (call (Fetch search) (fetch_channel_search w search))
                  (fun searchRes =>
                     if negb (ok searchRes)
                     then throw (Error "Unable to resolve custom channel URL.")
                     else bind (lift (json_body searchRes))
                            (fun searchJson => ret (first_channelId searchJson))))
        = [Fetch search]).
      { run. destruct (fetch_channel_search w search) as [sres|e]; [|done].
        destruct (ok sres); run; [|done]. by destruct (json_body sres). }
      destruct Hitems as [Hitems | Hitems]; rewrite Hitems; by rewrite Hlog.
    + intros sres searchJson Hsres Hsok Hsjson.
      assert (Hout : outcome (identifyChannelId rt w (Some (Custom value)) apiKey)
                     = Return (first_channelId searchJson)).
      { cbn [identifyChannelId]. fold legacy. fold search.
        destruct Hitems as [Hitems | Hitems]; by run_world. }
      cbn [identifyChannelId] in Hout. fold legacy in Hout. fold search in Hout.
      split; [done|]. split.
      * intros first others Hfirst. rewrite Hout.
        unfold first_channelId. by rewrite Hfirst.
      * intros Hnone. rewrite Hout.
        unfold first_channelId. by destruct Hnone as [-> | ->].
  - intros res Hres Hok. by_log_and_outcome; by run_world.
Qed.

Lemma identifyChannelId_custom_witness :
  fetch_username Demo.w (username_url Demo.rt "acme" "AIza-0123456789")
    = Demo.answers {| un_items := Some [] |}
  /\ fetch_channel_search Demo.w (search_url Demo.rt "acme" "AIza-0123456789")
     = Demo.answers Demo.found_channel
  /\ log_of (identifyChannelId Demo.rt Demo.w (Some (Custom "acme")) "AIza-0123456789")
     = [ Fetch (username_url Demo.rt "acme" "AIza-0123456789");
         Fetch (search_url Demo.rt "acme" "AIza-0123456789") ]
  /\ outcome (identifyChannelId Demo.rt Demo.w (Some (Custom "acme")) "AIza-0123456789")
     = Return (Some "UC123").
Proof.
  split; [reflexivity|]. split; [reflexivity|].
  destruct (identifyChannelId_custom Demo.rt Demo.w "acme" "AIza-0123456789")
    as (_ & _ & _ & _ & Hempty & _).
  destruct (Hempty _ {| un_items := Some [] |} eq_refl eq_refl eq_refl
              (or_intror eq_refl)) as [Hlog Hsearch].
  split; [exact Hlog|].
  destruct (Hsearch _ Demo.found_channel eq_refl eq_refl eq_refl) as (Hout & _).
  exact Hout.
Defined.

(** ** The request schema *)

Section Schema.




End Schema.

(** ** The handler *)

Section Handler.

Variable rt : Runtime.
Variable w : World.

Lemma POST_runs_pipeline (request : Request) (body : json) (data : RequestData)
    (identifier : ChannelIdentifier) :
  request_json request = Return body ->
  requestSchema_safeParse body = Some data ->
  extractChannelIdentifier rt (channelUrl data) = Some identifier ->
  POST rt w request =
    try_catch (pipeline rt w data identifier)
              (fun error => ret (error_response error)).
Proof. intros Hbody Hdata Hid. unfold POST. by rewrite Hbody, Hdata, Hid. Qed.




Lemma error_response_other (error : exn) :
  JsString.includes (error_message error) "quota" = false ->
  JsString.includes (error_message error) "API key" = false ->
  error_response error = response 500 "Failed to build script style.".
Proof. intros H1 H2. unfold error_response. by rewrite H1, H2. Qed.

Lemma error_response_status (error : exn) :
  status (error_response error) = 429
  \/ status (error_response error) = 401
  \/ status (error_response error) = 500.
Proof.
  unfold error_response.
  destruct (JsString.includes (error_message error) "quota"); [by left|].
  destruct (JsString.includes (error_message error) "API key"); auto.
Qed.

(** What a returned payload is made of. *)
Lemma synthesize_returned (data : RequestData) (channelTitle : string)
    (transcripts : list TranscriptSample) (r : NextResponse) :
  outcome (synthesize rt w data channelTitle transcripts) = Return r ->
  exists styleText parsedStyle guidelines scriptText,
    responses_create w (openAiKey data) "gpt-4o-mini" style_system_prompt
      (style_user_prompt channelTitle (transcript_digest transcripts))
      = Return {| output_text := Some styleText |}
    /\ styleText <> EmptyString
    /\ parseJsonObject rt styleText = Return parsedStyle
    /\ property parsedStyle "writingGuidelines" = Some (JArr guidelines)
    /\ responses_create w (openAiKey data) "gpt-4o-mini" script_system_prompt
         (script_user_prompt rt channelTitle (topic data) parsedStyle
            (take 6 guidelines))
         = Return {| output_text := Some scriptText |}
    /\ JsString.trim scriptText <> EmptyString
    /\ r = {| body :=
                ResultBody
                  {| ar_channelTitle := channelTitle;
                     styleSummary :=
                       {| voiceTone := property parsedStyle "voiceTone";
                          narrativeStructure :=
                            property parsedStyle "narrativeStructure";
                          recurringDevices :=
                            property parsedStyle "recurringDevices";
                          pacing := property parsedStyle "pacing";
                          audienceEngagement :=
                            property parsedStyle "audienceEngagement" |};
                     writingGuidelines := take 6 guidelines;
                     generatedScript := JsString.trim scriptText;
                     sampledTranscripts :=
                       List.map (fun entry =>
                                   {| st_videoId := ts_videoId entry;
                                      st_title := ts_title entry;
                                      excerpt := snippetExcerpt entry |})
                                transcripts |};
              status := 200 |}.
Proof.
  unfold synthesize. run.
  destruct (responses_create w (openAiKey data) "gpt-4o-mini" style_system_prompt _)
    as [[[styleText|]]|e] eqn:Hstyle; run; [|done..].
  cbn [and_truthy output_text].
  destruct (JsString.Boolean styleText) eqn:Htext; run; [|done].
  destruct (parseJsonObject rt styleText) as [parsedStyle|e] eqn:Hparse; run; [|done].
  destruct (get_property parsedStyle "writingGuidelines")
    as [[[| | | |guidelines|]|]|e] eqn:Hprop; run; try done.
  destruct (responses_create w (openAiKey data) "gpt-4o-mini" script_system_prompt _)
    as [[[scriptText|]]|e] eqn:Hscript; run; [|done..].
  cbn [option_map and_truthy output_text].
  destruct (JsString.Boolean (JsString.trim scriptText)) eqn:Hscript_text; run;
    [|done].
  intros [= <-]. exists styleText, parsedStyle, guidelines, scriptText.
  split; [done|]. split; [by apply Boolean_true_iff|]. split; [done|].
  split; [destruct parsedStyle; cbn [get_property] in Hprop; congruence|].
  split; [done|]. split; [by apply Boolean_true_iff|done].
Qed.


Lemma pipeline_outcome (data : RequestData) (identifier : ChannelIdentifier) :
  outcome (pipeline rt w data identifier) =
    match outcome (resolveChannelDetails rt w (Some identifier)
                     (youtubeApiKey data) (videoCount data)) with
    | Throw e => Throw e
    | Return None => Return (response 404 "Unable to find the provided channel.")
    | Return (Some meta) =>
        match outcome (fetchTranscripts w (videos meta)) with
        | Throw e => Throw e
        | Return [] =>
            Return (response 422 "Transcripts are unavailable for the recent uploads. Try a different channel.")
        | Return (sample :: samples) =>
            outcome (synthesize rt w data (channelTitle meta) (sample :: samples))
        end
    end.
Proof. unfold pipeline. run. repeat (case_match; run); done. Qed.

Lemma POST_outcome (request : Request) (body : json) (data : RequestData)
    (identifier : ChannelIdentifier) :
  request_json request = Return body ->
  requestSchema_safeParse body = Some data ->
  extractChannelIdentifier rt (channelUrl data) = Some identifier ->
  outcome (POST rt w request) =
    match outcome (pipeline rt w data identifier) with
    | Return r => Return r
    | Throw e => Return (error_response e)
    end.
Proof.
  intros Hbody Hdata Hid. rewrite (POST_runs_pipeline _ _ _ _ Hbody Hdata Hid).
  run. by destruct (outcome (pipeline rt w data identifier)).
Qed.

Lemma POST_pipeline_fails (request : Request) (error : exn) :
  pipeline_fails rt w request error ->
  outcome (POST rt w request) = Return (error_response error).
Proof.
  intros (body & data & identifier & Hbody & Hdata & Hid & Hthrow).
  by rewrite (POST_outcome _ _ _ _ Hbody Hdata Hid), Hthrow.
Qed.

End Handler.



(** C10.  When the pipeline throws an error whose message contains
    neither [quota] nor [API key], the answer is status 500 with the
    fixed body [Failed to build script style.]; two runs that fail with
    two such errors, whatever their messages, get the same answer. *)
Theorem internal_errors_are_masked (rt1 rt2 : Runtime) (w1 w2 : World)
    (request1 request2 : Request) (error1 error2 : exn) :
  pipeline_fails rt1 w1 request1 error1 ->
  pipeline_fails rt2 w2 request2 error2 ->
  JsString.includes (error_message error1) "quota" = false ->
  JsString.includes (error_message error1) "API key" = false ->
  JsString.includes (error_message error2) "quota" = false ->
  JsString.includes (error_message error2) "API key" = false ->
  outcome (POST rt1 w1 request1)
    = Return (response 500 "Failed to build script style.")
  /\ outcome (POST rt2 w2 request2) = outcome (POST rt1 w1 request1).
Proof.
  intros Hfails1 Hfails2 Hq1 Hk1 Hq2 Hk2.
  rewrite (POST_pipeline_fails _ _ _ _ Hfails1), (POST_pipeline_fails _ _ _ _ Hfails2).
  by rewrite !error_response_other.
Qed.

Lemma internal_errors_are_masked_witness :
  pipeline_fails Demo.rt Demo.w_channel_refused (Demo.request_of Demo.handle_url 3)
    (Error "Failed to fetch channel metadata.")
  /\ pipeline_fails Demo.rt Demo.w_search_refused (Demo.request_of Demo.handle_url 3)
       (Error "Unable to resolve channel handle.")
  /\ outcome (POST Demo.rt Demo.w_channel_refused (Demo.request_of Demo.handle_url 3))
     = Return (response 500 "Failed to build script style.")
  /\ outcome (POST Demo.rt Demo.w_search_refused (Demo.request_of Demo.handle_url 3))
     = outcome (POST Demo.rt Demo.w_channel_refused (Demo.request_of Demo.handle_url 3)).
Proof.
  assert (H1 : pipeline_fails Demo.rt Demo.w_channel_refused
                 (Demo.request_of Demo.handle_url 3)
                 (Error "Failed to fetch channel metadata.")).
  { exists (Demo.body_of Demo.handle_url 3), (Demo.data_of Demo.handle_url 3),
      (Handle "@acme").
    repeat split; vm_compute; reflexivity. }
  assert (H2 : pipeline_fails Demo.rt Demo.w_search_refused
                 (Demo.request_of Demo.handle_url 3)
                 (Error "Unable to resolve channel handle.")).
  { exists (Demo.body_of Demo.handle_url 3), (Demo.data_of Demo.handle_url 3),
      (Handle "@acme").
    repeat split; vm_compute; reflexivity. }
  split; [exact H1|]. split; [exact H2|].
  apply (internal_errors_are_masked _ _ _ _ _ _ _ _ H1 H2); reflexivity.
Defined.

(** ** The payload *)

Section Payload.

Variable rt : Runtime.
Variable w : World.

(** A status 200 comes from the end of [synthesize] only. *)
Lemma POST_ok_from_synthesize (request : Request) (r : NextResponse) :
  outcome (POST rt w request) = Return r ->
  status r = 200 ->
  exists body data identifier meta transcripts,
    request_json request = Return body
    /\ requestSchema_safeParse body = Some data
    /\ extractChannelIdentifier rt (channelUrl data) = Some identifier
    /\ outcome (resolveChannelDetails rt w (Some identifier) (youtubeApiKey data)
                  (videoCount data)) = Return (Some meta)
    /\ outcome (fetchTranscripts w (videos meta)) = Return transcripts
    /\ transcripts <> []
    /\ outcome (synthesize rt w data (channelTitle meta) transcripts) = Return r.
Proof.
  intros Hr Hstatus.
  destruct (request_json request) as [body|e] eqn:Hbody; cycle 1.
  { unfold POST in Hr. rewrite Hbody in Hr. injection Hr as <-. done. }
  destruct (requestSchema_safeParse body) as [data|] eqn:Hdata; cycle 1.
  { unfold POST in Hr. rewrite Hbody, Hdata in Hr. injection Hr as <-. done. }
  destruct (extractChannelIdentifier rt (channelUrl data)) as [identifier|] eqn:Hid;
    cycle 1.
  { unfold POST in Hr. rewrite Hbody, Hdata, Hid in Hr. injection Hr as <-. done. }
  rewrite (POST_outcome rt w _ _ _ _ Hbody Hdata Hid), pipeline_outcome in Hr.
  destruct (outcome (resolveChannelDetails rt w (Some identifier) _ _))
    as [[meta|]|e] eqn:Hmeta.
  - destruct (outcome (fetchTranscripts w (videos meta)))
      as [[|sample samples]|e] eqn:Hsamples.
    + injection Hr as <-. done.
    + destruct (outcome (synthesize rt w data _ _)) as [r'|e] eqn:Hsynth.
      * injection Hr as <-.
        exists body, data, identifier, meta, (sample :: samples). by repeat split.
      * injection Hr as <-.
        by destruct (error_response_status e) as [H|[H|H]]; rewrite H in Hstatus.
    + injection Hr as <-.
      by destruct (error_response_status e) as [H|[H|H]]; rewrite H in Hstatus.
  - injection Hr as <-. done.
  - injection Hr as <-.
    by destruct (error_response_status e) as [H|[H|H]]; rewrite H in Hstatus.
Qed.

(** An empty script is a thrown error. *)
Lemma synthesize_empty_script (data : RequestData) (channelTitle : string)
    (transcripts : list TranscriptSample) (styleText : string) (parsedStyle : json)
    (guidelines : list json) (scriptResponse : OpenAIResponse) :
  responses_create w (openAiKey data) "gpt-4o-mini" style_system_prompt
    (style_user_prompt channelTitle (transcript_digest transcripts))
    = Return {| output_text := Some styleText |} ->
  styleText <> EmptyString ->
  parseJsonObject rt styleText = Return parsedStyle ->
  property parsedStyle "writingGuidelines" = Some (JArr guidelines) ->
  responses_create w (openAiKey data) "gpt-4o-mini" script_system_prompt
    (script_user_prompt rt channelTitle (topic data) parsedStyle (take 6 guidelines))
    = Return scriptResponse ->
  (forall scriptText,
      output_text scriptResponse = Some scriptText ->
      JsString.trim scriptText = EmptyString) ->
  outcome (synthesize rt w data channelTitle transcripts)
    = Throw (Error "Script generation failed.").
Proof.
  intros Hstyle Htext Hparse Hprop Hscript Hempty.
  unfold synthesize. run. rewrite Hstyle. run. cbn [and_truthy output_text].
  apply Boolean_true_iff in Htext. rewrite Htext. run. rewrite Hparse. run.
  assert (Hget : get_property parsedStyle "writingGuidelines"
                 = Return (Some (JArr guidelines))).
  { destruct parsedStyle; try done. cbn [get_property]. by rewrite Hprop. }
  rewrite Hget. run. rewrite Hscript. run.
  destruct (output_text scriptResponse) as [scriptText|]; [|done].
  cbn [option_map and_truthy]. by rewrite (Hempty scriptText eq_refl).
Qed.

End Payload.

(** C8 (as amended).  An answer with status 200 is returned only when
    every step before it succeeded, and its body is the whole payload:
    the channel title, the five style descriptors as read from the
    object the model returned (each one present exactly when that object
    has it), at most 6 guidelines, the trimmed script, which is not
    empty, and one record per transcript sample.  When the script is
    missing or empty after trimming, the pipeline throws [Script
    generation failed.] and the answer is the error answer with status
    500, not a payload. *)
Theorem ok_response_payload (rt : Runtime) (w : World) (request : Request) :
  (forall r,
      outcome (POST rt w request) = Return r ->
      status r = 200 ->
      exists data meta transcripts parsedStyle guidelines scriptText,
        upstream_succeeded rt w request data meta transcripts parsedStyle guidelines
          {| output_text := Some scriptText |}
        /\ JsString.trim scriptText <> EmptyString
        /\ body r = ResultBody (payload_of meta transcripts parsedStyle guidelines
                                  scriptText)
        /\ (List.length (take 6 guidelines) <= 6)%nat
        /\ List.length (sampledTranscripts
                          (payload_of meta transcripts parsedStyle guidelines
                             scriptText))
           = List.length transcripts)
  /\ (forall data meta transcripts parsedStyle guidelines scriptResponse,
        upstream_succeeded rt w request data meta transcripts parsedStyle guidelines
          scriptResponse ->
        (forall scriptText,
            output_text scriptResponse = Some scriptText ->
            JsString.trim scriptText = EmptyString) ->
        outcome (synthesize rt w data (channelTitle meta) transcripts)
          = Throw (Error "Script generation failed.")
        /\ outcome (POST rt w request)
           = Return (response 500 "Failed to build script style.")).
Proof.
  split.
  - intros r Hr Hstatus.
    destruct (POST_ok_from_synthesize rt w request r Hr Hstatus)
      as (body & data & identifier & meta & transcripts & Hbody & Hdata & Hid & Hmeta
          & Hsamples & Hne & Hsynth).
    apply synthesize_returned in Hsynth
      as (styleText & parsedStyle & guidelines & scriptText & Hstyle & Htext & Hparse
          & Hprop & Hscript & Htrim & ->).
    exists data, meta, transcripts, parsedStyle, guidelines, scriptText.
    split; [by exists body, identifier, styleText|].
    split; [done|]. split; [done|]. split.
    + rewrite length_take. lia.
    + cbn [payload_of sampledTranscripts]. by rewrite length_map.
  - intros data meta transcripts parsedStyle guidelines scriptResponse
      (body & identifier & styleText & Hbody & Hdata & Hid & Hmeta & Hsamples & Hne
       & Hstyle & Htext & Hparse & Hprop & Hscript) Hempty.
    pose proof (synthesize_empty_script rt w data (channelTitle meta) transcripts
                  styleText parsedStyle guidelines scriptResponse
                  Hstyle Htext Hparse Hprop Hscript Hempty) as Hthrow.
    split; [done|].
    rewrite (POST_outcome rt w _ _ _ _ Hbody Hdata Hid), pipeline_outcome, Hmeta,
      Hsamples.
    destruct transcripts as [|sample samples]; [done|]. by rewrite Hthrow.
Qed.

Lemma ok_response_payload_witness :
  upstream_succeeded Demo.rt Demo.w_blank_script (Demo.request_of Demo.handle_url 3)
    (Demo.data_of Demo.handle_url 3)
    {| cd_channelId := "UC123"; channelTitle := "Acme"; videos := Demo.videos |}
    [Demo.sample] Demo.style_value
    [JStr "a"; JStr "b"; JStr "c"; JStr "d"; JStr "e"; JStr "f"; JStr "g"]
    {| output_text := Some "   " |}
  /\ outcome (POST Demo.rt Demo.w_blank_script (Demo.request_of Demo.handle_url 3))
     = Return (response 500 "Failed to build script style.").
Proof.
  assert (Hup : upstream_succeeded Demo.rt Demo.w_blank_script
                  (Demo.request_of Demo.handle_url 3)
                  (Demo.data_of Demo.handle_url 3)
                  {| cd_channelId := "UC123"; channelTitle := "Acme";
                     videos := Demo.videos |}
                  [Demo.sample] Demo.style_value
                  [JStr "a"; JStr "b"; JStr "c"; JStr "d"; JStr "e"; JStr "f";
                   JStr "g"]
                  {| output_text := Some "   " |}).
  { exists (Demo.body_of Demo.handle_url 3), (Handle "@acme"), Demo.style_text.
    repeat split; try (vm_compute; reflexivity); discriminate. }
  split; [exact Hup|].
  destruct (ok_response_payload Demo.rt Demo.w_blank_script
              (Demo.request_of Demo.handle_url 3)) as [_ Hblank].
  refine (proj2 (Hblank _ _ _ _ _ _ Hup _)).
  intros scriptText [= <-]. reflexivity.
Defined.

(** C8 as stated fails: the answer below has status 200 and none of the
    five style descriptors, because the model left them out. *)
Lemma ok_response_without_descriptors :
  exists payload,
    outcome (POST Demo.rt Demo.w_bare (Demo.request_of Demo.handle_url 3))
      = Return {| body := ResultBody payload; status := 200 |}
    /\ voiceTone (styleSummary payload) = None
    /\ narrativeStructure (styleSummary payload) = None
    /\ recurringDevices (styleSummary payload) = None
    /\ pacing (styleSummary payload) = None
    /\ audienceEngagement (styleSummary payload) = None.
Proof.
  eexists. split; [vm_compute; reflexivity|]. repeat split.
Qed.

(** ** The video list *)

Section VideoList.

Variable rt : Runtime.
Variable w : World.

Lemma video_of_item_videoId (item : VideoItem) (video : Video) :
  video_of_item item = Some video ->
  vi_id item ?> vi_videoId = Some (videoId video) /\ videoId video <> EmptyString.
Proof.
  unfold video_of_item. destruct (vi_id item ?> vi_videoId) as [v|]; [|done].
  destruct (JsString.Boolean v) eqn:Hv; [|done].
  intros [= <-]. split; [done|]. by apply Boolean_true_iff.
Qed.

Lemma filter_map_video_of_item (items : list VideoItem) :
  Forall (fun video => videoId video <> EmptyString)
         (filter_map video_of_item items)
  /\ List.map videoId (filter_map video_of_item items)
     = List.filter JsString.Boolean
         (filter_map (fun item => vi_id item ?> vi_videoId) items)
  /\ (List.length (filter_map video_of_item items) <= List.length items)%nat.
Proof.
  induction items as [|item items (IHall & IHmap & IHlen)]; [by repeat split|].
  cbn [filter_map List.length].
  destruct (video_of_item item) as [video|] eqn:Hvideo.
  - apply video_of_item_videoId in Hvideo as [Hid Hne]. rewrite Hid.
    cbn [List.filter List.map List.length].
    apply Boolean_true_iff in Hne as Htrue. rewrite Htrue.
    split; [by constructor|]. split; [by rewrite IHmap|lia].
  - unfold video_of_item in Hvideo.
    destruct (vi_id item ?> vi_videoId) as [v|]; [|by auto with lia].
    destruct (JsString.Boolean v) eqn:Hv; [done|].
    cbn [List.filter]. rewrite Hv. auto with lia.
Qed.

Lemma synthesize_log (data : RequestData) (channelTitle : string)
    (transcripts : list TranscriptSample) :
  Forall (fun c => is_transcript_call c = false)
         (log_of (synthesize rt w data channelTitle transcripts)).
Proof.
  unfold synthesize. run. repeat (case_match; run); repeat constructor.
Qed.

Lemma filter_no_transcript_call (log : list Call) :
  Forall (fun c => is_transcript_call c = false) log ->
  List.filter is_transcript_call log = [].
Proof.
  induction 1 as [|c log Hc _ IH]; [done|]. cbn [List.filter]. by rewrite Hc.
Qed.

Lemma filter_transcript_calls (videos : list Video) :
  List.filter is_transcript_call
    (List.map (fun video => FetchTranscript (videoId video) "en") videos)
  = List.map (fun video => FetchTranscript (videoId video) "en") videos.
Proof. induction videos as [|video videos IH]; [done|]. cbn. by rewrite IH. Qed.

(** The transcript fetches of the handler are those of the resolved,
    filtered, video list. *)
Lemma pipeline_transcript_calls (data : RequestData)
    (identifier : ChannelIdentifier) (meta : ChannelDetails) :
  outcome (resolveChannelDetails rt w (Some identifier) (youtubeApiKey data)
             (videoCount data)) = Return (Some meta) ->
  List.filter is_transcript_call (log_of (pipeline rt w data identifier))
  = List.map (fun video => FetchTranscript (videoId video) "en") (videos meta).
Proof.
  intros Hmeta. unfold pipeline. run. rewrite Hmeta. run.
  rewrite !List.filter_app.
  rewrite (filter_no_transcript_call _ (resolveChannelDetails_log_fetch rt w _ _ _)).
  rewrite fetchTranscripts_spec. cbn [log_of outcome fst snd].
  rewrite filter_transcript_calls.
  match goal with
  | |- _ ++ _ ++ List.filter _ ?rest = _ =>
      assert (Hrest : List.filter is_transcript_call rest = [])
  end.
  { case_match; run; [done|]. apply filter_no_transcript_call, synthesize_log. }
  rewrite Hrest. cbn [app]. by rewrite app_nil_r.
Qed.

End VideoList.

(** C6 (as amended).  The video list of a resolved channel is the list
    of the items of the video search answer that have a non-empty video
    id, in their order: every entry has a non-empty [videoId], and the
    list is no longer than the answer.  The handler asks the API for at
    most [min(videoCount, 8)] items and does not cut the answer, so the
    list has at most [min(videoCount, 8)] entries whenever the API
    answers no more items than asked.  The transcript fetches of the
    handler are those of the filtered list, one per entry. *)
Theorem resolved_video_list (rt : Runtime) (w : World) (data : RequestData)
    (identifier : ChannelIdentifier) (meta : ChannelDetails) :
  outcome (resolveChannelDetails rt w (Some identifier) (youtubeApiKey data)
             (videoCount data)) = Return (Some meta) ->
  exists videoRes videoJson,
    fetch_videos w (videos_url (cd_channelId meta) (youtubeApiKey data)
                      (videoCount data)) = Return videoRes
    /\ (exists before after,
          videos_url (cd_channelId meta) (youtubeApiKey data) (videoCount data)
          = (before ++ "maxResults=" ++ Number_toString (Z.min (videoCount data) 8)
               ++ after)%string)
    /\ json_body videoRes = Return videoJson
    /\ (let items := default [] (vj_items videoJson) in
        videos meta = filter_map video_of_item items
        /\ Forall (fun video => videoId video <> EmptyString) (videos meta)
        /\ List.map videoId (videos meta)
           = List.filter JsString.Boolean
               (filter_map (fun item => vi_id item ?> vi_videoId) items)
        /\ (List.length (videos meta) <= List.length items)%nat
        /\ (Z.of_nat (List.length items) <= Z.min (videoCount data) 8 ->
            Z.of_nat (List.length (videos meta)) <= Z.min (videoCount data) 8))
    /\ List.filter is_transcript_call (log_of (pipeline rt w data identifier))
       = List.map (fun video => FetchTranscript (videoId video) "en") (videos meta).
Proof.
  intros Hmeta.
  destruct (resolveChannelDetails_resolved rt w _ _ _ _ Hmeta)
    as (channelRes & channelJson & videoRes & videoJson & _ & _ & _ & _ & _ & _
        & Hvideos & _ & Hjson & Hlist).
  exists videoRes, videoJson. split; [done|]. split.
  { unfold videos_url.
    exists (YOUTUBE_API_BASE ++ "/search?part=snippet&channelId="
              ++ cd_channelId meta ++ "&order=date&type=video&")%string,
      ("&key=" ++ youtubeApiKey data)%string.
    rewrite !append_assoc. reflexivity. }
  split; [done|]. split; [|by apply pipeline_transcript_calls].
  cbv zeta. rewrite Hlist.
  destruct (filter_map_video_of_item (default [] (vj_items videoJson)))
    as (Hall & Hmap & Hlen).
  repeat split; try done. lia.
Qed.

Lemma resolved_video_list_witness :
  outcome (resolveChannelDetails Demo.rt Demo.w (Some (Handle "@acme"))
             Demo.apiKey 4)
    = Return (Some {| cd_channelId := "UC123"; channelTitle := "Acme";
                      videos := Demo.videos |})
  /\ Z.of_nat (List.length Demo.videos) <= Z.min 4 8.
Proof.
  assert (Hmeta :
    outcome (resolveChannelDetails Demo.rt Demo.w (Some (Handle "@acme"))
               (youtubeApiKey (Demo.data_of Demo.handle_url 4))
               (videoCount (Demo.data_of Demo.handle_url 4)))
    = Return (Some {| cd_channelId := "UC123"; channelTitle := "Acme";
                      videos := Demo.videos |})) by (vm_compute; reflexivity).
  split; [exact Hmeta|].
  destruct (resolved_video_list Demo.rt Demo.w (Demo.data_of Demo.handle_url 4)
              (Handle "@acme") _ Hmeta)
    as (videoRes & videoJson & Hfetch & _ & Hjson & (_ & _ & _ & _ & Hcap) & _).
  apply Hcap.
  injection Hfetch as <-. injection Hjson as <-. vm_compute. discriminate.
Defined.

(** C6 as stated fails: asked for one video, an API that answers more
    items than it was asked for yields a list of three. *)
Lemma video_list_exceeds_request :
  outcome (resolveChannelDetails Demo.rt Demo.w (Some (Handle "@acme"))
             Demo.apiKey 1)
    = Return (Some {| cd_channelId := "UC123"; channelTitle := "Acme";
                      videos := Demo.videos |})
  /\ ~ (Z.of_nat (List.length Demo.videos) <= Z.min 1 8).
Proof.
  split; [vm_compute; reflexivity|]. vm_compute. intros H. by apply H.
Qed.

(** C9.  For a Custom identifier, when the legacy lookup succeeds with
    at least one item and the first item has no [id], [identifyChannelId]
    returns [null] after that one call, the handler answers 404
    [Unable to find the provided channel.], and no search call is
    issued, whatever the search would have answered. *)
Theorem custom_item_without_id_is_not_found (rt : Runtime) (w : World)
    (request : Request) (body : json) (data : RequestData) (value : string)
    (res : Response UsernameJson) (usernameJson : UsernameJson)
    (item : UsernameItem) (items : list UsernameItem) :
  request_json request = Return body ->
  requestSchema_safeParse body = Some data ->
  extractChannelIdentifier rt (channelUrl data) = Some (Custom value) ->
  fetch_username w (username_url rt value (youtubeApiKey data)) = Return res ->
  ok res = true ->
  json_body res = Return usernameJson ->
  un_items usernameJson = Some (item :: items) ->
  ui_id item = None ->
  identifyChannelId rt w (Some (Custom value)) (youtubeApiKey data)
    = ([Fetch (username_url rt value (youtubeApiKey data))], Return None)
  /\ POST rt w request
     = ([Fetch (username_url rt value (youtubeApiKey data))],
        Return (response 404 "Unable to find the provided channel."))
  /\ Forall (fun c => is_search_call c = false) (log_of (POST rt w request)).
Proof.
  intros Hbody Hdata Hid Hres Hok Hjson Hitems Hnoid.
  pose proof (identifyChannelId_legacy_hit rt w _ _ _ _ _ _ Hres Hok Hjson Hitems)
    as Hidentify.
  rewrite Hnoid in Hidentify. split; [done|].
  assert (HPOST : POST rt w request
                  = ([Fetch (username_url rt value (youtubeApiKey data))],
                     Return (response 404 "Unable to find the provided channel."))).
  { rewrite (POST_runs_pipeline rt w _ _ _ _ Hbody Hdata Hid).
    unfold pipeline, resolveChannelDetails. rewrite Hidentify.
    by_log_and_outcome; by run. }
  split; [done|]. rewrite HPOST. by repeat constructor.
Qed.

Lemma custom_item_without_id_is_not_found_witness :
  POST Demo.rt Demo.w_item_without_id (Demo.request_of Demo.custom_url 3)
    = ([Fetch (username_url Demo.rt "acme" Demo.apiKey)],
       Return (response 404 "Unable to find the provided channel.")).
Proof.
  refine (proj1 (proj2
    (custom_item_without_id_is_not_found Demo.rt Demo.w_item_without_id
       (Demo.request_of Demo.custom_url 3) (Demo.body_of Demo.custom_url 3)
       (Demo.data_of Demo.custom_url 3) "acme"
       {| ok := true; json_body := Return {| un_items := Some [ {| ui_id := None |} ] |} |}
       {| un_items := Some [ {| ui_id := None |} ] |}
       {| ui_id := None |} [] _ _ _ _ _ _ _ _))); vm_compute; reflexivity.
Defined.

(** ** The JSON recovery of the Style Extractor *)

Section JsonRecovery.

Variable rt : Runtime.


Lemma substring_length (s : string) (n m : nat) :
  (n + m <= String.length s)%nat -> String.length (substring n m s) = m.
Proof.
  revert n m; induction s as [|c s IH]; intros [|n] [|m] H; cbn in *;
    try done; try lia.
  - f_equal. apply (IH 0%nat). lia.
  - apply (IH n 0%nat). lia.
  - apply (IH n (S m)). lia.
Qed.

Lemma parseJsonObject_located (text : string) :
  let start := JsString.indexOf text "{" in
  let end_ := JsString.lastIndexOf text "}" in
  start <> -1 -> end_ <> -1 -> start < end_ ->
  let located := substring (Z.to_nat start) (Z.to_nat (end_ - start + 1)) text in
  first_index_of "{" text start
  /\ last_index_of "}" text end_
  /\ Z.of_nat (String.length located) = end_ - start + 1
  /\ parseJsonObject rt text =
       match JSON_parse rt located with
       | Some value => Return value
       | None => Throw (Error "Model response was not valid JSON.")
       end.
Proof.
  intros start end_ Hstart Hend Hlt located.
  destruct (indexOf_char "{" text) as [[? _]|Hfirst]; [done|].
  destruct (lastIndexOf_char "}" text) as [[? _]|Hlast]; [done|].
  fold start in Hfirst. fold end_ in Hlast.
  pose proof (charAt_range _ _ _ (proj1 Hfirst)) as Hs.
  pose proof (charAt_range _ _ _ (proj1 Hlast)) as He.
  split; [done|]. split; [done|]. split.
  - subst located. rewrite substring_length; lia.
  - unfold parseJsonObject. fold start. fold end_.
    destruct (start =? -1) eqn:E1; [lia|].
    destruct (end_ =? -1) eqn:E2; [lia|].
    destruct (end_ <=? start) eqn:E3; [lia|].
    cbn [orb]. rewrite slice_between by lia.
    by replace (end_ + 1 - start) with (end_ - start + 1) by lia.
Qed.

Variable w : World.


End JsonRecovery.



(** C4.  [extractChannelIdentifier] is a function of its argument alone,
    and its result is the one the classification rules give, in their
    order: nothing when the URL does not parse or has no segment; Handle
    of the first segment when that segment is [@] or starts with [@];
    otherwise Id of the second segment when the first is [channel] and a
    second exists; otherwise Custom of the second segment when the first
    is [c] or [user] and a second exists; otherwise Handle of the path
    without its leading slash when the path starts with [/@]; otherwise
    nothing. *)
Theorem extractChannelIdentifier_classification (rt : Runtime) (url : string) :
  classifies (new_URL rt url) (extractChannelIdentifier rt url)
  /\ (forall r, classifies (new_URL rt url) r -> r = extractChannelIdentifier rt url).
Proof.
  split.
  - apply extractChannelIdentifier_follows_rules.
  - apply classifies_is_extractChannelIdentifier.
Qed.

Lemma extractChannelIdentifier_classification_witness :
  classifies (new_URL Demo.rt Demo.custom_url) (Some (Custom "acme"))
  /\ extractChannelIdentifier Demo.rt Demo.custom_url = Some (Custom "acme").
Proof.
  assert (H : classifies (new_URL Demo.rt Demo.custom_url) (Some (Custom "acme"))).
  { apply (classifies_custom {| pathname := "/c/acme" |} "c" "acme" []);
      [reflexivity|left; reflexivity]. }
  split; [exact H|]. symmetry.
  exact (proj2 (extractChannelIdentifier_classification Demo.rt Demo.custom_url) _ H).
Defined.

(** ** The handler on concrete requests *)

Section Examples.

Import Demo.

Example extract_handle :
  extractChannelIdentifier rt "https://www.youtube.com/@acme/videos"
  = Some (Handle "@acme").
Proof. reflexivity. Qed.

Example extract_id :
  extractChannelIdentifier rt "https://www.youtube.com/channel/UC123"
  = Some (Id "UC123").
Proof. reflexivity. Qed.

Example extract_user :
  extractChannelIdentifier rt "https://www.youtube.com/user/acme"
  = Some (Custom "acme").
Proof. reflexivity. Qed.

Example extract_unsupported :
  extractChannelIdentifier rt "https://www.youtube.com/watch" = None
  /\ extractChannelIdentifier rt "https://www.youtube.com" = None
  /\ extractChannelIdentifier rt "not a url" = None.
Proof. repeat split. Qed.

Example legacy_hit :
  identifyChannelId rt w_legacy (Some (Custom "acme")) apiKey
  = ([Fetch (username_url rt "acme" apiKey)], Return (Some "UC999")).
Proof. reflexivity. Qed.

Example legacy_refused :
  identifyChannelId rt w_legacy_refused (Some (Custom "acme")) apiKey
  = ([Fetch (username_url rt "acme" apiKey)],
     Throw (Error "Unable to resolve custom channel URL.")).
Proof. reflexivity. Qed.

Example invalid_json :
  POST rt w {| request_json := Throw (Error "Unexpected token") |}
  = ([], Return (response 400 "Invalid JSON payload.")).
Proof. reflexivity. Qed.

Example nine_videos_rejected :
  POST rt w (request_of handle_url 9)
  = ([], Return (response 400 "Please fill in every field with valid values.")).
Proof. vm_compute. reflexivity. Qed.

Example unknown_channel :
  outcome (POST rt w_unknown (request_of handle_url 3))
  = Return (response 404 "Unable to find the provided channel.").
Proof. vm_compute. reflexivity. Qed.

Example no_transcripts :
  outcome (POST rt w_silent (request_of handle_url 3))
  = Return (response 422 "Transcripts are unavailable for the recent uploads. Try a different channel.").
Proof. vm_compute. reflexivity. Qed.

Example scalar_guidelines :
  outcome (POST rt w_scalar (request_of handle_url 3))
  = Return (response 500 "Failed to build script style.").
Proof. vm_compute. reflexivity. Qed.

(** Seven guidelines from the model, six in the answer; three transcript
    fetches, one sample. *)
Example seven_guidelines :
  exists payload,
    outcome (POST rt w (request_of handle_url 3))
      = Return {| body := ResultBody payload; status := 200 |}
    /\ writingGuidelines payload
       = [JStr "a"; JStr "b"; JStr "c"; JStr "d"; JStr "e"; JStr "f"]
    /\ generatedScript payload = "Once upon a time."
    /\ sampledTranscripts payload
       = [ {| st_videoId := "v1"; st_title := "One";
              excerpt := "Hello world again" |} ]
    /\ List.filter is_transcript_call (log_of (POST rt w (request_of handle_url 3)))
       = [ FetchTranscript "v1" "en"; FetchTranscript "v2" "en";
           FetchTranscript "v3" "en" ].
Proof. eexists. split; [vm_compute; reflexivity|]. repeat split. Qed.

End Examples.

(** * Further properties of the code *)

(** ** What the extractor returns *)

Section ExtractedIdentifier.

Import JsString.

Lemma absent_trimStart (a : ascii) (s : string) :
  absent a s -> absent a (trimStart s).
Proof.
  induction s as [|c s IH]; [done|].
  intros Habs. cbn [trimStart]. destruct (is_ws c); [|done].
  apply absent_cons in Habs as [_ Habs]. by apply IH.
Qed.

Lemma absent_trimEnd (a : ascii) (s : string) :
  absent a s -> absent a (trimEnd s).
Proof.
  induction s as [|c s IH]; [done|].
  intros [Hc Habs]%absent_cons. cbn [trimEnd].
  specialize (IH Habs). destruct (trimEnd s) as [|d t].
  - destruct (is_ws c); [apply absent_nil|].
    apply absent_cons. split; [done|apply absent_nil].
  - by apply absent_cons.
Qed.

Lemma trimEnd_idempotent (s : string) : trimEnd (trimEnd s) = trimEnd s.
Proof.
  induction s as [|c s IH]; [done|]. cbn [trimEnd].
  destruct (trimEnd s) as [|d t] eqn:Hs.
  - destruct (is_ws c) eqn:Hc; [done|]. cbn [trimEnd]. by rewrite Hc.
  - cbn [trimEnd] in *. by rewrite IH.
Qed.

Lemma trimStart_head (s : string) :
  match trimStart s with
  | EmptyString => True
  | String c _ => is_ws c = false
  end.
Proof.
  induction s as [|c s IH]; [done|]. cbn [trimStart].
  by destruct (is_ws c) eqn:Hc.
Qed.

(** Trimming twice is trimming once. *)
Lemma trim_idempotent (s : string) : trim (trim s) = trim s.
Proof.
  unfold trim. pose proof (trimStart_head s) as Hhead.
  destruct (trimStart s) as [|c t]; [done|].
  destruct (trimEnd_cons_non_ws c t Hhead) as [t' Ht'].
  rewrite Ht'. cbn [trimStart]. rewrite Hhead, <- Ht'. apply trimEnd_idempotent.
Qed.

(** Every segment is a trimmed, non-empty piece without slash. *)
Lemma path_segments_wellformed (parsed : URL) (seg : string) :
  In seg (path_segments parsed) ->
  seg <> EmptyString /\ absent "/" seg /\ trim seg = seg.
Proof.
  unfold path_segments. intros [Hin Htrue]%filter_In.
  apply in_map_iff in Hin as (raw & <- & Hraw).
  split; [by apply Boolean_true_iff|]. split; [|apply trim_idempotent].
  apply absent_trimEnd, absent_trimStart.
  pose proof (split_absent "/" (pathname parsed)) as Hall.
  by eapply List.Forall_forall in Hall.
Qed.

(** The identifier is made of the first two segments. *)
Lemma extractChannelIdentifier_from_segments (rt : Runtime) (url : string)
    (identifier : ChannelIdentifier) :
  extractChannelIdentifier rt url = Some identifier ->
  exists parsed seg0 rest,
    new_URL rt url = Some parsed
    /\ path_segments parsed = seg0 :: rest
    /\ ((identifier = Handle seg0 /\ startsWith seg0 "@" = true)
        \/ (exists seg1 rest',
              rest = seg1 :: rest' /\ startsWith seg0 "@" = false
              /\ ((seg0 = "channel" /\ identifier = Id seg1)
                  \/ ((seg0 = "c" \/ seg0 = "user") /\ identifier = Custom seg1)))).
Proof.
  intros Hextract.
  pose proof (extractChannelIdentifier_follows_rules rt url) as Hrules.
  rewrite Hextract in Hrules.
  inversion Hrules as [| |parsed seg0 rest Hsegs Hat|parsed seg1 rest Hsegs
                       |parsed seg0 seg1 rest Hsegs Hc
                       |parsed seg0 rest Hsegs Hstart _ _ Hslash|]; subst.
  - exists parsed, seg0, rest. repeat split; try done. left. split; [done|].
    by destruct Hat as [-> | ?].
  - exists parsed, "channel", (seg1 :: rest). repeat split; try done.
    right. exists seg1, rest. repeat split; try done. by left.
  - exists parsed, seg0, (seg1 :: rest). repeat split; try done.
    right. exists seg1, rest. split; [done|].
    split; [by destruct Hc as [-> | ->]|]. by right.
  - destruct (slash_at_first_segment parsed Hslash) as (seg0' & rest' & Hsegs' & Hat).
    rewrite Hsegs in Hsegs'. injection Hsegs' as <- <-. congruence.
Qed.

End ExtractedIdentifier.

(** X1.  The value of every identifier the extractor returns is not
    empty, holds no slash and has no white space at either end; the
    value of a Handle starts with [@]. *)
Theorem extracted_identifier_wellformed (rt : Runtime) (url : string)
    (identifier : ChannelIdentifier) :
  extractChannelIdentifier rt url = Some identifier ->
  value identifier <> EmptyString
  /\ absent "/" (value identifier)
  /\ JsString.trim (value identifier) = value identifier
  /\ (forall handle, identifier = Handle handle ->
                     JsString.startsWith handle "@" = true).
Proof.
  intros (parsed & seg0 & rest & _ & Hsegs & Hcase)%extractChannelIdentifier_from_segments.
  assert (Hin0 : In seg0 (path_segments parsed)) by (rewrite Hsegs; by left).
  destruct Hcase as [[-> Hat]|(seg1 & rest' & -> & Hstart & Hcase)].
  - destruct (path_segments_wellformed parsed seg0 Hin0) as (? & ? & ?).
    repeat split; try done. by intros handle [= <-].
  - assert (Hin1 : In seg1 (path_segments parsed))
      by (rewrite Hsegs; right; by left).
    destruct (path_segments_wellformed parsed seg1 Hin1) as (? & ? & ?).
    destruct Hcase as [[_ ->]|[_ ->]]; by repeat split.
Qed.

Lemma extracted_identifier_wellformed_witness :
  extractChannelIdentifier Demo.rt "https://www.youtube.com/@acme/videos"
    = Some (Handle "@acme")
  /\ absent "/" "@acme"
  /\ JsString.startsWith "@acme" "@" = true.
Proof.
  assert (H : extractChannelIdentifier Demo.rt "https://www.youtube.com/@acme/videos"
              = Some (Handle "@acme")) by reflexivity.
  split; [exact H|].
  destruct (extracted_identifier_wellformed Demo.rt _ _ H) as (_ & Habs & _ & Hat).
  split; [exact Habs|]. exact (Hat "@acme" eq_refl).
Defined.

(** X2.  Only the first two segments of the path count: two URLs whose
    paths agree on them get the same identifier. *)
Theorem extractChannelIdentifier_first_two_segments (rt : Runtime)
    (url1 url2 : string) (parsed1 parsed2 : URL) :
  new_URL rt url1 = Some parsed1 ->
  new_URL rt url2 = Some parsed2 ->
  take 2 (path_segments parsed1) = take 2 (path_segments parsed2) ->
  extractChannelIdentifier rt url1 = extractChannelIdentifier rt url2.
Proof.
  intros Hurl1 Hurl2 Htake.
  assert (Hdead : forall parsed seg0 rest,
            path_segments parsed = seg0 :: rest ->
            JsString.startsWith seg0 "@" = false ->
            JsString.startsWith (pathname parsed) "/@" = false).
  { intros parsed seg0 rest Hsegs Hstart.
    destruct (JsString.startsWith (pathname parsed) "/@") eqn:Hslash; [|done].
    destruct (slash_at_first_segment parsed Hslash) as (seg0' & rest' & Hsegs' & Hat).
    rewrite Hsegs in Hsegs'. injection Hsegs' as <- <-. congruence. }
  unfold extractChannelIdentifier. rewrite Hurl1, Hurl2. cbv zeta.
  pose proof (path_segments_truthy parsed1) as Hall1.
  pose proof (path_segments_truthy parsed2) as Hall2.
  destruct (path_segments parsed1) as [|seg0 rest1] eqn:Hsegs1;
    destruct (path_segments parsed2) as [|seg0' rest2] eqn:Hsegs2; try done.
  injection Htake as <- Hrest.
  rewrite !(and_truthy_second _ _ _ Hall1), !(and_truthy_second _ _ _ Hall2).
  destruct (String.eqb seg0 "@"); [done|].
  destruct (JsString.startsWith seg0 "@") eqn:Hstart; [done|].
  rewrite (Hdead _ _ _ Hsegs1 Hstart), (Hdead _ _ _ Hsegs2 Hstart).
  destruct rest1 as [|seg1 rest1]; destruct rest2 as [|seg1' rest2]; try done.
  by injection Hrest as <-.
Qed.

Lemma extractChannelIdentifier_first_two_segments_witness :
  extractChannelIdentifier DemoMore.rt "https://www.youtube.com/c/acme/videos"
  = extractChannelIdentifier DemoMore.rt "https://youtu.be/c/acme/".
Proof.
  apply (extractChannelIdentifier_first_two_segments DemoMore.rt _ _
           {| pathname := "/c/acme/videos" |} {| pathname := "/c/acme/" |});
    reflexivity.
Defined.

(** ** The resolver beyond the Custom branch *)

Section Resolver.

Variable rt : Runtime.
Variable w : World.

Lemma substring_0_all (s : string) : substring 0 (String.length s) s = s.
Proof. induction s as [|c s IH]; [done|]. cbn. by rewrite IH. Qed.

(** [s.slice(1)] drops the first code unit. *)
Lemma slice_from_1 (c : ascii) (s : string) :
  JsString.slice_from (String c s) 1 = s.
Proof.
  unfold JsString.slice_from, JsString.slice.
  set (len := Z.of_nat (String.length (String c s))).
  assert (Hlen : len = Z.of_nat (String.length s) + 1)
    by (subst len; cbn [String.length]; lia).
  clearbody len.
  replace (1 <? 0) with false by done.
  destruct (len <? 0) eqn:E; [lia|].
  rewrite Z.min_id, (Z.min_l 1 len) by lia.
  replace (Z.to_nat 1) with 1%nat by done.
  replace (Z.to_nat (len - 1)) with (String.length s) by lia.
  cbn [substring]. destruct (String.length s) eqn:Hs.
  - by destruct s.
  - rewrite <- Hs. apply substring_0_all.
Qed.

(** The run of the Handle branch, by the answer of the search. *)
Lemma identifyChannelId_handle_run (name apiKey : string) :
  identifyChannelId rt w (Some (Handle (String "@" name))) apiKey
  = ([Fetch (search_url rt name apiKey)],
     match fetch_channel_search w (search_url rt name apiKey) with
     | Throw e => Throw e
     | Return searchRes =>
         if ok searchRes
         then match json_body searchRes with
              | Return searchJson => Return (first_channelId searchJson)
              | Throw e => Throw e
              end
         else Throw (Error "Unable to resolve channel handle.")
     end).
Proof.
  cbn [identifyChannelId].
  assert (Hstart : JsString.startsWith (String "@" name) "@" = true)
    by (apply startsWith_char; eauto).
  rewrite Hstart, slice_from_1.
  by_log_and_outcome.
  - run. destruct (fetch_channel_search w _) as [searchRes|e]; run; [|done].
    destruct (ok searchRes); run; [|done]. by destruct (json_body searchRes).
  - run. destruct (fetch_channel_search w _) as [searchRes|e]; run; [|done].
    destruct (ok searchRes); run; [|done]. by destruct (json_body searchRes).
Qed.

(** The run of the Custom branch once the legacy lookup has answered
    no item. *)
Lemma identifyChannelId_custom_fallback_run (name apiKey : string)
    (res : Response UsernameJson) (usernameJson : UsernameJson) :
  fetch_username w (username_url rt name apiKey) = Return res ->
  ok res = true ->
  json_body res = Return usernameJson ->
  un_items usernameJson = None \/ un_items usernameJson = Some [] ->
  identifyChannelId rt w (Some (Custom name)) apiKey
  = ([Fetch (username_url rt name apiKey); Fetch (search_url rt name apiKey)],
     match fetch_channel_search w (search_url rt name apiKey) with
     | Throw e => Throw e
     | Return searchRes =>
         if ok searchRes
         then match json_body searchRes with
              | Return searchJson => Return (first_channelId searchJson)
              | Throw e => Throw e
              end
         else Throw (Error "Unable to resolve custom channel URL.")
     end).
Proof.
  intros Hres Hok Hjson Hitems. cbn [identifyChannelId].
  by_log_and_outcome.
  - run_world.
    destruct Hitems as [Hitems | Hitems]; rewrite Hitems; run;
      (destruct (fetch_channel_search w _) as [searchRes|e]; run; [|done];
       destruct (ok searchRes); run; [|done]; by destruct (json_body searchRes)).
  - run_world.
    destruct Hitems as [Hitems | Hitems]; rewrite Hitems; run;
      (destruct (fetch_channel_search w _) as [searchRes|e]; run; [|done];
       destruct (ok searchRes); run; [|done]; by destruct (json_body searchRes)).
Qed.

End Resolver.

(** X3.  For a Handle [@name], [identifyChannelId] issues one call, the
    channel search for [name] without its [@]: it rethrows what the
    call throws, throws [Unable to resolve channel handle.] on a
    non-success status, and otherwise returns the channel id of the
    first result, [null] when there is none. *)
Theorem identifyChannelId_handle (rt : Runtime) (w : World) (name apiKey : string) :
  let search := search_url rt name apiKey in
  let run := identifyChannelId rt w (Some (Handle (String "@" name))) apiKey in
  log_of run = [Fetch search]
  /\ (forall e, fetch_channel_search w search = Throw e -> outcome run = Throw e)
  /\ (forall searchRes,
        fetch_channel_search w search = Return searchRes ->
        ok searchRes = false ->
        outcome run = Throw (Error "Unable to resolve channel handle."))
  /\ (forall searchRes searchJson,
        fetch_channel_search w search = Return searchRes ->
        ok searchRes = true ->
        json_body searchRes = Return searchJson ->
        outcome run = Return (first_channelId searchJson)
        /\ (forall first others,
              cs_items searchJson = Some (first :: others) ->
              outcome run = Return (csi_id first ?> channelId))
        /\ (cs_items searchJson = None \/ cs_items searchJson = Some [] ->
            outcome run = Return None)).
Proof.
  intros search run. subst run search. rewrite identifyChannelId_handle_run.
  cbn [log_of outcome fst snd]. split; [done|]. split; [|split].
  - by intros e ->.
  - by intros searchRes -> ->.
  - intros searchRes searchJson -> -> ->. split; [done|]. split.
    + intros first others Hfirst. unfold first_channelId. by rewrite Hfirst.
    + intros Hnone. unfold first_channelId. by destruct Hnone as [-> | ->].
Qed.

Lemma identifyChannelId_handle_witness :
  fetch_channel_search Demo.w (search_url Demo.rt "acme" Demo.apiKey)
    = Demo.answers Demo.found_channel
  /\ identifyChannelId Demo.rt Demo.w (Some (Handle "@acme")) Demo.apiKey
     = ([Fetch (search_url Demo.rt "acme" Demo.apiKey)], Return (Some "UC123")).
Proof.
  split; [reflexivity|].
  destruct (identifyChannelId_handle Demo.rt Demo.w "acme" Demo.apiKey)
    as (Hlog & _ & _ & Hok).
  destruct (Hok _ Demo.found_channel eq_refl eq_refl eq_refl) as (Hout & _).
  rewrite (M_eta (identifyChannelId _ _ _ _)). rewrite Hlog, Hout. reflexivity.
Defined.

(** X4.  A Custom name whose legacy lookup answers no item resolves as
    the Handle [@name] does: after the lookup the same search is issued,
    and unless the search answers a non-success status the outcome is
    the same. *)
Theorem custom_fallback_is_handle_search (rt : Runtime) (w : World)
    (name apiKey : string) (res : Response UsernameJson)
    (usernameJson : UsernameJson) :
  fetch_username w (username_url rt name apiKey) = Return res ->
  ok res = true ->
  json_body res = Return usernameJson ->
  un_items usernameJson = None \/ un_items usernameJson = Some [] ->
  log_of (identifyChannelId rt w (Some (Custom name)) apiKey)
  = Fetch (username_url rt name apiKey)
      :: log_of (identifyChannelId rt w (Some (Handle (String "@" name))) apiKey)
  /\ ((forall searchRes,
          fetch_channel_search w (search_url rt name apiKey) = Return searchRes ->
          ok searchRes = true) ->
      outcome (identifyChannelId rt w (Some (Custom name)) apiKey)
      = outcome (identifyChannelId rt w (Some (Handle (String "@" name))) apiKey)).
Proof.
  intros Hres Hok Hjson Hitems.
  rewrite (identifyChannelId_custom_fallback_run rt w _ _ _ _ Hres Hok Hjson Hitems).
  rewrite identifyChannelId_handle_run. cbn [log_of outcome fst snd].
  split; [done|]. intros Hsearch.
  destruct (fetch_channel_search w (search_url rt name apiKey)) as [searchRes|e];
    [|done].
  by rewrite (Hsearch searchRes eq_refl).
Qed.

Lemma custom_fallback_is_handle_search_witness :
  outcome (identifyChannelId Demo.rt Demo.w (Some (Custom "acme")) Demo.apiKey)
  = outcome (identifyChannelId Demo.rt Demo.w (Some (Handle "@acme")) Demo.apiKey).
Proof.
  refine (proj2 (custom_fallback_is_handle_search Demo.rt Demo.w "acme" Demo.apiKey
                   {| ok := true; json_body := Return {| un_items := Some [] |} |}
                   {| un_items := Some [] |} eq_refl eq_refl eq_refl
                   (or_intror eq_refl)) _).
  intros searchRes Hsearch. injection Hsearch as <-. reflexivity.
Defined.

(** ** The calls of the handler *)

Section Calls.

Variable rt : Runtime.
Variable w : World.

Lemma search_url_youtube (query apiKey : string) :
  youtube_url apiKey (search_url rt query apiKey).
Proof.
  exists ("/search?part=snippet&type=channel&maxResults=1&q="
            ++ encodeURIComponent rt query)%string.
  unfold search_url. by rewrite !append_assoc.
Qed.

Lemma username_url_youtube (name apiKey : string) :
  youtube_url apiKey (username_url rt name apiKey).
Proof.
  exists ("/channels?part=id&forUsername=" ++ encodeURIComponent rt name)%string.
  unfold username_url. by rewrite !append_assoc.
Qed.

Lemma channel_url_youtube (channelId apiKey : string) :
  youtube_url apiKey (channel_url channelId apiKey).
Proof.
  exists ("/channels?part=snippet&id=" ++ channelId)%string.
  unfold channel_url. by rewrite !append_assoc.
Qed.

Lemma videos_url_youtube (channelId apiKey : string) (videoCount : Z) :
  youtube_url apiKey (videos_url channelId apiKey videoCount).
Proof.
  exists ("/search?part=snippet&channelId=" ++ channelId
            ++ "&order=date&type=video&maxResults="
            ++ Number_toString (Z.min videoCount 8))%string.
  unfold videos_url. by rewrite !append_assoc.
Qed.

Ltac youtube_call :=
  eexists; split; [reflexivity|];
  first [ apply search_url_youtube | apply username_url_youtube
        | apply channel_url_youtube | apply videos_url_youtube ].

Lemma identifyChannelId_youtube_log (identifier : option ChannelIdentifier)
    (apiKey : string) :
  youtube_log apiKey 2 (log_of (identifyChannelId rt w identifier apiKey)).
Proof.
  unfold youtube_log.
  destruct identifier as [[value|value|value]|]; cbn [identifyChannelId];
    run; repeat (case_match; run);
    (split; [repeat (constructor; [youtube_call|]); constructor
            |cbn [List.length]; lia]).
Qed.

Lemma resolveChannelDetails_youtube_log (identifier : option ChannelIdentifier)
    (apiKey : string) (videoCount : Z) :
  youtube_log apiKey 4
    (log_of (resolveChannelDetails rt w identifier apiKey videoCount)).
Proof.
  destruct (identifyChannelId_youtube_log identifier apiKey) as [Hall Hlen].
  unfold youtube_log, resolveChannelDetails. run. rewrite Forall_app, length_app.
  repeat (case_match; run);
    (split; [split; [done|repeat (constructor; [youtube_call|]); constructor]
            |cbn [List.length]; lia]).
Qed.

Lemma synthesize_model_log (data : RequestData) (channelTitle : string)
    (transcripts : list TranscriptSample) :
  model_log data (log_of (synthesize rt w data channelTitle transcripts)).
Proof.
  unfold model_log, synthesize. run.
  repeat (case_match; run);
    (split; [repeat (constructor; [by eexists _, _|]); constructor
            |cbn [List.length]; lia]).
Qed.

Lemma fetchTranscripts_returns (videos : list Video) :
  exists samples, outcome (fetchTranscripts w videos) = Return samples.
Proof. rewrite fetchTranscripts_spec. by eexists. Qed.

(** The log of the [try] block, phase by phase. *)
Lemma pipeline_log (data : RequestData) (identifier : ChannelIdentifier) :
  log_of (pipeline rt w data identifier)
  = log_of (resolveChannelDetails rt w (Some identifier) (youtubeApiKey data)
              (videoCount data))
    ++ match outcome (resolveChannelDetails rt w (Some identifier)
                        (youtubeApiKey data) (videoCount data)) with
       | Return (Some meta) =>
           List.map (fun video => FetchTranscript (videoId video) "en") (videos meta)
           ++ match outcome (fetchTranscripts w (videos meta)) with
              | Return (sample :: samples) =>
                  log_of (synthesize rt w data (channelTitle meta) (sample :: samples))
              | _ => []
              end
       | _ => []
       end.
Proof.
  unfold pipeline. run. f_equal.
  destruct (outcome (resolveChannelDetails rt w _ _ _)) as [[meta|]|e]; run; try done.
  rewrite fetchTranscripts_spec. cbn [log_of outcome fst snd]. f_equal.
  by case_match; run.
Qed.

Lemma POST_accepted (request : Request) (data : RequestData)
    (identifier : ChannelIdentifier) :
  accepted rt request data identifier ->
  log_of (POST rt w request) = log_of (pipeline rt w data identifier)
  /\ outcome (POST rt w request)
     = match outcome (pipeline rt w data identifier) with
       | Return r => Return r
       | Throw e => Return (error_response e)
       end.
Proof.
  intros (body & Hbody & Hdata & Hid).
  rewrite (POST_runs_pipeline rt w _ _ _ _ Hbody Hdata Hid). split.
  - run. destruct (outcome (pipeline rt w data identifier)); run;
      by rewrite app_nil_r.
  - run. by destruct (outcome (pipeline rt w data identifier)).
Qed.

(** A request is accepted, or answered 400 without any call. *)
Lemma POST_accepted_or_rejected (request : Request) :
  (exists data identifier, accepted rt request data identifier)
  \/ (exists message, POST rt w request = ([], Return (response 400 message))).
Proof.
  unfold POST, accepted.
  destruct (request_json request) as [body|e]; [|right; by eexists].
  destruct (requestSchema_safeParse body) as [data|] eqn:Hdata; [|right; by eexists].
  destruct (extractChannelIdentifier rt (channelUrl data)) as [identifier|] eqn:Hid;
    [|right; by eexists].
  left. exists data, identifier, body. by repeat split.
Qed.

(** The four ways the [try] block ends. *)
Lemma pipeline_cases (data : RequestData) (identifier : ChannelIdentifier) :
  let resolved :=
    resolveChannelDetails rt w (Some identifier) (youtubeApiKey data)
      (videoCount data) in
  let transcript_calls (meta : ChannelDetails) :=
    List.map (fun video => FetchTranscript (videoId video) "en") (videos meta) in
  (exists e,
      outcome resolved = Throw e
      /\ outcome (pipeline rt w data identifier) = Throw e
      /\ log_of (pipeline rt w data identifier) = log_of resolved)
  \/ (outcome resolved = Return None
      /\ outcome (pipeline rt w data identifier)
         = Return (response 404 "Unable to find the provided channel.")
      /\ log_of (pipeline rt w data identifier) = log_of resolved)
  \/ (exists meta,
        outcome resolved = Return (Some meta)
        /\ outcome (fetchTranscripts w (videos meta)) = Return []
        /\ outcome (pipeline rt w data identifier)
           = Return (response 422 "Transcripts are unavailable for the recent uploads. Try a different channel.")
        /\ log_of (pipeline rt w data identifier)
           = log_of resolved ++ transcript_calls meta)
  \/ (exists meta sample samples,
        outcome resolved = Return (Some meta)
        /\ outcome (fetchTranscripts w (videos meta)) = Return (sample :: samples)
        /\ outcome (pipeline rt w data identifier)
           = outcome (synthesize rt w data (channelTitle meta) (sample :: samples))
        /\ log_of (pipeline rt w data identifier)
           = log_of resolved ++ transcript_calls meta
               ++ log_of (synthesize rt w data (channelTitle meta)
                            (sample :: samples))).
Proof.
  intros resolved transcript_calls. subst resolved transcript_calls.
  rewrite pipeline_outcome, pipeline_log.
  destruct (outcome (resolveChannelDetails rt w _ _ _)) as [[meta|]|e].
  - destruct (fetchTranscripts_returns (videos meta)) as [samples Hsamples].
    rewrite Hsamples. destruct samples as [|sample samples].
    + right; right; left. exists meta. by rewrite app_nil_r.
    + right; right; right. by exists meta, sample, samples.
  - right; left. by rewrite app_nil_r.
  - left. exists e. by rewrite app_nil_r.
Qed.

(** The two model calls of a returned payload. *)
Lemma synthesize_returned_log (data : RequestData) (channelTitle : string)
    (transcripts : list TranscriptSample) (r : NextResponse) :
  outcome (synthesize rt w data channelTitle transcripts) = Return r ->
  status r = 200
  /\ (exists payload, body r = ResultBody payload)
  /\ exists style_call script_call,
       log_of (synthesize rt w data channelTitle transcripts)
       = [style_call; script_call]
       /\ is_model_call style_call = true
       /\ is_model_call script_call = true.
Proof.
  intros Hr.
  pose proof Hr as Hshape.
  apply synthesize_returned in Hshape
    as (styleText & parsedStyle & guidelines & scriptText & Hstyle & Htext & Hparse
        & Hprop & Hscript & Htrim & ->).
  split; [done|]. split; [by eexists|].
  unfold synthesize. run. rewrite Hstyle. run. cbn [and_truthy output_text].
  apply Boolean_true_iff in Htext. rewrite Htext. run. rewrite Hparse. run.
  assert (Hget : get_property parsedStyle "writingGuidelines"
                 = Return (Some (JArr guidelines))).
  { destruct parsedStyle; try done. cbn [get_property]. by rewrite Hprop. }
  rewrite Hget. run. rewrite Hscript. run.
  cbn [option_map and_truthy output_text].
  apply Boolean_true_iff in Htrim. rewrite Htrim. run.
  eexists _, _. by split.
Qed.

End Calls.

Section Answers.

Variable rt : Runtime.
Variable w : World.

Lemma extracted_value_nonempty (url : string) (identifier : ChannelIdentifier) :
  extractChannelIdentifier rt url = Some identifier ->
  value identifier <> EmptyString.
Proof.
  intros (parsed & seg0 & rest & _ & Hsegs & Hcase)%extractChannelIdentifier_from_segments.
  pose proof (path_segments_truthy parsed) as Hall. rewrite Hsegs in Hall.
  inversion Hall as [|? ? Hseg0 Hrest]; subst.
  destruct Hcase as [[-> _]|(seg1 & rest' & -> & _ & Hcase)]; [done|].
  inversion Hrest as [|? ? Hseg1 _]; subst.
  by destruct Hcase as [[_ ->]|[_ ->]].
Qed.

(** The first call of an accepted request. *)
Lemma resolveChannelDetails_first_call (url : string)
    (identifier : ChannelIdentifier) (apiKey : string) (videoCount : Z) :
  extractChannelIdentifier rt url = Some identifier ->
  exists first calls,
    log_of (resolveChannelDetails rt w (Some identifier) apiKey videoCount)
    = Fetch first :: calls
    /\ (forall id, identifier = Id id -> first = channel_url id apiKey).
Proof.
  intros Hne%extracted_value_nonempty. unfold resolveChannelDetails.
  destruct identifier as [id|handle|name]; cbn [identifyChannelId value] in *.
  - apply Boolean_true_iff in Hne. run. rewrite Hne. run.
    eexists _, _. split; [done|]. by intros ? [= <-].
  - run. eexists _, _. split; [done|]. by intros ? [=].
  - run. eexists _, _. split; [done|]. by intros ? [=].
Qed.

Lemma error_response_body (error : exn) :
  exists message, body (error_response error) = ErrorBody message.
Proof. unfold error_response. by eexists. Qed.

(** The answer and the log of an accepted request, case by case. *)
Lemma POST_accepted_cases (request : Request) (data : RequestData)
    (identifier : ChannelIdentifier) :
  accepted rt request data identifier ->
  let resolved :=
    resolveChannelDetails rt w (Some identifier) (youtubeApiKey data)
      (videoCount data) in
  let transcript_calls (meta : ChannelDetails) :=
    List.map (fun video => FetchTranscript (videoId video) "en") (videos meta) in
  exists r models,
    outcome (POST rt w request) = Return r
    /\ ((exists message, body r = ErrorBody message)
        /\ (status r = 429 \/ status r = 401 \/ status r = 500)
        /\ (exists transcripts,
              log_of (POST rt w request) = log_of resolved ++ transcripts ++ models
              /\ Forall (fun c => is_transcript_call c = true) transcripts
              /\ (models <> [] -> transcripts <> []))
        \/ (r = response 404 "Unable to find the provided channel."
            /\ log_of (POST rt w request) = log_of resolved
            /\ models = [])
        \/ (exists meta,
              r = response 422 "Transcripts are unavailable for the recent uploads. Try a different channel."
              /\ log_of (POST rt w request) = log_of resolved ++ transcript_calls meta
              /\ models = [])
        \/ (exists meta payload,
              r = {| body := ResultBody payload; status := 200 |}
              /\ transcript_calls meta <> []
              /\ log_of (POST rt w request)
                 = log_of resolved ++ transcript_calls meta ++ models
              /\ List.length models = 2%nat))
    /\ model_log data models.
Proof.
  intros Haccepted resolved transcript_calls. subst resolved transcript_calls.
  destruct (POST_accepted rt w _ _ _ Haccepted) as [Hlog Hout].
  rewrite Hlog, Hout.
  assert (Hnil : model_log data []) by (split; [constructor|cbn; lia]).
  assert (Hcalls : forall videos,
            Forall (fun c => is_transcript_call c = true)
              (List.map (fun video => FetchTranscript (videoId video) "en") videos)).
  { intros videos. induction videos; by constructor. }
  destruct (pipeline_cases rt w data identifier)
    as [(e & _ & -> & ->)|[(_ & -> & ->)|[(meta & _ & _ & -> & ->)
        |(meta & sample & samples & Hmeta & Hsamples & -> & ->)]]].
  - eexists _, []. split; [done|]. split; [|done]. left.
    split; [apply error_response_body|]. split; [apply error_response_status|].
    exists []. by rewrite !app_nil_r.
  - eexists _, []. split; [done|]. split; [|done]. right; left. by repeat split.
  - eexists _, []. split; [done|]. split; [|done]. right; right; left.
    exists meta. by repeat split.
  - assert (Hvideos : videos meta <> []).
    { intros Hnil'. rewrite Hnil' in Hsamples. by rewrite fetchTranscripts_spec in Hsamples. }
    assert (Hne : List.map (fun video => FetchTranscript (videoId video) "en")
                    (videos meta) <> []).
    { by destruct (videos meta). }
    pose proof (synthesize_model_log rt w data (channelTitle meta) (sample :: samples))
      as Hmodels.
    destruct (outcome (synthesize rt w data (channelTitle meta) (sample :: samples)))
      as [r|e] eqn:Hsynth.
    + destruct (synthesize_returned_log rt w _ _ _ _ Hsynth)
        as (Hstatus & [payload Hbody] & style_call & script_call & Hlog' & _).
      eexists _, _. split; [done|]. split; [|done].
      right; right; right. exists meta, payload. split; [by destruct r; simplify_eq/=|].
      split; [done|]. split; [done|]. by rewrite Hlog'.
    + eexists _, _. split; [done|]. split; [|done]. left.
      split; [apply error_response_body|]. split; [apply error_response_status|].
      eexists. split; [done|]. split; [apply Hcalls|done].
Qed.

End Answers.

Lemma error_answer_shape (r : NextResponse) (message : string) :
  body r = ErrorBody message ->
  In (status r) [400; 401; 404; 422; 429; 500] ->
  In (status r) [200; 400; 401; 404; 422; 429; 500]
  /\ (status r = 200 <-> exists payload, body r = ResultBody payload)
  /\ (status r <> 200 <-> exists message, body r = ErrorBody message).
Proof.
  intros Hbody Hstatus. split; [by right|]. split.
  - split.
    + intros H200. rewrite H200 in Hstatus. cbn in Hstatus.
      by repeat destruct Hstatus as [?|Hstatus].
    + intros [payload Hpayload]. congruence.
  - split; [by eexists|]. intros _ H200. rewrite H200 in Hstatus.
    cbn in Hstatus. by repeat destruct Hstatus as [?|Hstatus].
Qed.

(** X5.  The handler answers with one of seven statuses, and the body is
    the payload exactly when the status is 200; every other answer
    carries an error message. *)
Theorem POST_answer_shape (rt : Runtime) (w : World) (request : Request) :
  exists r,
    outcome (POST rt w request) = Return r
    /\ In (status r) [200; 400; 401; 404; 422; 429; 500]
    /\ (status r = 200 <-> exists payload, body r = ResultBody payload)
    /\ (status r <> 200 <-> exists message, body r = ErrorBody message).
Proof.
  destruct (POST_accepted_or_rejected rt w request)
    as [(data & identifier & Haccepted)|[message Hrejected]].
  - destruct (POST_accepted_cases rt w _ _ _ Haccepted)
      as (r & models & Hr & Hcases & _).
    exists r. split; [done|].
    destruct Hcases as [([message Hbody] & Hstatus & _)|[(-> & _)|[(meta & -> & _)
                       |(meta & payload & -> & _)]]].
    + apply (error_answer_shape r message Hbody).
      destruct Hstatus as [-> |[-> | ->]]; cbn; tauto.
    + eapply error_answer_shape; [done|]. cbn; tauto.
    + eapply error_answer_shape; [done|]. cbn; tauto.
    + cbn. split; [tauto|]. split; split; try done.
      * by eexists.
      * by intros [? [=]].
  - rewrite Hrejected. eexists. split; [done|].
    eapply error_answer_shape; [done|]. cbn; tauto.
Qed.

(** X6.  The handler touches the network exactly when the request is
    accepted: an answer has status 400 if and only if no call at all was
    issued. *)
Theorem POST_rejects_before_any_call (rt : Runtime) (w : World) (request : Request)
    (r : NextResponse) :
  outcome (POST rt w request) = Return r ->
  (status r = 400 <-> log_of (POST rt w request) = []).
Proof.
  intros Hr.
  destruct (POST_accepted_or_rejected rt w request)
    as [(data & identifier & Haccepted)|[message Hrejected]].
  - destruct (POST_accepted_cases rt w _ _ _ Haccepted)
      as (r' & models & Hr' & Hcases & _).
    rewrite Hr in Hr'. injection Hr' as <-.
    destruct Haccepted as (body & _ & _ & Hid).
    destruct (resolveChannelDetails_first_call rt w _ _ (youtubeApiKey data)
                (videoCount data) Hid) as (first & calls & Hfirst & _).
    destruct Hcases as [(_ & Hstatus & transcripts & -> & _)|[(-> & -> & _)
                       |[(meta & -> & -> & _)|(meta & payload & -> & _ & -> & _)]]];
      rewrite Hfirst; (split; [|done]).
    + by destruct Hstatus as [-> |[-> | ->]].
    + done.
    + done.
    + done.
  - rewrite Hrejected in Hr |- *. by injection Hr as <-.
Qed.

Lemma POST_rejects_before_any_call_witness :
  outcome (POST Demo.rt Demo.w (Demo.request_of Demo.handle_url 9))
    = Return (response 400 "Please fill in every field with valid values.")
  /\ log_of (POST Demo.rt Demo.w (Demo.request_of Demo.handle_url 9)) = [].
Proof.
  assert (H : outcome (POST Demo.rt Demo.w (Demo.request_of Demo.handle_url 9))
              = Return (response 400 "Please fill in every field with valid values."))
    by (vm_compute; reflexivity).
  split; [exact H|].
  exact (proj1 (POST_rejects_before_any_call Demo.rt Demo.w _ _ H) eq_refl).
Defined.

(** X7.  The calls of one request come in three phases, in this order:
    at most four fetches of the YouTube Data API, then the transcript
    requests, then at most two model calls; a model call is issued only
    after at least one transcript request. *)
Theorem POST_call_phases (rt : Runtime) (w : World) (request : Request) :
  exists fetches transcripts models,
    log_of (POST rt w request) = fetches ++ transcripts ++ models
    /\ Forall (fun c => is_fetch_call c = true) fetches
    /\ (List.length fetches <= 4)%nat
    /\ Forall (fun c => is_transcript_call c = true) transcripts
    /\ Forall (fun c => is_model_call c = true) models
    /\ (List.length models <= 2)%nat
    /\ (models <> [] -> transcripts <> []).
Proof.
  destruct (POST_accepted_or_rejected rt w request)
    as [(data & identifier & Haccepted)|[message Hrejected]].
  - destruct (POST_accepted_cases rt w _ _ _ Haccepted)
      as (r & models & _ & Hcases & Hall & Hlen).
    destruct (resolveChannelDetails_youtube_log rt w (Some identifier)
                (youtubeApiKey data) (videoCount data)) as [Hfetches Hfour].
    assert (Hfetch : Forall (fun c => is_fetch_call c = true)
              (log_of (resolveChannelDetails rt w (Some identifier)
                         (youtubeApiKey data) (videoCount data)))).
    { eapply Forall_impl; [exact Hfetches|]. by intros c (url & -> & _). }
    assert (Hmodel : Forall (fun c => is_model_call c = true) models).
    { eapply Forall_impl; [exact Hall|]. by intros c (system & user & ->). }
    assert (Hcalls : forall videos,
              Forall (fun c => is_transcript_call c = true)
                (List.map (fun video => FetchTranscript (videoId video) "en") videos)).
    { intros videos. induction videos; by constructor. }
    set (fetches := log_of (resolveChannelDetails rt w (Some identifier)
                                (youtubeApiKey data) (videoCount data))) in *.
    destruct Hcases as [(_ & _ & transcripts & -> & Htr & Hne)|[(_ & -> & ->)
                       |[(meta & _ & -> & ->)|(meta & payload & _ & Hne & -> & _)]]].
    + by exists fetches, transcripts, models.
    + exists fetches, [], []. rewrite !app_nil_r. by repeat split.
    + exists fetches,
        (List.map (fun video => FetchTranscript (videoId video) "en") (videos meta)),
        [].
      rewrite !app_nil_r. by repeat split.
    + exists fetches,
        (List.map (fun video => FetchTranscript (videoId video) "en") (videos meta)),
        models.
      by repeat split.
  - rewrite Hrejected. exists [], [], []. repeat split; try done; cbn; lia.
Qed.

(** X8.  Every call of an accepted body uses the credentials of that
    body and nothing else: a fetch goes to the YouTube Data API with the
    YouTube key as last parameter, a transcript is asked in English, and
    a model call uses [gpt-4o-mini] with the OpenAI key. *)
Theorem POST_calls_use_request_keys (rt : Runtime) (w : World) (request : Request)
    (body : json) (data : RequestData) :
  request_json request = Return body ->
  requestSchema_safeParse body = Some data ->
  Forall (call_of_request data) (log_of (POST rt w request)).
Proof.
  intros Hbody Hdata.
  destruct (extractChannelIdentifier rt (channelUrl data)) as [identifier|] eqn:Hid;
    cycle 1.
  { unfold POST. rewrite Hbody, Hdata, Hid. constructor. }
  assert (Haccepted : accepted rt request data identifier) by by exists body.
  destruct (POST_accepted_cases rt w _ _ _ Haccepted)
    as (r & models & _ & Hcases & Hall & _).
  destruct (resolveChannelDetails_youtube_log rt w (Some identifier)
              (youtubeApiKey data) (videoCount data)) as [Hfetches _].
  assert (Hfetch : Forall (call_of_request data)
            (log_of (resolveChannelDetails rt w (Some identifier)
                       (youtubeApiKey data) (videoCount data)))).
  { eapply Forall_impl; [exact Hfetches|]. by intros c (url & -> & ?). }
  assert (Hmodel : Forall (call_of_request data) models).
  { eapply Forall_impl; [exact Hall|]. by intros c (system & user & ->). }
  assert (Hcalls : forall videos,
            Forall (call_of_request data)
              (List.map (fun video => FetchTranscript (videoId video) "en") videos)).
  { intros videos. induction videos; by constructor. }
  pose proof (POST_accepted rt w _ _ _ Haccepted) as [Hlog _].
  rewrite Hlog, pipeline_log. apply Forall_app. split; [done|].
  destruct (outcome (resolveChannelDetails rt w _ _ _)) as [[meta|]|e];
    [|constructor..].
  apply Forall_app. split; [done|].
  destruct (outcome (fetchTranscripts w (videos meta))) as [[|sample samples]|e];
    [constructor| |constructor].
  destruct (synthesize_model_log rt w data (channelTitle meta) (sample :: samples))
    as [Hsynth _].
  eapply Forall_impl; [exact Hsynth|]. by intros c (system & user & ->).
Qed.

Lemma POST_calls_use_request_keys_witness :
  Forall (call_of_request (Demo.data_of Demo.handle_url 3))
         (log_of (POST Demo.rt Demo.w (Demo.request_of Demo.handle_url 3))).
Proof.
  apply (POST_calls_use_request_keys Demo.rt Demo.w _
           (Demo.body_of Demo.handle_url 3)); vm_compute; reflexivity.
Defined.

(** X9.  A 400, 404 or 422 answer is produced without any model call; a
    200 answer after exactly two. *)
Theorem POST_model_calls (rt : Runtime) (w : World) (request : Request)
    (r : NextResponse) :
  outcome (POST rt w request) = Return r ->
  (status r = 400 \/ status r = 404 \/ status r = 422 ->
   List.filter is_model_call (log_of (POST rt w request)) = [])
  /\ (status r = 200 ->
      List.length (List.filter is_model_call (log_of (POST rt w request))) = 2%nat).
Proof.
  intros Hr.
  assert (Hnone : forall (P : Call -> Prop) log,
            (forall c, P c -> is_model_call c = false) ->
            Forall P log -> List.filter is_model_call log = []).
  { intros P log HP. induction 1 as [|c log Hc _ IH]; [done|].
    cbn [List.filter]. by rewrite (HP c Hc). }
  assert (Hcalls : forall videos,
            List.filter is_model_call
              (List.map (fun video => FetchTranscript (videoId video) "en") videos)
            = []).
  { intros videos. induction videos; by cbn. }
  destruct (POST_accepted_or_rejected rt w request)
    as [(data & identifier & Haccepted)|[message Hrejected]].
  - destruct (POST_accepted_cases rt w _ _ _ Haccepted)
      as (r' & models & Hr' & Hcases & Hall & _).
    rewrite Hr in Hr'. injection Hr' as <-.
    destruct (resolveChannelDetails_youtube_log rt w (Some identifier)
                (youtubeApiKey data) (videoCount data)) as [Hfetches _].
    assert (Hfetch : List.filter is_model_call
              (log_of (resolveChannelDetails rt w (Some identifier)
                         (youtubeApiKey data) (videoCount data))) = []).
    { eapply Hnone; [|exact Hfetches]. by intros c (url & -> & _). }
    assert (Hmodels : List.filter is_model_call models = models).
    { clear -Hall. induction Hall as [|c log (system & user & ->) _ IH]; [done|].
      cbn [List.filter is_model_call]. by rewrite IH. }
    destruct Hcases as [(_ & Hstatus & _)|[(-> & -> & _)|[(meta & -> & -> & _)
                       |(meta & payload & -> & _ & -> & Hlen)]]].
    + split; [intros [H|[H|H]]|intros H]; rewrite H in Hstatus;
        by destruct Hstatus as [?|[?|?]].
    + split; [|done]. by rewrite Hfetch.
    + split; [|done]. by rewrite List.filter_app, Hfetch, Hcalls.
    + split; [by intros [?|[?|?]]|]. intros _.
      by rewrite !List.filter_app, Hfetch, Hcalls, Hmodels.
  - rewrite Hrejected in Hr |- *. injection Hr as <-. by split.
Qed.

Lemma POST_model_calls_witness :
  outcome (POST Demo.rt Demo.w_silent (Demo.request_of Demo.handle_url 3))
    = Return (response 422 "Transcripts are unavailable for the recent uploads. Try a different channel.")
  /\ List.filter is_model_call
       (log_of (POST Demo.rt Demo.w_silent (Demo.request_of Demo.handle_url 3))) = [].
Proof.
  assert (H : outcome (POST Demo.rt Demo.w_silent (Demo.request_of Demo.handle_url 3))
              = Return (response 422 "Transcripts are unavailable for the recent uploads. Try a different channel."))
    by (vm_compute; reflexivity).
  split; [exact H|].
  apply (proj1 (POST_model_calls Demo.rt Demo.w_silent _ _ H)).
  right; right; reflexivity.
Defined.

(** ** Failures of the channel and video lookups *)

Section Lookups.

Variable rt : Runtime.
Variable w : World.

Lemma resolveChannelDetails_id_not_null (id apiKey : string) (videoCount : Z) :
  id <> EmptyString ->
  outcome (resolveChannelDetails rt w (Some (Id id)) apiKey videoCount)
  <> Return None.
Proof.
  intros Hid%Boolean_true_iff. unfold resolveChannelDetails.
  cbn [identifyChannelId]. run. rewrite Hid. run.
  repeat (case_match; run); done.
Qed.

(** The run of the resolver once the channel id is known, by the answer
    of the metadata call. *)
Lemma resolveChannelDetails_metadata_refused (identifier : ChannelIdentifier)
    (apiKey channelId : string) (videoCount : Z) (res : Response ChannelJson) :
  outcome (identifyChannelId rt w (Some identifier) apiKey) = Return (Some channelId) ->
  channelId <> EmptyString ->
  fetch_channel w (channel_url channelId apiKey) = Return res ->
  ok res = false ->
  resolveChannelDetails rt w (Some identifier) apiKey videoCount
  = (log_of (identifyChannelId rt w (Some identifier) apiKey)
       ++ [Fetch (channel_url channelId apiKey)],
     Throw (Error "Failed to fetch channel metadata.")).
Proof.
  intros Hid Hne%Boolean_true_iff Hres Hok. unfold resolveChannelDetails.
  by_log_and_outcome; by run_world.
Qed.

(** The run of the resolver once the channel is known, by the answer of
    the video search. *)
Lemma resolveChannelDetails_known (identifier : ChannelIdentifier)
    (apiKey channelId : string) (videoCount : Z) (channelJson : ChannelJson) :
  channel_known rt w identifier apiKey channelId channelJson ->
  resolveChannelDetails rt w (Some identifier) apiKey videoCount
  = (log_of (identifyChannelId rt w (Some identifier) apiKey)
       ++ [Fetch (channel_url channelId apiKey);
           Fetch (videos_url channelId apiKey videoCount)],
     match fetch_videos w (videos_url channelId apiKey videoCount) with
     | Throw e => Throw e
     | Return videoRes =>
         if ok videoRes
         then
           match json_body videoRes with
           | Throw e => Throw e
           | Return videoJson =>
               match and_truthy true (vj_error videoJson ?> ae_message) with
               | Some message => Throw (Error message)
               | None =>
                   Return
                     (Some {| cd_channelId := channelId;
                              channelTitle :=
                                default "Channel"
                                  (ch_items channelJson ?> head ?> ci_snippet
                                     ?> cs_title);
                              videos :=
                                filter_map video_of_item
                                  (default [] (vj_items videoJson)) |})
               end
           end
         else Throw (Error "Failed to fetch recent videos. Check your API key quota.")
     end).
Proof.
  intros (Hid & Hne%Boolean_true_iff & channelRes & Hres & Hok & Hjson).
  unfold resolveChannelDetails.
  by_log_and_outcome; run_world.
  - destruct (fetch_videos w _) as [videoRes|e]; run; [|done].
    destruct (ok videoRes); run; [|done].
    destruct (json_body videoRes) as [videoJson|e]; run; [|done].
    by destruct (and_truthy true (vj_error videoJson ?> ae_message)).
  - destruct (fetch_videos w _) as [videoRes|e]; run; [|done].
    destruct (ok videoRes); run; [|done].
    destruct (json_body videoRes) as [videoJson|e]; run; [|done].
    destruct (and_truthy true (vj_error videoJson ?> ae_message)); run; [done|].
    by destruct (vj_items videoJson).
Qed.

(** What the handler answers when the resolver throws. *)
Lemma POST_resolver_throws (request : Request) (data : RequestData)
    (identifier : ChannelIdentifier) (log : list Call) (e : exn) :
  accepted rt request data identifier ->
  resolveChannelDetails rt w (Some identifier) (youtubeApiKey data) (videoCount data)
    = (log, Throw e) ->
  POST rt w request = (log, Return (error_response e)).
Proof.
  intros Haccepted Hresolve.
  destruct (POST_accepted rt w _ _ _ Haccepted) as [Hlog Hout].
  rewrite (M_eta (POST rt w request)), Hlog, Hout.
  rewrite pipeline_outcome, pipeline_log, Hresolve. cbn [log_of outcome fst snd].
  by rewrite app_nil_r.
Qed.

End Lookups.

(** X10.  A [/channel/<id>] URL is never answered 404: the id is taken
    from the URL as it is, no lookup or search is issued for it, and the
    first call of the handler is the metadata request for that id. *)
Theorem channel_id_url_is_never_not_found (rt : Runtime) (w : World)
    (request : Request) (data : RequestData) (id : string) :
  accepted rt request data (Id id) ->
  identifyChannelId rt w (Some (Id id)) (youtubeApiKey data) = ([], Return (Some id))
  /\ (exists calls,
        log_of (POST rt w request)
        = Fetch (channel_url id (youtubeApiKey data)) :: calls)
  /\ (forall r, outcome (POST rt w request) = Return r -> status r <> 404).
Proof.
  intros Haccepted. split; [done|].
  pose proof Haccepted as (body & _ & _ & Hid).
  destruct (POST_accepted rt w _ _ _ Haccepted) as [Hlog Hout].
  split.
  - destruct (resolveChannelDetails_first_call rt w _ _ (youtubeApiKey data)
                (videoCount data) Hid) as (first & calls & Hfirst & Hurl).
    rewrite Hlog, pipeline_log, Hfirst, (Hurl id eq_refl). by eexists.
  - intros r Hr. rewrite Hout in Hr.
    pose proof (resolveChannelDetails_id_not_null rt w id (youtubeApiKey data)
                  (videoCount data) (extracted_value_nonempty rt _ _ Hid)) as Hnot.
    destruct (pipeline_cases rt w data (Id id))
      as [(e & _ & Hp & _)|[(Hnone & _)|[(meta & _ & _ & Hp & _)
          |(meta & sample & samples & _ & _ & Hp & _)]]]; [| done | |];
      rewrite Hp in Hr.
    + injection Hr as <-. by destruct (error_response_status e) as [-> |[-> | ->]].
    + by injection Hr as <-.
    + destruct (outcome (synthesize rt w data _ _)) as [r'|e] eqn:Hsynth.
      * injection Hr as <-.
        by destruct (synthesize_returned_log rt w _ _ _ _ Hsynth) as [-> _].
      * injection Hr as <-.
        by destruct (error_response_status e) as [-> |[-> | ->]].
Qed.

Lemma channel_id_url_is_never_not_found_witness :
  accepted Demo.rt (Demo.request_of "https://www.youtube.com/channel/UC123" 3)
    (Demo.data_of "https://www.youtube.com/channel/UC123" 3) (Id "UC123")
  /\ exists calls,
       log_of (POST Demo.rt Demo.w
                 (Demo.request_of "https://www.youtube.com/channel/UC123" 3))
       = Fetch (channel_url "UC123" Demo.apiKey) :: calls.
Proof.
  assert (H : accepted Demo.rt
                (Demo.request_of "https://www.youtube.com/channel/UC123" 3)
                (Demo.data_of "https://www.youtube.com/channel/UC123" 3)
                (Id "UC123")).
  { exists (Demo.body_of "https://www.youtube.com/channel/UC123" 3).
    repeat split; vm_compute; reflexivity. }
  split; [exact H|].
  exact (proj1 (proj2 (channel_id_url_is_never_not_found Demo.rt Demo.w _ _ _ H))).
Defined.

(** X11.  When the metadata request of a known channel id answers a
    non-success status, the resolver throws [Failed to fetch channel
    metadata.] without asking for the videos, and the handler answers
    500 with its fixed message. *)
Theorem channel_metadata_refused (rt : Runtime) (w : World) (request : Request)
    (data : RequestData) (identifier : ChannelIdentifier) (channelId : string)
    (res : Response ChannelJson) :
  accepted rt request data identifier ->
  outcome (identifyChannelId rt w (Some identifier) (youtubeApiKey data))
    = Return (Some channelId) ->
  channelId <> EmptyString ->
  fetch_channel w (channel_url channelId (youtubeApiKey data)) = Return res ->
  ok res = false ->
  outcome (resolveChannelDetails rt w (Some identifier) (youtubeApiKey data)
             (videoCount data))
    = Throw (Error "Failed to fetch channel metadata.")
  /\ POST rt w request
     = (log_of (identifyChannelId rt w (Some identifier) (youtubeApiKey data))
          ++ [Fetch (channel_url channelId (youtubeApiKey data))],
        Return (response 500 "Failed to build script style.")).
Proof.
  intros Haccepted Hid Hne Hres Hok.
  pose proof (resolveChannelDetails_metadata_refused rt w identifier
                (youtubeApiKey data) channelId (videoCount data) res Hid Hne Hres Hok)
    as Hresolve.
  split; [by rewrite Hresolve|].
  by rewrite (POST_resolver_throws rt w _ _ _ _ _ Haccepted Hresolve).
Qed.

Lemma channel_metadata_refused_witness :
  POST Demo.rt Demo.w_channel_refused (Demo.request_of Demo.handle_url 3)
  = ([Fetch (search_url Demo.rt "acme" Demo.apiKey);
      Fetch (channel_url "UC123" Demo.apiKey)],
     Return (response 500 "Failed to build script style.")).
Proof.
  refine (proj2 (channel_metadata_refused Demo.rt Demo.w_channel_refused
                   (Demo.request_of Demo.handle_url 3)
                   (Demo.data_of Demo.handle_url 3) (Handle "@acme") "UC123"
                   {| ok := false;
                      json_body := Throw (Error "Unexpected end of JSON input") |}
                   _ _ _ _ _)).
  - exists (Demo.body_of Demo.handle_url 3). repeat split; vm_compute; reflexivity.
  - reflexivity.
  - discriminate.
  - reflexivity.
  - reflexivity.
Defined.

(** X12.  When the video search of a known channel answers a non-success
    status, whatever the cause, the handler answers 429 and shows
    [Failed to fetch recent videos. Check your API key quota.]; no
    transcript and no model is asked. *)
Theorem video_search_refused_is_429 (rt : Runtime) (w : World) (request : Request)
    (data : RequestData) (identifier : ChannelIdentifier) (channelId : string)
    (channelJson : ChannelJson) (res : Response VideoJson) :
  accepted rt request data identifier ->
  channel_known rt w identifier (youtubeApiKey data) channelId channelJson ->
  fetch_videos w (videos_url channelId (youtubeApiKey data) (videoCount data))
    = Return res ->
  ok res = false ->
  outcome (POST rt w request)
    = Return (response 429 "Failed to fetch recent videos. Check your API key quota.")
  /\ Forall (fun c => is_fetch_call c = true) (log_of (POST rt w request)).
Proof.
  intros Haccepted Hknown Hres Hok.
  pose proof (resolveChannelDetails_known rt w identifier (youtubeApiKey data)
                channelId (videoCount data) channelJson Hknown) as Hresolve.
  rewrite Hres, Hok in Hresolve.
  rewrite (POST_resolver_throws rt w _ _ _ _ _ Haccepted Hresolve).
  split; [done|]. cbn [log_of fst].
  apply Forall_app. split; [|by repeat constructor].
  destruct (identifyChannelId_youtube_log rt w (Some identifier) (youtubeApiKey data))
    as [Hall _].
  eapply Forall_impl; [exact Hall|]. by intros c (url & -> & _).
Qed.

Lemma video_search_refused_is_429_witness :
  outcome (POST Demo.rt Demo.w_videos_refused (Demo.request_of Demo.handle_url 3))
  = Return (response 429 "Failed to fetch recent videos. Check your API key quota.").
Proof.
  refine (proj1 (video_search_refused_is_429 Demo.rt Demo.w_videos_refused
                   (Demo.request_of Demo.handle_url 3)
                   (Demo.data_of Demo.handle_url 3) (Handle "@acme") "UC123"
                   Demo.channel_body
                   {| ok := false;
                      json_body := Throw (Error "Unexpected end of JSON input") |}
                   _ _ _ _)).
  - exists (Demo.body_of Demo.handle_url 3). repeat split; vm_compute; reflexivity.
  - split; [reflexivity|]. split; [discriminate|].
    eexists. repeat split; reflexivity.
  - reflexivity.
  - reflexivity.
Defined.

(** X13.  An error message embedded in a successful answer of the video
    search is thrown as it is, whatever items come with it, and the
    handler classifies it like any other error; an error object without
    message, or with an empty one, is ignored and the videos are
    listed. *)
Theorem embedded_video_error (rt : Runtime) (w : World) (request : Request)
    (data : RequestData) (identifier : ChannelIdentifier) (channelId : string)
    (channelJson : ChannelJson) (res : Response VideoJson) (videoJson : VideoJson) :
  accepted rt request data identifier ->
  channel_known rt w identifier (youtubeApiKey data) channelId channelJson ->
  fetch_videos w (videos_url channelId (youtubeApiKey data) (videoCount data))
    = Return res ->
  ok res = true ->
  json_body res = Return videoJson ->
  (forall message,
      vj_error videoJson ?> ae_message = Some message ->
      message <> EmptyString ->
      outcome (resolveChannelDetails rt w (Some identifier) (youtubeApiKey data)
                 (videoCount data)) = Throw (Error message)
      /\ outcome (POST rt w request) = Return (error_response (Error message)))
  /\ (vj_error videoJson ?> ae_message = None
      \/ vj_error videoJson ?> ae_message = Some EmptyString ->
      exists meta,
        outcome (resolveChannelDetails rt w (Some identifier) (youtubeApiKey data)
                   (videoCount data)) = Return (Some meta)
        /\ cd_channelId meta = channelId
        /\ videos meta = filter_map video_of_item (default [] (vj_items videoJson))).
Proof.
  intros Haccepted Hknown Hres Hok Hjson.
  pose proof (resolveChannelDetails_known rt w identifier (youtubeApiKey data)
                channelId (videoCount data) channelJson Hknown) as Hresolve.
  rewrite Hres, Hok, Hjson in Hresolve. split.
  - intros message Hmessage Hne%Boolean_true_iff.
    rewrite Hmessage in Hresolve. cbn [and_truthy] in Hresolve.
    rewrite Hne in Hresolve.
    rewrite (POST_resolver_throws rt w _ _ _ _ _ Haccepted Hresolve).
    by rewrite Hresolve.
  - intros Hnone.
    assert (Hfalsy : and_truthy true (vj_error videoJson ?> ae_message) = None)
      by by destruct Hnone as [-> | ->].
    rewrite Hfalsy in Hresolve. rewrite Hresolve. by eexists.
Qed.

Lemma embedded_video_error_witness :
  exists meta,
    outcome (resolveChannelDetails Demo.rt Demo.w (Some (Handle "@acme"))
               Demo.apiKey 3) = Return (Some meta)
    /\ cd_channelId meta = "UC123".
Proof.
  destruct (embedded_video_error Demo.rt Demo.w (Demo.request_of Demo.handle_url 3)
              (Demo.data_of Demo.handle_url 3) (Handle "@acme") "UC123"
              Demo.channel_body
              {| ok := true; json_body := Return Demo.video_body |} Demo.video_body)
    as [_ Hnone].
  - exists (Demo.body_of Demo.handle_url 3). repeat split; vm_compute; reflexivity.
  - split; [reflexivity|]. split; [discriminate|].
    eexists. repeat split; reflexivity.
  - reflexivity.
  - reflexivity.
  - reflexivity.
  - destruct (Hnone (or_introl eq_refl)) as (meta & Hmeta & Hid & _).
    exists meta. split; [exact Hmeta|exact Hid].
Defined.

(** ** The transcript samples *)

Section Samples.

Import JsString.

Variable w : World.

Lemma filter_map_app {X Y : Type} (f : X -> option Y) (l l' : list X) :
  filter_map f (l ++ l') = filter_map f l ++ filter_map f l'.
Proof.
  induction l as [|x l IH]; [done|].
  cbn [app filter_map]. destruct (f x); by rewrite IH.
Qed.

Lemma contributes_nothing_normalized (video : Video) :
  contributes_nothing w video = true <-> normalized_transcript w video = EmptyString.
Proof.
  unfold contributes_nothing, normalized_transcript.
  destruct (fetchTranscript w (videoId video) "en") as [[[|segment segments]|]|e];
    try done.
  apply String.eqb_eq.
Qed.

End Samples.

(** X14.  The videos are sampled one by one and in their order: the
    transcript requests and the samples of a list of videos are those of
    its first part followed by those of the rest, and the samples keep
    the order of the videos. *)
Theorem fetchTranscripts_app (w : World) (videos more : list Video) :
  exists samples samples',
    outcome (fetchTranscripts w videos) = Return samples
    /\ outcome (fetchTranscripts w more) = Return samples'
    /\ fetchTranscripts w (videos ++ more)
       = (log_of (fetchTranscripts w videos) ++ log_of (fetchTranscripts w more),
          Return (samples ++ samples'))
    /\ sublist (List.map ts_videoId (samples ++ samples'))
               (List.map videoId (videos ++ more)).
Proof.
  rewrite !fetchTranscripts_spec. cbn [outcome log_of fst snd].
  eexists _, _. split; [done|]. split; [done|]. split.
  - by rewrite List.map_app, filter_map_app.
  - rewrite <- filter_map_app.
    induction (videos ++ more) as [|video l IH]; [constructor|].
    cbn [filter_map List.map].
    destruct (contributes_nothing w video); cbn [List.map ts_videoId].
    + by apply sublist_cons.
    + by apply sublist_skip.
Qed.

(** X15.  A sample never has an empty text: its model text and its
    excerpt begin with a code unit that is not white space, and the
    excerpt is the first 320 code units of the model text. *)
Theorem sample_texts_are_not_empty (w : World) (videos : list Video)
    (samples : list TranscriptSample) (sample : TranscriptSample) :
  outcome (fetchTranscripts w videos) = Return samples ->
  In sample samples ->
  (exists c rest rest',
      transcriptForModel sample = String c rest
      /\ snippetExcerpt sample = String c rest'
      /\ JsString.is_ws c = false)
  /\ snippetExcerpt sample = substring 0 320 (transcriptForModel sample).
Proof.
  rewrite fetchTranscripts_spec. intros [= <-].
  induction videos as [|video videos IH]; [done|].
  cbn [filter_map].
  destruct (contributes_nothing w video) eqn:Hdrop; [done|].
  intros [<-|Hin]; [|by apply IH]. clear IH.
  cbn [transcriptForModel snippetExcerpt].
  assert (Hspaced : single_spaced (normalized_transcript w video)).
  { unfold normalized_transcript.
    destruct (fetchTranscript w (videoId video) "en") as [[segments|]|e];
      try done.
    apply join_words_single_spaced. }
  assert (Hne : normalized_transcript w video <> EmptyString).
  { intros Hempty%contributes_nothing_normalized. congruence. }
  destruct (normalized_transcript w video) as [|c rest]; [done|].
  destruct Hspaced as [Hc _]. split.
  - by exists c, (substring 0 2999 rest), (substring 0 319 rest).
  - cbn [substring]. f_equal.
    rewrite <- (substring_0_min 319 (substring 0 2999 rest)).
    rewrite substring_0_length.
    rewrite <- (substring_0_min 319 rest).
    set (n := String.length rest).
    assert (Hmin : Nat.min 319 (Nat.min 2999 n) = Nat.min 319 n) by lia.
    rewrite Hmin. clear Hmin.
    assert (Hprefix : forall (m k : nat) (s : string),
               (m <= k)%nat -> substring 0 m (substring 0 k s) = substring 0 m s).
    { intros m k s; revert m k; induction s as [|a s IHs];
        intros [|m] [|k] Hle; simpl; try done; try lia.
      f_equal. apply IHs. lia. }
    rewrite Hprefix by lia. done.
Qed.

Lemma sample_texts_are_not_empty_witness :
  snippetExcerpt Demo.sample = substring 0 320 (transcriptForModel Demo.sample).
Proof.
  refine (proj2 (sample_texts_are_not_empty Demo.w Demo.videos [Demo.sample]
                   Demo.sample _ _)).
  - vm_compute. reflexivity.
  - left. reflexivity.
Defined.

(** X16.  The samples depend on the transcripts through their normalized
    text only: how the text is cut into segments and how its white space
    is laid out does not matter, and a transcript that fails, is absent,
    has no segment or holds white space only is dropped alike. *)
Theorem samples_depend_on_normalized_text (w w' : World) (videos : list Video) :
  (forall video, In video videos ->
     normalized_transcript w video = normalized_transcript w' video) ->
  outcome (fetchTranscripts w videos) = outcome (fetchTranscripts w' videos)
  /\ log_of (fetchTranscripts w videos) = log_of (fetchTranscripts w' videos).
Proof.
  intros Hsame. rewrite !fetchTranscripts_spec. cbn [outcome log_of fst snd].
  split; [|done]. f_equal.
  induction videos as [|video videos IH]; [done|].
  cbn [filter_map].
  rewrite IH by (intros v Hv; apply Hsame; by right).
  assert (Hvideo : normalized_transcript w video = normalized_transcript w' video)
    by (apply Hsame; by left).
  assert (Hdrop : contributes_nothing w video = contributes_nothing w' video).
  { destruct (contributes_nothing w video) eqn:H1;
      destruct (contributes_nothing w' video) eqn:H2; try done.
    - apply contributes_nothing_normalized in H1. rewrite Hvideo in H1.
      apply contributes_nothing_normalized in H1. congruence.
    - apply contributes_nothing_normalized in H2. rewrite <- Hvideo in H2.
      apply contributes_nothing_normalized in H2. congruence. }
  by rewrite Hdrop, Hvideo.
Qed.

Lemma samples_depend_on_normalized_text_witness :
  outcome (fetchTranscripts Demo.w Demo.videos)
  = outcome (fetchTranscripts DemoMore.w_resegmented Demo.videos).
Proof.
  refine (proj1 (samples_depend_on_normalized_text Demo.w DemoMore.w_resegmented
                   Demo.videos _)).
  intros video [<-|[<-|[<-|[]]]]; vm_compute; reflexivity.
Defined.

(** ** The JSON object inside a model output *)

Section Prose.

Lemma charAt_app_l (s t : string) (j : Z) :
  j < Z.of_nat (String.length s) -> charAt (s ++ t) j = charAt s j.
Proof.
  unfold charAt. destruct (Z.ltb j 0) eqn:Hj; [done|]. intros Hlt.
  symmetry. apply append_correct1. lia.
Qed.

Lemma charAt_app_r (s t : string) (j : Z) :
  0 <= j -> charAt (s ++ t) (Z.of_nat (String.length s) + j) = charAt t j.
Proof.
  intros Hj. unfold charAt.
  destruct (Z.ltb (Z.of_nat (String.length s) + j) 0) eqn:H1;
    [apply Z.ltb_lt in H1; lia|].
  destruct (Z.ltb j 0) eqn:H2; [lia|].
  replace (Z.to_nat (Z.of_nat (String.length s) + j))
    with (Z.to_nat j + String.length s)%nat by lia.
  symmetry. apply append_correct2.
Qed.

Lemma first_index_of_unique (a : ascii) (s : string) (i j : Z) :
  first_index_of a s i -> first_index_of a s j -> i = j.
Proof.
  intros [Hi Hbefore] [Hj Hbefore'].
  destruct (Z.lt_trichotomy i j) as [Hlt|[Heq|Hgt]]; [|done|].
  - by elim (Hbefore' i Hlt).
  - by elim (Hbefore j Hgt).
Qed.

Lemma last_index_of_unique (a : ascii) (s : string) (i j : Z) :
  last_index_of a s i -> last_index_of a s j -> i = j.
Proof.
  intros [Hi Hafter] [Hj Hafter'].
  destruct (Z.lt_trichotomy i j) as [Hlt|[Heq|Hgt]]; [|done|].
  - by elim (Hafter j Hlt).
  - by elim (Hafter' i Hgt).
Qed.

Lemma substring_app_r (s t : string) (n : nat) :
  substring (String.length s) n (s ++ t) = substring 0 n t.
Proof. induction s as [|c s IH]; [done|]. exact IH. Qed.

Lemma substring_app_l (s t : string) :
  substring 0 (String.length s) (s ++ t) = s.
Proof.
  induction s as [|c s IH]; [by destruct t|].
  change (String c (substring 0 (String.length s) (s ++ t)) = String c s).
  by rewrite IH.
Qed.

Lemma length_app (s t : string) :
  String.length (s ++ t) = (String.length s + String.length t)%nat.
Proof.
  induction s as [|c s IH]; [done|].
  change (S (String.length (s ++ t)) = S (String.length s + String.length t)).
  by rewrite IH.
Qed.

End Prose.

(** X17.  Text around the JSON object does not matter: when the model
    output is an object in braces with text before it that has no
    opening brace and text after it that has no closing brace, the
    helper parses exactly the object, braces included. *)
Theorem parseJsonObject_ignores_surrounding_text (rt : Runtime)
    (before inner after : string) :
  absent "{" before ->
  absent "}" after ->
  parseJsonObject rt (before ++ "{" ++ inner ++ "}" ++ after)
  = match JSON_parse rt ("{" ++ inner ++ "}") with
    | Some value => Return value
    | None => Throw (Error "Model response was not valid JSON.")
    end.
Proof.
  intros Hbefore Hafter.
  set (object := ("{" ++ inner ++ "}")%string).
  set (text := (before ++ "{" ++ inner ++ "}" ++ after)%string).
  assert (Htext : text = (before ++ object ++ after)%string).
  { subst text object. f_equal.
    change (String "{" (inner ++ "}" ++ after) = String "{" ((inner ++ "}") ++ after)).
    by rewrite append_assoc. }
  assert (Hobject : String.length object = S (S (String.length inner))).
  { subst object. change (S (String.length (inner ++ "}")) = S (S (String.length inner))).
    rewrite length_app. cbn [String.length]. lia. }
  assert (Hfirst : first_index_of "{" text (Z.of_nat (String.length before))).
  { split.
    - rewrite <- (Z.add_0_r (Z.of_nat (String.length before))).
      subst text. by rewrite charAt_app_r.
    - intros j Hj. subst text. rewrite charAt_app_l by done. apply Hbefore. }
  assert (Hlast : last_index_of "}" text
                    (Z.of_nat (String.length before)
                     + Z.of_nat (S (String.length inner)))).
  { rewrite Htext. split.
    - rewrite charAt_app_r by lia.
      rewrite charAt_app_l by (rewrite Hobject; lia).
      subst object.
      replace (Z.of_nat (S (String.length inner)))
        with (Z.of_nat (String.length ("{" ++ inner)) + 0).
      + change ("{" ++ inner ++ "}")%string with (("{" ++ inner) ++ "}")%string.
        by rewrite charAt_app_r.
      + change (String.length ("{" ++ inner)) with (S (String.length inner)). lia.
    - intros j Hj.
      replace j
        with (Z.of_nat (String.length before)
              + (Z.of_nat (String.length object)
                 + (j - Z.of_nat (String.length before)
                      - Z.of_nat (String.length object)))) by lia.
      rewrite charAt_app_r by lia. rewrite charAt_app_r by lia. apply Hafter. }
  pose proof (charAt_range _ _ _ (proj1 Hfirst)) as Hrange.
  destruct (indexOf_char "{" text) as [[_ Habsent]|Hfirst'];
    [by elim (Habsent _ (proj1 Hfirst))|].
  destruct (lastIndexOf_char "}" text) as [[_ Habsent]|Hlast'];
    [by elim (Habsent _ (proj1 Hlast))|].
  pose proof (first_index_of_unique _ _ _ _ Hfirst' Hfirst) as Hstart.
  pose proof (last_index_of_unique _ _ _ _ Hlast' Hlast) as Hend.
  destruct (parseJsonObject_located rt text) as (_ & _ & _ & ->);
    [lia..|].
  change (String "{" EmptyString) with "{"%string in *.
  change (String "}" EmptyString) with "}"%string in *.
  rewrite Hstart, Hend.
  replace (Z.to_nat (Z.of_nat (String.length before)))
    with (String.length before) by lia.
  replace (Z.to_nat
             (Z.of_nat (String.length before) + Z.of_nat (S (String.length inner))
              - Z.of_nat (String.length before) + 1))
    with (String.length object) by lia.
  by rewrite Htext, substring_app_r, substring_app_l.
Qed.

Lemma parseJsonObject_ignores_surrounding_text_witness :
  parseJsonObject Demo.rt ("Here it is: " ++ "{" ++ EmptyString ++ "}" ++ " Enjoy!")
  = match JSON_parse Demo.rt ("{" ++ EmptyString ++ "}") with
    | Some value => Return value
    | None => Throw (Error "Model response was not valid JSON.")
    end.
Proof.
  apply parseJsonObject_ignores_surrounding_text.
  - repeat (apply absent_cons; split; [discriminate|]). apply absent_nil.
  - repeat (apply absent_cons; split; [discriminate|]). apply absent_nil.
Defined.

(** ** Keys the schema does not know *)

(** X18.  A key of the body that the schema does not name is ignored:
    the handler runs alike with it and without it. *)
Theorem POST_ignores_unknown_keys (rt : Runtime) (w : World)
    (o : gmap string json) (key : string) (v : json) :
  ~ In key ["channelUrl"; "topic"; "youtubeApiKey"; "openAiKey"; "videoCount"] ->
  requestSchema_safeParse (JObj (<[key := v]> o)) = requestSchema_safeParse (JObj o)
  /\ POST rt w {| request_json := Return (JObj (<[key := v]> o)) |}
     = POST rt w {| request_json := Return (JObj o) |}.
Proof.
  intros Hkey.
  assert (Hparse : requestSchema_safeParse (JObj (<[key := v]> o))
                   = requestSchema_safeParse (JObj o)).
  { unfold requestSchema_safeParse.
    rewrite !lookup_insert_ne; [done|intros ->; apply Hkey; cbn; tauto..]. }
  split; [done|]. unfold POST. cbn [request_json]. by rewrite Hparse.
Qed.

Lemma POST_ignores_unknown_keys_witness :
  POST Demo.rt Demo.w
    {| request_json := Return (JObj (<["debug" := JBool true]> ∅)) |}
  = POST Demo.rt Demo.w {| request_json := Return (JObj ∅) |}.
Proof.
  refine (proj2 (POST_ignores_unknown_keys Demo.rt Demo.w ∅ "debug" (JBool true) _)).
  cbn. intros [H|[H|[H|[H|[H|[]]]]]]; discriminate H.
Defined.

(** ** The page *)

Section Page.

Import JsString.

Variable rt : Runtime.
Variable w : World.

(** The handler answers a payload with status 200 or an error message
    with another status. *)
Lemma POST_payload_or_error (request : Request) :
  exists r,
    outcome (POST rt w request) = Return r
    /\ ((status r = 200 /\ exists payload, body r = ResultBody payload)
        \/ (In (status r) [400; 401; 404; 422; 429; 500]
            /\ exists message, body r = ErrorBody message)).
Proof.
  destruct (POST_accepted_or_rejected rt w request)
    as [(data & identifier & Haccepted)|[message Hrejected]].
  - destruct (POST_accepted_cases rt w _ _ _ Haccepted)
      as (r & models & Hr & Hcases & _).
    exists r. split; [done|].
    destruct Hcases as [(Hbody & Hstatus & _)|[(-> & _)|[(meta & -> & _)
                       |(meta & payload & -> & _)]]].
    + right. split; [|done].
      destruct Hstatus as [-> |[-> | ->]]; cbn; tauto.
    + right. split; [cbn; tauto|by eexists].
    + right. split; [cbn; tauto|by eexists].
    + left. split; [done|by eexists].
  - rewrite Hrejected. eexists. split; [done|].
    right. split; [cbn; tauto|by eexists].
Qed.

Lemma concat_empty_cons (h : string) (l : list string) :
  join EmptyString (h :: l) = (h ++ join EmptyString l)%string.
Proof.
  unfold join. destruct l as [|h' l]; [by rewrite append_empty_r|done].
Qed.

Lemma concat_filter_cons (h : string) (l : list string) :
  join EmptyString (List.filter Boolean (h :: l))
  = (h ++ join EmptyString (List.filter Boolean l))%string.
Proof.
  cbn [List.filter]. destruct h as [|c h]; [done|].
  cbn [Boolean]. apply concat_empty_cons.
Qed.

Lemma join_script_paragraphs (script : string) :
  join EmptyString (script_paragraphs script) = without (ascii_of_nat 10) script.
Proof.
  unfold script_paragraphs.
  induction script as [|c script IH]; [done|].
  cbn [split without]. destruct (Ascii.eqb c (ascii_of_nat 10)) eqn:Hc.
  - by rewrite concat_filter_cons.
  - pose proof (split_not_nil (ascii_of_nat 10) script) as Hne.
    destruct (split (ascii_of_nat 10) script) as [|h t]; [done|].
    rewrite concat_filter_cons in IH.
    change (List.filter Boolean (String c h :: t))
      with (String c h :: List.filter Boolean t).
    rewrite concat_empty_cons, <- IH. done.
Qed.

End Page.

(** X19.  However the request ends, the submit handler of the page
    leaves it idle and never with both an error and a result; what was
    shown before the submission is gone.  No error is left exactly when
    the request was answered ok with a readable body, and the result is
    then that body as it came: for the body [null] the page ends with
    neither an error nor a result. *)
Theorem handleSubmit_settles (fetch : json -> result FetchResponse) (form : Form)
    (state : PageState) :
  page_loading (handleSubmit fetch form state) = false
  /\ (page_error (handleSubmit fetch form state) = None
      \/ page_result (handleSubmit fetch form state) = None)
  /\ (forall state', handleSubmit fetch form state' = handleSubmit fetch form state)
  /\ (page_error (handleSubmit fetch form state) = None
      <-> exists response,
            fetch (submitted_body form) = Return response
            /\ fr_ok response = true
            /\ fr_json response
               = Return (page_result (handleSubmit fetch form state)))
  /\ (forall response,
        fetch (submitted_body form) = Return response ->
        fr_ok response = true ->
        fr_json response = Return None ->
        page_error (handleSubmit fetch form state) = None
        /\ page_result (handleSubmit fetch form state) = None).
Proof.
  unfold handleSubmit, submit_attempt.
  destruct (fetch (submitted_body form)) as [[[] [payload|e]]|e]; cbn;
    (split; [done|]); (split; [by auto|]); (split; [done|]); split;
    try (split; [by eauto|done]);
    try (split; [done|by intros (response & [= <-] & ? & ?)]);
    try (split; [done|by intros (response & ? & ?)]);
    try (by intros response [= <-] ? [= <-]);
    try (by intros response [= <-] ? ?);
    try (by intros response ? ? ?).
Qed.

Lemma handleSubmit_settles_witness :
  page_error (handleSubmit DemoMore.fetch_null DemoMore.form DemoMore.idle) = None
  /\ page_result (handleSubmit DemoMore.fetch_null DemoMore.form DemoMore.idle)
     = None.
Proof.
  exact (proj2 (proj2 (proj2 (proj2
           (handleSubmit_settles DemoMore.fetch_null DemoMore.form DemoMore.idle))))
           {| fr_ok := true; fr_json := Return None |} eq_refl eq_refl eq_refl).
Defined.

(** X20.  When the page talks to the handler, it shows what the handler
    answers: the payload of a 200, and for every other status the error
    message of the handler as it is, never a message of its own. *)
Theorem page_shows_the_answer (rt : Runtime) (w : World)
    (fetch : json -> result FetchResponse) (form : Form) (state : PageState) :
  reaches_endpoint rt w fetch ->
  exists answer,
    outcome (POST rt w {| request_json := Return (submitted_body form) |})
      = Return answer
    /\ handleSubmit fetch form state
       = {| page_error := error_of (Some (body answer));
            page_result :=
              if status answer =? 200 then Some (body answer) else None;
            page_loading := false |}
    /\ (status answer = 200 <-> page_error (handleSubmit fetch form state) = None).
Proof.
  intros Hreach.
  destruct (POST_payload_or_error rt w
              {| request_json := Return (submitted_body form) |})
    as (answer & Hanswer & Hcases).
  exists answer. split; [done|].
  unfold handleSubmit, submit_attempt. rewrite (Hreach _ _ Hanswer).
  cbn [fr_ok fr_json].
  destruct Hcases as [(-> & payload & ->)|(Hstatus & message & ->)].
  - cbn. by repeat split.
  - cbn in Hstatus.
    destruct Hstatus as [<-|[<-|[<-|[<-|[<-|[<-|[]]]]]]]; cbn; by repeat split.
Qed.

Lemma page_shows_the_answer_witness :
  exists answer,
    outcome (POST Demo.rt Demo.w
               {| request_json := Return (submitted_body DemoMore.form) |})
      = Return answer
    /\ handleSubmit DemoMore.fetch DemoMore.form DemoMore.idle
       = {| page_error := error_of (Some (body answer));
            page_result :=
              if status answer =? 200 then Some (body answer) else None;
            page_loading := false |}.
Proof.
  destruct (page_shows_the_answer Demo.rt Demo.w DemoMore.fetch DemoMore.form
              DemoMore.idle) as (answer & Hanswer & Hstate & _).
  - intros sent answer Hanswer. unfold DemoMore.fetch. rewrite Hanswer. reflexivity.
  - exists answer. split; [exact Hanswer|exact Hstate].
Defined.

(** X21.  The page lays the script out in its non-empty lines: no
    paragraph is empty or holds a line feed, and the paragraphs put
    together are the script without its line feeds. *)
Theorem script_paragraphs_keep_the_text (script : string) :
  Forall (fun line => line <> EmptyString /\ absent (ascii_of_nat 10) line)
    (script_paragraphs script)
  /\ JsString.join EmptyString (script_paragraphs script)
     = without (ascii_of_nat 10) script.
Proof.
  split; [|apply join_script_paragraphs].
  unfold script_paragraphs. apply List.Forall_forall.
  intros line [Hin Hline]%filter_In. split; [by apply Boolean_true_iff|].
  pose proof (split_absent (ascii_of_nat 10) script) as Hall.
  by eapply List.Forall_forall in Hall.
Qed.

(** X22.  The script of a 200 answer is trimmed and not empty, so the
    page renders at least one paragraph for it. *)
Theorem ok_answer_has_a_paragraph (rt : Runtime) (w : World) (request : Request)
    (r : NextResponse) :
  outcome (POST rt w request) = Return r ->
  status r = 200 ->
  exists payload,
    body r = ResultBody payload
    /\ generatedScript payload <> EmptyString
    /\ JsString.trim (generatedScript payload) = generatedScript payload
    /\ script_paragraphs (generatedScript payload) <> [].
Proof.
  intros Hr Hstatus.
  destruct (POST_ok_from_synthesize rt w request r Hr Hstatus)
    as (body & data & identifier & meta & transcripts & _ & _ & _ & _ & _ & _ & Hsynth).
  apply synthesize_returned in Hsynth
    as (styleText & parsedStyle & guidelines & scriptText & _ & _ & _ & _ & _
        & Hscript & ->).
  eexists. split; [done|]. cbn [generatedScript].
  split; [done|]. split; [apply trim_idempotent|].
  intros Hnil.
  pose proof (join_script_paragraphs (JsString.trim scriptText)) as Hjoin.
  rewrite Hnil in Hjoin.
  unfold JsString.trim in *.
  pose proof (trimStart_head scriptText) as Hhead.
  destruct (JsString.trimStart scriptText) as [|c t]; [done|].
  destruct (trimEnd_cons_non_ws c t Hhead) as [t' Ht'].
  rewrite Ht' in Hjoin. cbn [without] in Hjoin.
  destruct (Ascii.eqb c (ascii_of_nat 10)) eqn:Hc; [|done].
  apply Ascii.eqb_eq in Hc. subst c. done.
Qed.

Lemma ok_answer_has_a_paragraph_witness :
  outcome (POST Demo.rt Demo.w (Demo.request_of Demo.handle_url 3))
    = Return DemoMore.answer
  /\ exists payload,
       body DemoMore.answer = ResultBody payload
       /\ script_paragraphs (generatedScript payload) <> [].
Proof.
  assert (H : outcome (POST Demo.rt Demo.w (Demo.request_of Demo.handle_url 3))
              = Return DemoMore.answer) by (vm_compute; reflexivity).
  split; [exact H|].
  destruct (ok_answer_has_a_paragraph Demo.rt Demo.w
              (Demo.request_of Demo.handle_url 3) DemoMore.answer H eq_refl)
    as (payload & Hbody & _ & _ & Hparagraphs).
  exists payload. split; [exact Hbody|exact Hparagraphs].
Defined.

(** ** When the channel is not identified, and when the model fails *)

Section Unidentified.

Variable rt : Runtime.
Variable w : World.

Lemma resolveChannelDetails_identify_throws (identifier : ChannelIdentifier)
    (apiKey : string) (videoCount : Z) (e : exn) :
  outcome (identifyChannelId rt w (Some identifier) apiKey) = Throw e ->
  resolveChannelDetails rt w (Some identifier) apiKey videoCount
  = (log_of (identifyChannelId rt w (Some identifier) apiKey), Throw e).
Proof.
  intros Hid. unfold resolveChannelDetails.
  by_log_and_outcome; run_world; by rewrite ?app_nil_r.
Qed.

Lemma resolveChannelDetails_no_id (identifier : ChannelIdentifier)
    (apiKey : string) (videoCount : Z) :
  outcome (identifyChannelId rt w (Some identifier) apiKey) = Return None
  \/ outcome (identifyChannelId rt w (Some identifier) apiKey)
     = Return (Some EmptyString) ->
  resolveChannelDetails rt w (Some identifier) apiKey videoCount
  = (log_of (identifyChannelId rt w (Some identifier) apiKey), Return None).
Proof.
  intros [Hid|Hid]; unfold resolveChannelDetails;
    by_log_and_outcome; run_world; by rewrite ?app_nil_r.
Qed.

Lemma POST_resolver_null (request : Request) (data : RequestData)
    (identifier : ChannelIdentifier) (log : list Call) :
  accepted rt request data identifier ->
  resolveChannelDetails rt w (Some identifier) (youtubeApiKey data) (videoCount data)
    = (log, Return None) ->
  POST rt w request
  = (log, Return (response 404 "Unable to find the provided channel.")).
Proof.
  intros Haccepted Hresolve.
  destruct (POST_accepted rt w _ _ _ Haccepted) as [Hlog Hout].
  rewrite (M_eta (POST rt w request)), Hlog, Hout.
  rewrite pipeline_outcome, pipeline_log, Hresolve. cbn [log_of outcome fst snd].
  by rewrite app_nil_r.
Qed.

Lemma identifyChannelId_custom_refused (name apiKey : string)
    (res : Response UsernameJson) :
  fetch_username w (username_url rt name apiKey) = Return res ->
  ok res = false ->
  identifyChannelId rt w (Some (Custom name)) apiKey
  = ([Fetch (username_url rt name apiKey)],
     Throw (Error "Unable to resolve custom channel URL.")).
Proof.
  intros Hres Hok. cbn [identifyChannelId]. by_log_and_outcome; by run_world.
Qed.

(** The run of [synthesize] when the style call throws. *)
Lemma synthesize_style_throws (data : RequestData) (channelTitle : string)
    (transcripts : list TranscriptSample) (e : exn) :
  responses_create w (openAiKey data) "gpt-4o-mini" style_system_prompt
    (style_user_prompt channelTitle (transcript_digest transcripts)) = Throw e ->
  synthesize rt w data channelTitle transcripts
  = ([ResponsesCreate (openAiKey data) "gpt-4o-mini" style_system_prompt
        (style_user_prompt channelTitle (transcript_digest transcripts))],
     Throw e).
Proof.
  intros Hstyle. unfold synthesize. by_log_and_outcome; by run_world.
Qed.

(** The calls of [synthesize] but the script call do not depend on the
    topic. *)
Lemma synthesize_log_without_script (data : RequestData) (topic' channelTitle : string)
    (transcripts : list TranscriptSample) :
  List.filter (fun c => negb (is_script_call c))
    (log_of (synthesize rt w (with_topic data topic') channelTitle transcripts))
  = List.filter (fun c => negb (is_script_call c))
      (log_of (synthesize rt w data channelTitle transcripts)).
Proof.
  unfold synthesize. cbn [with_topic openAiKey topic]. run.
  destruct (responses_create w (openAiKey data) "gpt-4o-mini" style_system_prompt _)
    as [styleAnalysis|e]; run; [|done].
  destruct (and_truthy true (output_text styleAnalysis)) as [stylePayloadText|];
    run; [|done].
  destruct (parseJsonObject rt stylePayloadText) as [parsedStyle|e]; run; [|done].
  destruct (get_property parsedStyle "writingGuidelines")
    as [[[| | | |guidelines|]|]|e]; run; try done.
  cbn [List.filter is_script_call negb].
  assert (Hscript : String.eqb script_system_prompt script_system_prompt = true)
    by apply String.eqb_refl.
  assert (Hstyle : String.eqb style_system_prompt script_system_prompt = false)
    by (vm_compute; reflexivity).
  repeat (case_match; run); cbn [List.filter is_script_call negb];
    by rewrite ?Hscript, ?Hstyle.
Qed.

End Unidentified.

(** X23.  When the channel id lookup does not give an id, the handler
    stops there: it answers 404 when the lookup returns no id or an
    empty one, and the classified error when the lookup throws; the
    only calls made are those of the lookup. *)
Theorem unidentified_channel_stops_the_handler (rt : Runtime) (w : World)
    (request : Request) (data : RequestData) (identifier : ChannelIdentifier) :
  accepted rt request data identifier ->
  let lookup := identifyChannelId rt w (Some identifier) (youtubeApiKey data) in
  (outcome lookup = Return None \/ outcome lookup = Return (Some EmptyString) ->
   POST rt w request
   = (log_of lookup, Return (response 404 "Unable to find the provided channel.")))
  /\ (forall e,
        outcome lookup = Throw e ->
        POST rt w request = (log_of lookup, Return (error_response e))).
Proof.
  intros Haccepted lookup. subst lookup. split.
  - intros Hnone.
    apply (POST_resolver_null rt w _ _ _ _ Haccepted).
    by apply resolveChannelDetails_no_id.
  - intros e He.
    apply (POST_resolver_throws rt w _ _ _ _ _ Haccepted).
    by apply resolveChannelDetails_identify_throws.
Qed.

Lemma unidentified_channel_stops_the_handler_witness :
  POST Demo.rt Demo.w_unknown (Demo.request_of Demo.handle_url 3)
  = ([Fetch (search_url Demo.rt "acme" Demo.apiKey)],
     Return (response 404 "Unable to find the provided channel.")).
Proof.
  refine (proj1 (unidentified_channel_stops_the_handler Demo.rt Demo.w_unknown
                   (Demo.request_of Demo.handle_url 3)
                   (Demo.data_of Demo.handle_url 3) (Handle "@acme") _)
            (or_introl eq_refl)).
  exists (Demo.body_of Demo.handle_url 3). repeat split; vm_compute; reflexivity.
Defined.

(** X24.  A lookup that is answered with a non-success status is a 500
    with the fixed message, for a handle as for a custom name: unlike a
    refused video search it is never reported as 429, and no other call
    is made. *)
Theorem refused_lookup_is_500 (rt : Runtime) (w : World) (request : Request)
    (data : RequestData) (name : string) :
  (accepted rt request data (Handle (String "@" name)) ->
   forall res,
     fetch_channel_search w (search_url rt name (youtubeApiKey data)) = Return res ->
     ok res = false ->
     POST rt w request
     = ([Fetch (search_url rt name (youtubeApiKey data))],
        Return (response 500 "Failed to build script style.")))
  /\ (accepted rt request data (Custom name) ->
      forall res,
        fetch_username w (username_url rt name (youtubeApiKey data)) = Return res ->
        ok res = false ->
        POST rt w request
        = ([Fetch (username_url rt name (youtubeApiKey data))],
           Return (response 500 "Failed to build script style."))).
Proof.
  split.
  - intros Haccepted res Hres Hok.
    pose proof (identifyChannelId_handle_run rt w name (youtubeApiKey data)) as Hrun.
    rewrite Hres, Hok in Hrun.
    rewrite (POST_resolver_throws rt w _ _ _ _ _ Haccepted
               (resolveChannelDetails_identify_throws rt w _ _ (videoCount data) _
                  ltac:(by rewrite Hrun))).
    by rewrite Hrun.
  - intros Haccepted res Hres Hok.
    pose proof (identifyChannelId_custom_refused rt w name (youtubeApiKey data)
                  res Hres Hok) as Hrun.
    rewrite (POST_resolver_throws rt w _ _ _ _ _ Haccepted
               (resolveChannelDetails_identify_throws rt w _ _ (videoCount data) _
                  ltac:(by rewrite Hrun))).
    by rewrite Hrun.
Qed.

Lemma refused_lookup_is_500_witness :
  POST Demo.rt Demo.w_search_refused (Demo.request_of Demo.handle_url 3)
  = ([Fetch (search_url Demo.rt "acme" Demo.apiKey)],
     Return (response 500 "Failed to build script style.")).
Proof.
  refine (proj1 (refused_lookup_is_500 Demo.rt Demo.w_search_refused
                   (Demo.request_of Demo.handle_url 3)
                   (Demo.data_of Demo.handle_url 3) "acme") _
            {| ok := false;
               json_body := Throw (Error "Unexpected end of JSON input") |}
            eq_refl eq_refl).
  exists (Demo.body_of Demo.handle_url 3). repeat split; vm_compute; reflexivity.
Defined.

(** X25.  When the style call of the model throws, the handler answers
    the classified error (its message with 429 or 401 when it names the
    quota or the API key, the fixed 500 otherwise) and the script call
    is not made. *)
Theorem style_call_error_is_classified (rt : Runtime) (w : World)
    (request : Request) (data : RequestData) (identifier : ChannelIdentifier)
    (meta : ChannelDetails) (samples : list TranscriptSample) (e : exn) :
  accepted rt request data identifier ->
  outcome (resolveChannelDetails rt w (Some identifier) (youtubeApiKey data)
             (videoCount data)) = Return (Some meta) ->
  outcome (fetchTranscripts w (videos meta)) = Return samples ->
  samples <> [] ->
  responses_create w (openAiKey data) "gpt-4o-mini" style_system_prompt
    (style_user_prompt (channelTitle meta) (transcript_digest samples)) = Throw e ->
  outcome (POST rt w request) = Return (error_response e)
  /\ List.filter is_model_call (log_of (POST rt w request))
     = [ResponsesCreate (openAiKey data) "gpt-4o-mini" style_system_prompt
          (style_user_prompt (channelTitle meta) (transcript_digest samples))].
Proof.
  intros Haccepted Hmeta Hsamples Hne Hstyle.
  destruct samples as [|sample samples]; [done|].
  destruct (POST_accepted rt w _ _ _ Haccepted) as [Hlog Hout].
  rewrite Hlog, Hout, pipeline_outcome, pipeline_log, Hmeta, Hsamples.
  rewrite (synthesize_style_throws rt w _ _ _ _ Hstyle).
  cbn [log_of outcome fst snd]. split; [done|].
  rewrite !List.filter_app.
  destruct (resolveChannelDetails_youtube_log rt w (Some identifier)
              (youtubeApiKey data) (videoCount data)) as [Hfetches _].
  assert (H1 : List.filter is_model_call
                 (log_of (resolveChannelDetails rt w (Some identifier)
                            (youtubeApiKey data) (videoCount data))) = []).
  { induction Hfetches as [|c log (url & -> & _) _ IH]; [done|]. exact IH. }
  assert (H2 : forall l : list Video,
               List.filter is_model_call
                 (List.map (fun video => FetchTranscript (videoId video) "en") l)
               = []).
  { intros l. induction l as [|video l IH]; [done|]. exact IH. }
  by rewrite H1, H2.
Qed.

Lemma style_call_error_is_classified_witness :
  outcome (POST Demo.rt
             {| fetch_channel_search := fetch_channel_search Demo.w;
                fetch_username := fetch_username Demo.w;
                fetch_channel := fetch_channel Demo.w;
                fetch_videos := fetch_videos Demo.w;
                fetchTranscript := fetchTranscript Demo.w;
                responses_create := fun _ _ _ _ =>
                  Throw (Error "Incorrect API key provided: sk-01234.") |}
             (Demo.request_of Demo.handle_url 3))
  = Return (response 401 "Incorrect API key provided: sk-01234.").
Proof.
  refine (proj1 (style_call_error_is_classified Demo.rt _
                   (Demo.request_of Demo.handle_url 3)
                   (Demo.data_of Demo.handle_url 3) (Handle "@acme")
                   {| cd_channelId := "UC123"; channelTitle := "Acme";
                      videos := Demo.videos |}
                   [Demo.sample] (Error "Incorrect API key provided: sk-01234.")
                   _ _ _ _ _)).
  - exists (Demo.body_of Demo.handle_url 3). repeat split; vm_compute; reflexivity.
  - vm_compute. reflexivity.
  - vm_compute. reflexivity.
  - discriminate.
  - reflexivity.
Defined.

(** X26.  The topic of the request reaches the script call only: with
    another topic the [try] block of the handler issues the same
    YouTube, transcript and style calls. *)
Theorem topic_reaches_the_script_call_only (rt : Runtime) (w : World)
    (data : RequestData) (topic' : string) (identifier : ChannelIdentifier) :
  List.filter (fun c => negb (is_script_call c))
    (log_of (pipeline rt w (with_topic data topic') identifier))
  = List.filter (fun c => negb (is_script_call c))
      (log_of (pipeline rt w data identifier)).
Proof.
  rewrite !pipeline_log. cbn [with_topic youtubeApiKey videoCount].
  rewrite !List.filter_app. f_equal.
  destruct (outcome (resolveChannelDetails rt w (Some identifier) _ _))
    as [[meta|]|e]; [|done..].
  rewrite !List.filter_app. f_equal.
  destruct (outcome (fetchTranscripts w (videos meta))) as [[|sample samples]|e];
    [done| |done].
  apply synthesize_log_without_script.
Qed.
